(** * inspect_ai: the generation-dispatch core of [model/_model.py]

    A shallow embedding of the parts of [src/inspect_ai/model/_model.py]
    that the specification talks about: [ModelName] pattern equality, the
    message normalisation transforms, the usage ledger with its sample
    limits, and the retried generate unit of [Model._generate].

    Python values are modelled as follows: [str] is [string], [int] is [Z],
    [list] is [list], [dict[str, _]] is [gmap string _], [X | None] is
    [option X], and a raised exception is the left summand of a sum. *)

From Stdlib Require Import ZArith QArith Ascii String.
From stdpp Require Import base strings list gmap.

Local Open Scope string_scope.
Local Open Scope Z_scope.
Local Open Scope list_scope.

(** ** Python string primitives *)

Module PyStr.

(** [s.split(sep)] for a one-character separator: never returns the empty
    list, the empty string splits to one empty part. *)
Fixpoint split (sep : ascii) (s : string) : list string :=
  match s with
  | EmptyString => [EmptyString]
  | String c s' =>
      if Ascii.eqb c sep then EmptyString :: split sep s'
      else match split sep s' with
           | [] => [String c EmptyString]
           | p :: ps => String c p :: ps
           end
  end.

(** [sep.join(parts)]. *)
Fixpoint join (sep : string) (parts : list string) : string :=
  match parts with
  | [] => ""
  | [p] => p
  | p :: ps => p +:+ sep +:+ join sep ps
  end.

(** [needle in hay]: [needle] occurs as a contiguous substring of [hay]. *)
Fixpoint contains (needle hay : string) : bool :=
  String.prefix needle hay
  || match hay with
     | EmptyString => false
     | String _ hay' => contains needle hay'
     end.

(** Truthiness of a [str]: the empty string is falsy. *)
Definition truthy (s : string) : bool :=
  match s with EmptyString => false | String _ _ => true end.

End PyStr.

(** ** ModelName (lines 577-627) *)

Module ModelName.

Record t := mk { api : string; name : string }.

(** [ModelName._parse_model]. *)
Definition _parse_model (model : string) : option string * string :=
  let parts := PyStr.split "/"%char model in
  if (1 <? length parts)%nat
  then (Some (hd "" parts), PyStr.join "/" (tl parts))
  else (None, model).

Inductive ValueError := API_not_specified.

(** [ModelName.__init__] for a [str] argument. *)
Definition init (model : string) : ValueError + t :=
  match _parse_model model with
  | (None, _) => inl API_not_specified
  | (Some api, name) => inr (mk api name)
  end.

(** The right-hand side of [==] is any Python object. *)
Inductive pyobject :=
| PyString (s : string)
| PyOther.

(** [ModelName.__eq__]. *)
Definition __eq__ (self : t) (pattern : pyobject) : bool :=
  match pattern with
  | PyString pattern =>
      let '(api, name) := _parse_model pattern in
      if (match api with
          | Some api => PyStr.truthy api && PyStr.contains api self.(ModelName.api)
          | None => false
          end) && PyStr.contains name self.(ModelName.name)
      then true
      else PyStr.contains name self.(ModelName.name)
  | PyOther => false
  end.

End ModelName.

(** ** Chat messages and generation config

    [_chat_message.py], [_util/content.py] and [_generate_config.py] are
    not among the source files; the types below carry the fields that
    [_model.py] reads and writes. *)

(** Modelled from the spec: the content item classes of [_util/content.py]
    ("typed content items (text, image, audio, video)"). *)
Inductive Content :=
| ContentText (text : string)
| ContentImage (image : string)
| ContentAudio (audio : string)
| ContentVideo (video : string).

(** [content: str | list[Content]]. *)
Inductive MessageContent :=
| Str (s : string)
| Items (l : list Content).

(** Modelled from the spec: [ToolCall] and [ToolCallError] of the tool
    package ("an invocation record (name, arguments, correlation id)"). *)
Record ToolCall := mkToolCall {
  tc_id : string;
  tc_function : string;
  tc_arguments : string
}.

Record ToolCallError := mkToolCallError {
  tce_type : string;
  tce_message : string
}.

(** Modelled from the spec: the message classes of [_chat_message.py]
    ("tagged variant {system, user, assistant, tool}"; the assistant carries
    optional reasoning text and tool calls, the tool result a correlation
    id, the function name and an optional error). The user message has the
    [tool_call_id] list that [maybe_adding_user_message] passes. *)
Inductive ChatMessage :=
| ChatMessageSystem (content : MessageContent)
| ChatMessageUser (content : MessageContent) (tool_call_id : option (list string))
| ChatMessageAssistant (content : MessageContent)
    (tool_calls : option (list ToolCall)) (reasoning : option string)
| ChatMessageTool (content : MessageContent) (tool_call_id : option string)
    (function : option string) (error : option ToolCallError).

Definition content (m : ChatMessage) : MessageContent :=
  match m with
  | ChatMessageSystem c | ChatMessageUser c _
  | ChatMessageAssistant c _ _ | ChatMessageTool c _ _ _ => c
  end.

(** The classes used as [message_type] arguments and in [isinstance]. *)
Inductive MessageType := TSystem | TUser | TAssistant | TTool.

Definition isinstance (m : ChatMessage) (ty : MessageType) : bool :=
  match m, ty with
  | ChatMessageSystem _, TSystem
  | ChatMessageUser _ _, TUser
  | ChatMessageAssistant _ _ _, TAssistant
  | ChatMessageTool _ _ _ _, TTool => true
  | _, _ => false
  end.

(** [message_type(content=c)]: every other field takes its default. *)
Definition construct (ty : MessageType) (c : MessageContent) : ChatMessage :=
  match ty with
  | TSystem => ChatMessageSystem c
  | TUser => ChatMessageUser c None
  | TAssistant => ChatMessageAssistant c None None
  | TTool => ChatMessageTool c None None None
  end.

(** Modelled from the spec: the options of [GenerateConfig] that
    [_model.py] consults; every option is unset ([None]) by default. *)
Record GenerateConfig := mkConfig {
  max_retries : option Z;
  timeout : option Z;
  max_connections : option Z;
  system_message : option string;
  max_tokens : option Z;
  reasoning_history : option bool;
  parallel_tool_calls : option bool
}.

Definition GenerateConfig_default : GenerateConfig :=
  mkConfig None None None None None None None.

(** Modelled from the spec: [GenerateConfig.merge] ("override's value for
    every field the override explicitly set, else base's value"). *)
Definition merge (base other : GenerateConfig) : GenerateConfig :=
  let pick {A} (f : GenerateConfig -> option A) :=
    match f other with Some v => Some v | None => f base end in
  mkConfig (pick max_retries) (pick timeout) (pick max_connections)
           (pick system_message) (pick max_tokens) (pick reasoning_history)
           (pick parallel_tool_calls).

(** Truthiness of an optional [int] and of an optional [str]. *)
Definition truthy_int (o : option Z) : bool :=
  match o with Some n => negb (n =? 0) | None => false end.

Definition truthy_str (o : option string) : bool :=
  match o with Some s => PyStr.truthy s | None => false end.

(** ** Message normalisation pipeline *)

Definition nl : string := String "010"%char EmptyString.

(** *** [resolve_reasoning_history] (lines 832-894) *)

Definition has_reasoning (m : ChatMessage) : bool :=
  match m with
  | ChatMessageAssistant _ _ (Some _) => true
  | _ => false
  end.

(** The loop body of the native branch: [model_copy(update={"reasoning": None})]. *)
Definition strip_reasoning (m : ChatMessage) : ChatMessage :=
  match m with
  | ChatMessageAssistant c tcs _ => ChatMessageAssistant c tcs None
  | _ => m
  end.

(** The loop body of the [<think>] branch. *)
Definition inline_reasoning (m : ChatMessage) : ChatMessage :=
  match m with
  | ChatMessageAssistant c tcs (Some reasoning) =>
      match c with
      | Str s =>
          ChatMessageAssistant
            (Str ("<think>" +:+ nl +:+ reasoning +:+ nl +:+ "</think>" +:+ nl +:+ nl +:+ s))
            tcs None
      | Items l =>
          ChatMessageAssistant
            (Items (ContentText ("<think>" +:+ nl +:+ reasoning +:+ nl +:+ "</think>" +:+ nl) :: l))
            tcs None
      end
  | _ => m
  end.

Definition resolve_reasoning_history (messages : list ChatMessage)
    (config : GenerateConfig) (api_has_reasoning_history : bool) : list ChatMessage :=
  (* config.reasoning_history is not False *)
  let reasoning_history :=
    match config.(reasoning_history) with Some false => false | _ => true end in
  let have_reasoning := existsb has_reasoning messages in
  if negb have_reasoning then messages
  else if api_has_reasoning_history then
    if negb reasoning_history then map strip_reasoning messages
    else messages
  else if reasoning_history then map inline_reasoning messages
  else messages.

(** *** [resolve_tool_model_input] (lines 897-928) *)

(** Modelled from the spec: the part of a [ToolDef] ([tool/_tool_def.py])
    the transform reads, its name and its optional
    [model_input(index, total, content)] handler ("each tool definition
    that declares a model-input formatter"). *)
Record ToolDef := mkToolDef {
  td_name : string;
  td_model_input : option (nat -> nat -> MessageContent -> MessageContent)
}.

(** The inner [for index, message in enumerate(tdef_tool_messages)] loop,
    run over the whole message list: [index] counts the tool messages of
    this tool seen so far. *)
Fixpoint apply_model_input (name : string)
    (handler : nat -> nat -> MessageContent -> MessageContent)
    (total index : nat) (messages : list ChatMessage) : list ChatMessage :=
  match messages with
  | [] => []
  | ChatMessageTool c id (Some fn) err :: rest =>
      if String.eqb fn name
      then ChatMessageTool (handler index total c) id (Some fn) err
             :: apply_model_input name handler total (S index) rest
      else ChatMessageTool c id (Some fn) err
             :: apply_model_input name handler total index rest
  | m :: rest => m :: apply_model_input name handler total index rest
  end.

Definition resolve_tool_model_input (tdefs : list ToolDef)
    (messages : list ChatMessage) : list ChatMessage :=
  let tdefs := filter (fun tdef => is_Some (td_model_input tdef)) tdefs in
  if (length tdefs =? 0)%nat then messages
  else
    let total := length (filter (fun m => isinstance m TTool = true) messages) in
    foldl (fun messages tdef =>
             match td_model_input tdef with
             | Some handler => apply_model_input (td_name tdef) handler total 0 messages
             | None => messages
             end) messages tdefs.

(** *** [tool_result_images_as_user_message] (lines 931-1031) *)

Definition is_image (c : Content) : bool :=
  match c with ContentImage _ => true | _ => false end.

Definition image_placeholder : Content :=
  ContentText "Image content is included below.".

Definition tool_result_image_content_reducer
    (acc : list Content * list Content) (c : Content) : list Content * list Content :=
  let '(new_user_message_content, edited_tool_message_content) := acc in
  if is_image c
  then (new_user_message_content ++ [c],
        edited_tool_message_content ++ [image_placeholder])
  else (new_user_message_content, edited_tool_message_content ++ [c]).

Definition maybe_adding_user_message (messages : list ChatMessage)
    (content : list Content) (tool_call_ids : list string) : list ChatMessage :=
  match content with
  | [] => messages
  | _ :: _ => messages ++ [ChatMessageUser (Items content) (Some tool_call_ids)]
  end.

Definition ImagesAccumulator : Type :=
  list ChatMessage * list Content * list string.

Definition tool_result_images_reducer (accum : ImagesAccumulator)
    (message : ChatMessage) : ImagesAccumulator :=
  let '(messages, pending_content, tool_call_ids) := accum in
  let otherwise : ImagesAccumulator :=
    (maybe_adding_user_message messages pending_content tool_call_ids ++ [message],
     [], []) in
  match message with
  | ChatMessageTool (Items l) tool_call_id function _ =>
      if existsb is_image l then
        let '(new_user_message_content, edited_tool_message_content) :=
          foldl tool_result_image_content_reducer ([], []) l in
        (messages ++ [ChatMessageTool (Items edited_tool_message_content)
                        tool_call_id function None],
         pending_content ++ new_user_message_content,
         tool_call_ids ++ (if truthy_str tool_call_id
                           then match tool_call_id with Some i => [i] | None => [] end
                           else []))
      else otherwise
  | _ => otherwise
  end.

Definition tool_result_images_as_user_message
    (messages : list ChatMessage) : list ChatMessage :=
  let '(chat_messages, user_message_content, tool_call_ids) :=
    foldl tool_result_images_reducer ([], [], []) messages in
  maybe_adding_user_message chat_messages user_message_content tool_call_ids.

(** *** Collapsing consecutive messages (lines 1034-1092) *)

(** [combine_messages]. The final [else: raise TypeError] of the source is
    not reachable for [content: str | list[Content]]. *)
Definition combine_messages (a b : ChatMessage) (message_type : MessageType)
    : ChatMessage :=
  match content a, content b with
  | Str a, Str b => construct message_type (Str (a +:+ nl +:+ b))
  | Items a, Items b => construct message_type (Items (a ++ b))
  | Str a, Items b => construct message_type (Items (ContentText a :: b))
  | Items a, Str b => construct message_type (Items (a ++ [ContentText b]))
  end.

(** [consecutive_message_reducer]: [messages[-1]] is read with [last] and
    assigned by index [len(messages) - 1]. *)
Definition consecutive_message_reducer (messages : list ChatMessage)
    (message : ChatMessage) (message_type : MessageType) : list ChatMessage :=
  match last messages with
  | Some prev =>
      if isinstance message message_type && isinstance prev message_type
      then <[pred (length messages) := combine_messages prev message message_type]> messages
      else messages ++ [message]
  | None => messages ++ [message]
  end.

Definition user_message_reducer (messages : list ChatMessage)
    (message : ChatMessage) : list ChatMessage :=
  consecutive_message_reducer messages message TUser.

Definition assistant_message_reducer (messages : list ChatMessage)
    (message : ChatMessage) : list ChatMessage :=
  consecutive_message_reducer messages message TAssistant.

Definition collapse_consecutive_user_messages
    (messages : list ChatMessage) : list ChatMessage :=
  foldl user_message_reducer [] messages.

Definition collapse_consecutive_assistant_messages
    (messages : list ChatMessage) : list ChatMessage :=
  foldl assistant_message_reducer [] messages.

(** ** Exceptions, outputs and the ambient state *)

(** Modelled from the spec: [ModelUsage] of [_model_output.py]
    ("input/output/total token counts plus optional cache-read/cache-write
    token counts"), with the field names [set_model_usage] uses. *)
Record ModelUsage := mkUsage {
  input_tokens : Z;
  output_tokens : Z;
  total_tokens : Z;
  input_tokens_cache_write : option Z;
  input_tokens_cache_read : option Z
}.

(** [ModelUsage()]. *)
Definition ModelUsage_default : ModelUsage := mkUsage 0 0 0 None None.

(** The exceptions that travel through [Model.generate]: an exception of
    the adapter, told by its class and message; [RuntimeError ex request],
    the error raised at line 459, whose message shows the exception the
    adapter returned and the request; [ModelAPIDisabled], the
    [RuntimeError] of [verify_model_apis]; [SampleLimitExceededError] of
    [solver/_limit.py] with its type, value and limit; and [RetryError],
    which tenacity raises (the decorator does not set [reraise]) around
    the exception of the last attempt when its stop condition fires. *)
Inductive PyException :=
| AdapterException (cls : string) (message : string)
| RuntimeError (ex : PyException) (request : string)
| ModelAPIDisabled
| SampleLimitExceededError (type : string) (value : Z) (limit : Z)
| RetryError (last_attempt : PyException).

(** Modelled from the spec: [ModelCall] of [_model_call.py] ("raw
    request/response snapshot"), both already rendered as text. *)
Record ModelCall := mkModelCall {
  request : string;
  response : string
}.

(** Modelled from the spec: [ModelOutput] of [_model_output.py]
    ("completion choices, aggregate usage, wall-clock time"), kept to what
    the orchestrator's control flow reads: the model, the completion and
    the optional usage (the call time and the tool-call views written into
    it are left out). *)
Record ModelOutput := mkOutput {
  model : string;
  completion : string;
  usage : option ModelUsage
}.

(** What one call of [ModelAPI.generate] does: raise, or return an output
    or an exception, alone or with the [ModelCall]. *)
Inductive AdapterResult :=
| Raises (ex : PyException)
| Returns (output : ModelOutput + PyException) (call : option ModelCall).

(** Modelled from the spec: [ToolChoice] and [ToolInfo] of the tool
    package (the choices "auto", "any", "none" or one named function; a
    tool descriptor with its name and whether it allows parallel calls). *)
Inductive ToolChoice :=
| choice_auto
| choice_any
| choice_none
| ToolFunction (name : string).

Record ToolInfo := mkToolInfo {
  ti_name : string;
  ti_parallel : bool
}.

(** A [tools] argument item: a [Tool] or [ToolDef], or a bare [ToolInfo]. *)
Inductive ToolArg :=
| ATool (d : ToolDef) (parallel : bool)
| AToolInfo (i : ToolInfo).

(** Modelled from the spec: [tool_defs], [tools_info] and
    [disable_parallel_tools] of [_call_tools.py] and [_tool_def.py]
    ("extract tool defs, resolve to tool-info"; "if any tool declares
    disable parallel calls"). *)
Definition tool_defs (tools : list ToolArg) : list ToolDef :=
  flat_map (fun t => match t with ATool d _ => [d] | AToolInfo _ => [] end) tools.

Definition tools_info (tools : list ToolArg) : list ToolInfo :=
  map (fun t => match t with
                | ATool d parallel => mkToolInfo (td_name d) parallel
                | AToolInfo i => i
                end) tools.

Definition disable_parallel_tools (tools : list ToolArg) : bool :=
  existsb (fun i => negb (ti_parallel i)) (tools_info tools).

(** Modelled from the spec: [CachePolicy] and [CacheEntry] of [_cache.py]
    ("fingerprint-relevant fields: backend base URL, resolved config,
    normalized input, model identity string, cache policy, tool choice,
    tool list"). *)
Record CachePolicy := mkCachePolicy {
  expiry : option string;
  per_epoch : bool
}.

Definition CachePolicy_default : CachePolicy := mkCachePolicy (Some "1W") true.

Record CacheEntry := mkCacheEntry {
  ce_base_url : option string;
  ce_config : GenerateConfig;
  ce_input : list ChatMessage;
  ce_model : string;
  ce_policy : CachePolicy;
  ce_tool_choice : ToolChoice;
  ce_tools : list ToolInfo
}.

#[export] Instance Content_eq_dec : EqDecision Content.
Proof. solve_decision. Defined.
#[export] Instance MessageContent_eq_dec : EqDecision MessageContent.
Proof. solve_decision. Defined.
#[export] Instance ToolCall_eq_dec : EqDecision ToolCall.
Proof. solve_decision. Defined.
#[export] Instance ToolCallError_eq_dec : EqDecision ToolCallError.
Proof. solve_decision. Defined.
#[export] Instance ChatMessage_eq_dec : EqDecision ChatMessage.
Proof. solve_decision. Defined.
#[export] Instance GenerateConfig_eq_dec : EqDecision GenerateConfig.
Proof. solve_decision. Defined.
#[export] Instance ToolChoice_eq_dec : EqDecision ToolChoice.
Proof. solve_decision. Defined.
#[export] Instance ToolInfo_eq_dec : EqDecision ToolInfo.
Proof. solve_decision. Defined.
#[export] Instance CachePolicy_eq_dec : EqDecision CachePolicy.
Proof. solve_decision. Defined.
#[export] Instance CacheEntry_eq_dec : EqDecision CacheEntry.
Proof. solve_decision. Defined.

(** Modelled from the spec: the active sample of [log/_samples.py], which
    supplies the limits ("an externally supplied message limit", "an
    externally supplied token limit (if any)") and is told the running
    totals. *)
Record ActiveSample := mkActiveSample {
  as_message_limit : option Z;
  as_token_limit : option Z;
  as_total_messages : Z;
  as_total_tokens : Z
}.

(** The ambient state [Model.generate] reads and writes: the two usage
    context variables ([None] while [init_model_usage] or
    [init_sample_model_usage] has not run in this context), the active
    sample, the active model (by identity) and its config, the cache
    store, whether [INSPECT_DISABLE_MODEL_API] is set, and the number of
    calls made to the adapter so far. *)
Record World := mkWorld {
  sample_model_usage_context_var : option (gmap string ModelUsage);
  model_usage_context_var : option (gmap string ModelUsage);
  sample_active : ActiveSample;
  active_model_context_var : option nat;
  active_generate_config : GenerateConfig;
  cache_store_contents : list (CacheEntry * ModelOutput);
  INSPECT_DISABLE_MODEL_API : bool;
  api_calls : nat
}.

(** Modelled from the spec: the accessors of the active sample in
    [log/_samples.py]. *)
Definition active_sample_message_limit (w : World) : option Z :=
  as_message_limit (sample_active w).

Definition active_sample_token_limit (w : World) : option Z :=
  as_token_limit (sample_active w).

Definition active_sample_total_messages (w : World) : Z :=
  as_total_messages (sample_active w).

Definition active_sample_total_tokens (w : World) : Z :=
  as_total_tokens (sample_active w).

(** *** A state monad with exceptions and fuel

    A computation runs on a [World] and either runs out of fuel ([None]),
    or ends, raising an exception or returning a value, in a new [World].
    State changes made before an exception is raised are kept. *)
Definition M (A : Type) : Type := World -> option ((PyException + A) * World).

Definition ret {A} (a : A) : M A := fun w => Some (inr a, w).
Definition raise {A} (ex : PyException) : M A := fun w => Some (inl ex, w).
Definition out_of_fuel {A} : M A := fun _ => None.
Definition bind {A B} (m : M A) (k : A -> M B) : M B :=
  fun w =>
    match m w with
    | None => None
    | Some (inl ex, w') => Some (inl ex, w')
    | Some (inr a, w') => k a w'
    end.
Definition get : M World := fun w => Some (inr w, w).
Definition modify (f : World -> World) : M unit := fun w => Some (inr tt, f w).

Notation "x <-- m ;; k" := (bind m (fun x => k))
  (at level 100, m at next level, right associativity).
Notation "m ;;; k" := (bind m (fun _ => k))
  (at level 100, right associativity).

(** Field updates of the ambient state. *)
Definition with_usage (sample run : option (gmap string ModelUsage)) (w : World) : World :=
  mkWorld sample run (sample_active w)
    (active_model_context_var w) (active_generate_config w)
    (cache_store_contents w) (INSPECT_DISABLE_MODEL_API w) (api_calls w).

Definition with_sample_active (a : ActiveSample) (w : World) : World :=
  mkWorld (sample_model_usage_context_var w) (model_usage_context_var w) a
    (active_model_context_var w) (active_generate_config w)
    (cache_store_contents w) (INSPECT_DISABLE_MODEL_API w) (api_calls w).

Definition with_cache_store (c : list (CacheEntry * ModelOutput)) (w : World) : World :=
  mkWorld (sample_model_usage_context_var w) (model_usage_context_var w)
    (sample_active w)
    (active_model_context_var w) (active_generate_config w)
    c (INSPECT_DISABLE_MODEL_API w) (api_calls w).

Definition count_api_call (w : World) : World :=
  mkWorld (sample_model_usage_context_var w) (model_usage_context_var w)
    (sample_active w)
    (active_model_context_var w) (active_generate_config w)
    (cache_store_contents w) (INSPECT_DISABLE_MODEL_API w) (S (api_calls w)).

(** Modelled from the spec: the setters of the active sample in
    [log/_samples.py]. *)
Definition set_active_sample_total_messages (n : Z) (w : World) : World :=
  let a := sample_active w in
  with_sample_active
    (mkActiveSample (as_message_limit a) (as_token_limit a) n (as_total_tokens a)) w.

Definition set_active_sample_total_tokens (n : Z) (w : World) : World :=
  let a := sample_active w in
  with_sample_active
    (mkActiveSample (as_message_limit a) (as_token_limit a) (as_total_messages a) n) w.

(** ** Usage ledger (lines 1113-1208) *)

(** [str | list[ChatMessage]], the [input] of [Model.generate]. *)
Inductive GenerateInput :=
| InputStr (s : string)
| InputMessages (l : list ChatMessage).

(** [handle_sample_message_limit]. *)
Definition handle_sample_message_limit (input : GenerateInput) : M unit :=
  let total_messages :=
    match input with
    | InputStr _ => 1
    | InputMessages l => Z.of_nat (length l)
    end in
  w <-- get ;;
  (match active_sample_message_limit w with
   | Some message_limit =>
       if total_messages >=? message_limit
       then raise (SampleLimitExceededError "message" total_messages message_limit)
       else ret tt
   | None => ret tt
   end) ;;;
  modify (set_active_sample_total_messages total_messages).

(** The running total of an optional counter: [None] until the first
    present value is added. *)
Definition add_optional (total new : option Z) : option Z :=
  match new with
  | Some n => Some (default 0 total + n)
  | None => total
  end.

(** [set_model_usage]: nothing happens when the context variable is unset. *)
Definition set_model_usage (model : string) (usage : ModelUsage)
    (model_usage : option (gmap string ModelUsage)) : option (gmap string ModelUsage) :=
  match model_usage with
  | Some model_usage =>
      let total_usage := default ModelUsage_default (model_usage !! model) in
      let total_usage :=
        mkUsage (input_tokens total_usage + input_tokens usage)
                (output_tokens total_usage + output_tokens usage)
                (total_tokens total_usage + total_tokens usage)
                (add_optional (input_tokens_cache_write total_usage)
                              (input_tokens_cache_write usage))
                (add_optional (input_tokens_cache_read total_usage)
                              (input_tokens_cache_read usage)) in
      Some (<[model := total_usage]> model_usage)
  | None => None
  end.

(** [sample_model_usage()]: the context variable, or its default [{}]. *)
Definition sample_model_usage (w : World) : gmap string ModelUsage :=
  default ∅ (sample_model_usage_context_var w).

(** [sample_total_tokens]. *)
Definition sample_total_tokens (w : World) : Z :=
  map_fold (fun _ usage acc => total_tokens usage + acc) 0 (sample_model_usage w).

(** [record_model_usage]. *)
Definition record_model_usage (model : string) (usage : ModelUsage) : M unit :=
  modify (fun w =>
    with_usage (set_model_usage model usage (sample_model_usage_context_var w))
               (set_model_usage model usage (model_usage_context_var w)) w) ;;;
  w <-- get ;;
  let total_tokens := sample_total_tokens w in
  modify (set_active_sample_total_tokens total_tokens) ;;;
  w <-- get ;;
  match active_sample_token_limit w with
  | Some token_limit =>
      if total_tokens >? token_limit
      then raise (SampleLimitExceededError "token" total_tokens token_limit)
      else ret tt
  | None => ret tt
  end.

(** ** The capability contract and the orchestrator *)

(** [ModelAPI] (lines 60-183). [api_generate n] is the adapter's answer to
    its [n]-th call (counted from 0), so that an adapter may fail a number
    of times and then succeed; [registry_name] is [registry_info(api).name]. *)
Record ModelAPI := mkModelAPI {
  model_name : string;
  base_url : option string;
  registry_name : string;
  api_generate : nat -> list ChatMessage -> list ToolInfo -> ToolChoice ->
                 GenerateConfig -> AdapterResult;
  api_max_tokens : option Z;
  api_max_connections : Z;
  connection_key : string;
  is_rate_limit : PyException -> bool;
  collapse_user_messages : bool;
  collapse_assistant_messages : bool;
  tools_required : bool;
  tool_result_images : bool;
  has_reasoning_history : bool
}.

(** [Model]: [model_id] stands for the identity of the object, which is
    what [self == active_model()] compares. *)
Record Model := mkModel {
  model_id : nat;
  Model_api : ModelAPI;
  Model_config : GenerateConfig
}.

(** [ModelName.__init__] for a [Model] argument (lines 603-607). *)
Definition ModelName_of_model (m : Model) : ModelName.t :=
  let name := registry_name (Model_api m) in
  let parts := PyStr.split "/"%char name in
  ModelName.mk
    (if (1 <? length parts)%nat then PyStr.join "/" (tl parts) else name)
    (model_name (Model_api m)).

(** [ModelName.__str__] and [Model.__str__]. *)
Definition ModelName_str (n : ModelName.t) : string :=
  ModelName.api n +:+ "/" +:+ ModelName.name n.

Definition Model_str (self : Model) : string :=
  ModelName_str (ModelName_of_model self).

(** [cache: bool | CachePolicy]; a policy object is truthy. *)
Inductive CacheArg :=
| CacheBool (b : bool)
| CacheWith (policy : CachePolicy).

Definition cache_truthy (cache : CacheArg) : bool :=
  match cache with CacheBool b => b | CacheWith _ => true end.

(** Modelled from the spec: [cache_fetch] and [cache_store] of [_cache.py]
    ("fetch(fingerprint) -> output | absent; store(fingerprint, output)";
    two entries are fingerprint-equal iff all their fields are). *)
Fixpoint cache_lookup (entry : CacheEntry) (store : list (CacheEntry * ModelOutput))
    : option ModelOutput :=
  match store with
  | [] => None
  | (e, output) :: rest =>
      if decide (e = entry) then Some output else cache_lookup entry rest
  end.

Definition cache_fetch (entry : CacheEntry) (w : World) : option ModelOutput :=
  cache_lookup entry (cache_store_contents w).

Definition cache_store (entry : CacheEntry) (output : ModelOutput) (w : World) : World :=
  with_cache_store ((entry, output) :: cache_store_contents w) w.

(** [Model.verify_model_apis]. *)
Definition verify_model_apis (self : Model) : M unit :=
  w <-- get ;;
  if INSPECT_DISABLE_MODEL_API w
     && negb (String.eqb (ModelName.api (ModelName_of_model self)) "mockllm")
  then raise ModelAPIDisabled
  else ret tt.

(** The inner [generate()] of [Model._generate] (lines 392-486): one
    attempt of the retried unit. The transcript event, tracing and
    telemetry it emits are outside the model. *)
Definition generate_unit (self : Model) (input : list ChatMessage)
    (tools : list ToolInfo) (tool_choice : ToolChoice) (config : GenerateConfig)
    (cache : CacheArg) : M ModelOutput :=
  let policy :=
    match cache with CacheWith p => p | CacheBool _ => CachePolicy_default end in
  let cache_entry :=
    mkCacheEntry (base_url (Model_api self)) config input (Model_str self)
                 policy tool_choice tools in
  w <-- get ;;
  match (if cache_truthy cache then cache_fetch cache_entry w else None) with
  | Some existing => ret existing
  | None =>
      verify_model_apis self ;;;
      w <-- get ;;
      let result :=
        api_generate (Model_api self) (api_calls w) input tools tool_choice config in
      modify count_api_call ;;;
      match result with
      | Raises ex => raise ex
      | Returns (inr ex) call =>
          raise (RuntimeError ex (match call with Some c => request c | None => "" end))
      | Returns (inl output) _ =>
          (match usage output with
           | Some u => record_model_usage (Model_str self) u
           | None => ret tt
           end) ;;;
          (if cache_truthy cache
           then modify (cache_store cache_entry output)
           else ret tt) ;;;
          ret output
      end
  end.

(** *** The retry policy (lines 371-391)

    [tenacity] is a third-party library; its stop conditions and its loop
    are restated here. [stop_after_attempt n] fires when the number of the
    attempt that just failed is at least [n], [stop_after_delay d] when the
    seconds since the first attempt are at least [d]. After an attempt the
    loop returns its result when the retry predicate rejects the outcome
    (a raised exception is raised again as it is), raises [RetryError]
    around the outcome when the stop condition fires, and otherwise sleeps
    and runs the next attempt. The backoff only delays the next attempt;
    tenacity's [TryAgain] signal, which nothing in [_model.py] raises, is
    left out. *)
Inductive StopCondition :=
| stop_after_delay (max_delay : Z)
| stop_after_attempt (max_attempt_number : Z)
| stop_any (a b : StopCondition)
| stop_never.

(** The [stop=] argument of the decorator. *)
Definition retry_stop (config : GenerateConfig) : StopCondition :=
  if truthy_int (timeout config) && truthy_int (max_retries config)
  then stop_any (stop_after_delay (default 0 (timeout config)))
                (stop_after_attempt (default 0 (max_retries config)))
  else if truthy_int (timeout config)
  then stop_after_delay (default 0 (timeout config))
  else if truthy_int (max_retries config)
  then stop_after_attempt (default 0 (max_retries config))
  else stop_never.

Section Orchestrator.

(** [seconds_since_start n]: the wall-clock seconds between the start of
    the first attempt and the end of attempt [n] (a finite float is a
    rational, and Python compares it with an [int] exactly). *)
Variable seconds_since_start : nat -> Q.

Fixpoint stop_fires (stop : StopCondition) (attempt_number : nat) : bool :=
  match stop with
  | stop_after_delay max_delay =>
      Qle_bool (inject_Z max_delay) (seconds_since_start attempt_number)
  | stop_after_attempt max_attempt_number =>
      max_attempt_number <=? Z.of_nat attempt_number
  | stop_any a b => stop_fires a attempt_number || stop_fires b attempt_number
  | stop_never => false
  end.

(** The loop of the [@retry] decorator around [fn]; [fuel] bounds the
    number of attempts the model runs, [attempt_number] starts at 1. *)
Fixpoint retrying {A} (stop : StopCondition) (retry : PyException -> bool)
    (fn : M A) (fuel : nat) (attempt_number : nat) : M A :=
  match fuel with
  | O => out_of_fuel
  | S fuel =>
      fun w =>
        match fn w with
        | None => None
        | Some (inr a, w') => Some (inr a, w')
        | Some (inl ex, w') =>
            if retry ex then
              if stop_fires stop attempt_number
              then Some (inl (RetryError ex), w')
              else retrying stop retry fn fuel (S attempt_number) w'
            else Some (inl ex, w')
        end
  end.

(** [Model._generate] (lines 312-492). *)
Definition _generate (fuel : nat) (self : Model) (input : list ChatMessage)
    (tools : list ToolArg) (tool_choice : option ToolChoice)
    (config : GenerateConfig) (cache : CacheArg) : M ModelOutput :=
  let api := Model_api self in
  let tool_choice := default choice_auto tool_choice in
  let tdefs := tool_defs tools in
  let tools := tools_info tools in
  let tools :=
    match tool_choice with
    | ToolFunction name => filter (fun tool => ti_name tool = name) tools
    | _ => tools
    end in
  let purge :=
    bool_decide (tool_choice = choice_none) || (length tools =? 0)%nat in
  let tools := if purge && negb (tools_required api) then [] else tools in
  let tool_choice := if purge then choice_none else tool_choice in
  let input := resolve_reasoning_history input config (has_reasoning_history api) in
  let input := resolve_tool_model_input tdefs input in
  let input :=
    if negb (tool_result_images api)
    then tool_result_images_as_user_message input else input in
  let input :=
    if collapse_user_messages api
    then collapse_consecutive_user_messages input else input in
  let input :=
    if collapse_assistant_messages api
    then collapse_consecutive_assistant_messages input else input in
  retrying (retry_stop config) (is_rate_limit api)
           (generate_unit self input tools tool_choice config cache) fuel 1.

Definition with_max_tokens (v : option Z) (c : GenerateConfig) : GenerateConfig :=
  mkConfig (max_retries c) (timeout c) (max_connections c) (system_message c)
           v (reasoning_history c) (parallel_tool_calls c).

Definition with_parallel_tool_calls (v : option bool) (c : GenerateConfig)
    : GenerateConfig :=
  mkConfig (max_retries c) (timeout c) (max_connections c) (system_message c)
           (max_tokens c) (reasoning_history c) v.

(** [Model.generate] (lines 245-310). The connection semaphore entered
    around [_generate] only delays the call and is outside the model. *)
Definition generate (fuel : nat) (self : Model) (input : GenerateInput)
    (tools : list ToolArg) (tool_choice : option ToolChoice)
    (config : GenerateConfig) (cache : CacheArg) : M ModelOutput :=
  w <-- get ;;
  let is_active_model :=
    bool_decide (active_model_context_var w = Some (model_id self)) in
  (if is_active_model then handle_sample_message_limit input else ret tt) ;;;
  w <-- get ;;
  let base_config := Model_config self in
  let base_config :=
    if is_active_model then merge base_config (active_generate_config w)
    else base_config in
  let config := merge base_config config in
  let config :=
    with_max_tokens
      (if truthy_int (max_tokens config) then max_tokens config
       else api_max_tokens (Model_api self)) config in
  let config :=
    if disable_parallel_tools tools
    then with_parallel_tool_calls (Some false) config else config in
  let input :=
    match input with
    | InputStr s => [ChatMessageUser (Str s) None]
    | InputMessages l => l
    end in
  let input :=
    if truthy_str (system_message config)
    then ChatMessageSystem (Str (default "" (system_message config))) :: input
    else input in
  _generate fuel self input tools tool_choice config cache.

End Orchestrator.

(** * Auxiliary definitions

    What the properties below are stated with: the shape of transformed
    content, the accumulator of the collapsing fold kept in reverse, the
    state a recording leaves, the trace of retried attempts, and the
    adapters, models and contexts of the worked examples. *)

(** ** Content *)

(** What becomes of one content item of an edited tool message. *)
Definition without_image (c : Content) : Content :=
  if is_image c then image_placeholder else c.

(** The content items a message content stands for: a string counts as a
    single text item. *)
Definition content_items (c : MessageContent) : list Content :=
  match c with
  | Str s => [ContentText s]
  | Items l => l
  end.

(** The content of two messages put together: two strings are joined by a
    newline, anything else is the concatenation of the content items. *)
Definition concatenated_content (a b : MessageContent) : MessageContent :=
  match a, b with
  | Str a, Str b => Str (a +:+ nl +:+ b)
  | _, _ => Items (content_items a ++ content_items b)
  end.

(** ** The collapsing fold *)

Section CollapseModel.

Variable message_type : MessageType.

(** The step of [consecutive_message_reducer] on the accumulator kept in
    reverse, newest first. *)
Definition step_reversed (acc : list ChatMessage) (message : ChatMessage)
    : list ChatMessage :=
  match acc with
  | prev :: rest =>
      if isinstance message message_type && isinstance prev message_type
      then combine_messages prev message message_type :: rest
      else message :: prev :: rest
  | [] => [message]
  end.

(** No two neighbours are both of the collapsed type. *)
Fixpoint separated (l : list ChatMessage) : bool :=
  match l with
  | a :: rest =>
      match rest with
      | b :: _ => negb (isinstance a message_type && isinstance b message_type)
      | [] => true
      end && separated rest
  | [] => true
  end.

(** The fold of [consecutive_message_reducer]; the two collapsing
    functions are its instances for the user and the assistant class. *)
Definition collapse (messages : list ChatMessage) : list ChatMessage :=
  foldl (fun acc m => consecutive_message_reducer acc m message_type) [] messages.

End CollapseModel.

(** ** The ledger and the generate unit *)

(** The state after the two [set_model_usage] calls, and after the total
    has been written to the active sample as well. *)
Definition ledgers_updated (model : string) (usage : ModelUsage) (w : World) : World :=
  with_usage (set_model_usage model usage (sample_model_usage_context_var w))
             (set_model_usage model usage (model_usage_context_var w)) w.

Definition recorded (model : string) (usage : ModelUsage) (w : World) : World :=
  set_active_sample_total_tokens
    (sample_total_tokens (ledgers_updated model usage w))
    (ledgers_updated model usage w).

(** The cache, if it is consulted, has nothing for this call. *)
Definition cache_unused (cache : CacheArg) (w : World) : Prop :=
  cache_truthy cache = false \/ cache_store_contents w = [].

(** What is left of the unit once the adapter has returned [output]. *)
Definition after_call (self : Model) (input : list ChatMessage)
    (tools : list ToolInfo) (tool_choice : ToolChoice) (config : GenerateConfig)
    (cache : CacheArg) (output : ModelOutput) : M ModelOutput :=
  (match usage output with
   | Some u => record_model_usage (Model_str self) u
   | None => ret tt
   end) ;;;
  (if cache_truthy cache
   then modify (cache_store
                  (mkCacheEntry (base_url (Model_api self)) config input (Model_str self)
                     (match cache with
                      | CacheWith p => p
                      | CacheBool _ => CachePolicy_default
                      end) tool_choice tools) output)
   else ret tt) ;;;
  ret output.

(** The state after [k] more adapter calls that raised. *)
Fixpoint after_calls (k : nat) (w : World) : World :=
  match k with
  | O => w
  | S k => after_calls k (count_api_call w)
  end.

(** ** Retried attempts *)

Section RetryTrace.

Variable seconds_since_start : nat -> Q.
Context {A : Type}.
Variable stop : StopCondition.
Variable retry : PyException -> bool.
Variable fn : M A.

(** [retried k n w w']: from the state [w], the attempts number [n] to
    [n + k - 1] each raised an exception that the retry predicate accepts
    while the stop condition did not fire, and left the state [w']. *)
Inductive retried : nat -> nat -> World -> World -> Prop :=
| retried_O n w : retried 0 n w w
| retried_S k n w ex w' w'' :
    fn w = Some (inl ex, w') ->
    retry ex = true ->
    stop_fires seconds_since_start stop n = false ->
    retried k (S n) w' w'' ->
    retried (S k) n w w''.

End RetryTrace.

(** ** Worked examples *)

Definition reasoning_example : list ChatMessage :=
  [ ChatMessageUser (Str "What is 2+2?") None;
    ChatMessageAssistant (Str "4") None (Some "Add two and two.");
    ChatMessageAssistant (Items [ContentText "Sure."]) None (Some "Be brief.") ].

Definition three_images_example : list Content :=
  [ContentImage "a.png"; ContentText "see"; ContentImage "b.png"; ContentImage "c.png"].

Definition example_usage : ModelUsage := mkUsage 40 20 60 None None.

Definition example_output : ModelOutput :=
  mkOutput "mockllm/model" "hello" (Some example_usage).

(** An adapter that answers every call with [example_output]. *)
Definition example_api : ModelAPI :=
  mkModelAPI "model" None "inspect_ai/mockllm"
    (fun _ _ _ _ _ => Returns (inl example_output) None)
    None 10 "default" (fun _ => false) false false false false false.

Definition example_model : Model := mkModel 0 example_api GenerateConfig_default.

(** A sample with a token limit of 100 and empty ledgers. *)
Definition example_world : World :=
  mkWorld (Some ∅) (Some ∅) (mkActiveSample None (Some 100) 0 0) None
          GenerateConfig_default [] false 0.

Definition rate_limit_error : PyException := AdapterException "TooManyRequests" "429".

Definition invalid_argument : PyException := AdapterException "InvalidArgument" "400".

(** [GoogleAPI.is_rate_limit] of [_providers/google.py] (lines 215-219),
    with the exception classes told apart by name: [cls] names the class
    among the four that the exception is an instance of, if any. *)
Definition google_is_rate_limit (ex : PyException) : bool :=
  match ex with
  | AdapterException cls _ =>
      bool_decide (cls ∈ ["TooManyRequests"; "InternalServerError";
                          "ServiceUnavailable"; "GatewayTimeout"])
  | _ => false
  end.

Definition plain_output : ModelOutput := mkOutput "google/gemini" "hello" None.

(** An adapter that raises a rate-limit error at its first [failures]
    calls and answers [afterwards] from then on. *)
Definition flaky_api (failures : nat) (afterwards : AdapterResult) : ModelAPI :=
  mkModelAPI "gemini" None "inspect_ai/google"
    (fun n _ _ _ _ => if (n <? failures)%nat then Raises rate_limit_error else afterwards)
    None 10 "gemini" google_is_rate_limit false false false false false.

Definition flaky_model (failures : nat) (afterwards : AdapterResult) : Model :=
  mkModel 1 (flaky_api failures afterwards) GenerateConfig_default.

Definition once_flaky_model : Model :=
  flaky_model 1 (Returns (inl plain_output) None).

(** A context with initialised ledgers and no limits, in which the model
    with identity 1 is the active model. *)
Definition quiet_world : World :=
  mkWorld (Some ∅) (Some ∅) (mkActiveSample None None 0 0) (Some 1%nat)
          GenerateConfig_default [] false 0.

Definition with_max_retries (n : Z) : GenerateConfig :=
  mkConfig (Some n) None None None None None None.

Definition no_clock : nat -> Q := fun _ => 0%Q.

Definition hello : ChatMessage := ChatMessageUser (Str "hello") None.

(** [quiet_world] with a message limit of 5 on the active sample. *)
Definition limited_world : World :=
  mkWorld (Some ∅) (Some ∅) (mkActiveSample (Some 5) None 0 0) (Some 1%nat)
          GenerateConfig_default [] false 0.

Ltac run_monad :=
  cbv beta delta [bind get modify ret raise out_of_fuel] iota.

(** * Further definitions

    The rest of [_model.py] and of [_providers/google.py] that the further
    properties are about, and what they are stated with. *)

(** [message] is a tool message whose [function] is [name]. *)
Definition calls_tool (name : string) (message : ChatMessage) : bool :=
  match message with
  | ChatMessageTool _ _ (Some fn) _ => String.eqb fn name
  | _ => false
  end.

(** [message] with its content replaced. *)
Definition with_content (c : MessageContent) (message : ChatMessage) : ChatMessage :=
  match message with
  | ChatMessageSystem _ => ChatMessageSystem c
  | ChatMessageUser _ ids => ChatMessageUser c ids
  | ChatMessageAssistant _ tcs r => ChatMessageAssistant c tcs r
  | ChatMessageTool _ id fn err => ChatMessageTool c id fn err
  end.

(** The image items of a message, and of a message list, in order. *)
Definition images_of (message : ChatMessage) : list Content :=
  match content message with
  | Items l => List.filter is_image l
  | Str _ => []
  end.

Definition all_images (messages : list ChatMessage) : list Content :=
  flat_map images_of messages.

(** [message] is not a tool message that carries an image. *)
Definition no_tool_image (message : ChatMessage) : bool :=
  negb (isinstance message TTool)
  || match images_of message with [] => true | _ :: _ => false end.

(** A tool message of the worked examples. *)
Definition tool_output (text : string) (function : string) : ChatMessage :=
  ChatMessageTool (Str text) (Some "id") (Some function) None.

(** A context in which [INSPECT_DISABLE_MODEL_API] is set. *)
Definition disabled_world : World :=
  mkWorld (Some ∅) (Some ∅) (mkActiveSample None None 0 0) None
          GenerateConfig_default [] true 0.

(** A model whose adapter raises a rate-limit error at every call. *)
Definition always_limited_model : Model :=
  mkModel 2
    (mkModelAPI "gemini" None "inspect_ai/google"
       (fun _ _ _ _ _ => Raises rate_limit_error)
       None 10 "gemini" google_is_rate_limit false false false false false)
    GenerateConfig_default.

(** A clock on which every attempt ends ten seconds after the start. *)
Definition ten_seconds : nat -> Q := fun _ => inject_Z 10.

Definition with_timeout (seconds : Z) (retries : option Z) : GenerateConfig :=
  mkConfig retries (Some seconds) None None None None None.

(** ** Model resolution: [get_model] and its memo table (lines 630-761) *)

(** A [Model] object on the heap with the two flags [__init__] sets
    (lines 215-217). *)
Record ModelObject := mkModelObject {
  object_model : Model;
  _context_bound : bool;
  _closed : bool
}.

(** The [**model_args] of [get_model]. *)
Definition ModelArgs : Type := list (string * string).

(** The constructor of a registered [ModelAPI] class, called with
    [model_name], [base_url], [api_key], [config] and the model args. *)
Definition ModelAPIType : Type :=
  string -> option string -> option string -> GenerateConfig -> ModelArgs -> ModelAPI.

(** What [get_model] reads and writes: the module-level [_models] table,
    which holds references to [Model] objects, the objects themselves
    (by identity; [next_object] is the identity the next [Model(...)]
    gets), the active model, and the [INSPECT_EVAL_MODEL] variable. *)
Record Resolution := mkResolution {
  _models : gmap string nat;
  objects : gmap nat ModelObject;
  next_object : nat;
  resolution_active_model : option nat;
  INSPECT_EVAL_MODEL : option string
}.

Definition with_models (table : gmap string nat) (r : Resolution) : Resolution :=
  mkResolution table (objects r) (next_object r) (resolution_active_model r)
               (INSPECT_EVAL_MODEL r).

(** [_models[k]._context_bound], read through the reference. *)
Definition context_bound (r : Resolution) (ref : nat) : bool :=
  match objects r !! ref with
  | Some object => _context_bound object
  | None => false
  end.

(** [Model.__aenter__] (lines 223-225): sets the flag on the object, so
    every holder of the reference sees it. *)
Definition __aenter__ (ref : nat) (r : Resolution) : Resolution :=
  mkResolution (_models r)
    (alter (fun object => mkModelObject (object_model object) true (_closed object))
           ref (objects r))
    (next_object r) (resolution_active_model r) (INSPECT_EVAL_MODEL r).

(** [cached_model]: every entry whose model is context bound is deleted,
    then the key is looked up. *)
Definition cached_model (key : string) (r : Resolution) : option nat * Resolution :=
  let kept := filter (fun entry => context_bound r (snd entry) = false) (_models r) in
  (kept !! key, with_models kept r).

Inductive ResolveError :=
| NoModelSpecified
| NotRecognized (model : string) (api_name : option string).

(** [model: str | Model | None]. *)
Inductive ModelSpec :=
| SpecModel (ref : nat)
| SpecStr (model : string)
| SpecNone.

(** [str(x)] for [x: str | None]. *)
Definition str_of_option (o : option string) : string :=
  match o with Some s => s | None => "None" end.

Section GetModel.

(** Modelled from the spec: the registry of [_util/registry.py], as the
    [modelapi] classes with their unqualified names, in the order
    [registry_find] returns them ("look up the adapter family among
    registered capability-contract implementations by unqualified name
    match"). *)
Variable registry : list (string * ModelAPIType).

(** [config.model_dump_json(exclude_none=True)] and
    [str(to_jsonable_python(model_args, ...))], both of pydantic. *)
Variable config_json : GenerateConfig -> string.
Variable args_str : ModelArgs -> string.

Definition model_cache_key (model : string) (config : GenerateConfig)
    (base_url api_key : option string) (model_args : ModelArgs) : string :=
  model +:+ config_json config +:+ str_of_option base_url
        +:+ str_of_option api_key +:+ args_str model_args.

(** [registry_find(match_modelapi_type)]. *)
Definition modelapi_types (api_name : option string) : list ModelAPIType :=
  map snd (List.filter
             (fun entry => bool_decide (Some (fst entry) = api_name)) registry).

(** [get_model] from line 693 on, for a model given as a string. *)
Definition get_model_str (model : string) (config : GenerateConfig)
    (base_url api_key : option string) (memoize : bool) (model_args : ModelArgs)
    (r : Resolution) : (ResolveError + nat) * Resolution :=
  let memoize := if String.prefix "mockllm/" model then false else memoize in
  let key := model_cache_key model config base_url api_key model_args in
  let '(cached, r) := if memoize then cached_model key r else (None, r) in
  match cached with
  | Some ref => (inr ref, r)
  | None =>
      let parts := PyStr.split "/"%char model in
      let '(api_name, model) :=
        if (1 <? length parts)%nat
        then (Some (hd "" parts), PyStr.join "/" (tl parts))
        else (None, model) in
      match modelapi_types api_name with
      | modelapi_type :: _ =>
          let modelapi_instance :=
            modelapi_type model base_url api_key config model_args in
          let ref := next_object r in
          let m := mkModelObject (mkModel ref modelapi_instance config) false false in
          let table := if memoize then <[key := ref]> (_models r) else _models r in
          (inr ref,
           mkResolution table (<[ref := m]> (objects r)) (S ref)
                        (resolution_active_model r) (INSPECT_EVAL_MODEL r))
      | [] => (inl (NotRecognized model api_name), r)
      end
  end.

(** [get_model] (lines 630-747). *)
Definition get_model (model : ModelSpec) (config : GenerateConfig)
    (base_url api_key : option string) (memoize : bool) (model_args : ModelArgs)
    (r : Resolution) : (ResolveError + nat) * Resolution :=
  match model with
  | SpecModel ref => (inr ref, r)
  | SpecStr model => get_model_str model config base_url api_key memoize model_args r
  | SpecNone =>
      match resolution_active_model r with
      | Some active => (inr active, r)
      | None =>
          match INSPECT_EVAL_MODEL r with
          | Some models =>
              get_model_str (hd "" (PyStr.split ","%char models)) config base_url
                            api_key memoize model_args r
          | None => (inl NoModelSpecified, r)
          end
      end
  end.

End GetModel.

(** A registry with the one family [google], whose adapter always returns
    [plain_output], and an empty resolution state. *)
Definition example_registry : list (string * ModelAPIType) :=
  [("google",
    fun model_name base_url api_key config model_args =>
      mkModelAPI model_name base_url "inspect_ai/google"
        (fun _ _ _ _ _ => Returns (inl plain_output) None)
        None 10 model_name google_is_rate_limit false false false false false)].

Definition no_json : GenerateConfig -> string := fun _ => "{}".

Definition no_args : ModelArgs -> string := fun _ => "{}".

Definition empty_resolution : Resolution := mkResolution ∅ ∅ 0 None None.

(** ** [simple_input_messages] (lines 794-829)

    The [text] property of the message classes and its setter are code of
    [_chat_message.py], and [strip] is Python's [str.strip]. The function
    works on a deep copy of its input, so the caller's messages are not
    changed; it raises [StopIteration] when [next] finds no user message. *)
Inductive StopIteration := StopIteration_raised.

Section SimpleInput.

Variable text : ChatMessage -> string.
Variable set_text : ChatMessage -> string -> ChatMessage.
Variable strip : string -> string.

Definition simple_input_messages (input : list ChatMessage)
    (fold_system_message : option (string -> string -> string))
    : StopIteration + list ChatMessage :=
  let system_message :=
    strip (PyStr.join " "
             (map text (List.filter (fun message => isinstance message TSystem) input))) in
  let messages :=
    collapse_consecutive_user_messages
      (List.filter (fun message => negb (isinstance message TSystem)) input) in
  match list_find (fun message => isinstance message TUser = true) messages with
  | Some (i, first_user_message) =>
      let folded :=
        match fold_system_message with
        | Some fold_system_message =>
            fold_system_message (text first_user_message) system_message
        | None => system_message +:+ nl +:+ nl +:+ text first_user_message
        end in
      inr (<[i := set_text first_user_message folded]> messages)
  | None => inl StopIteration_raised
  end.

End SimpleInput.

(** ** The Google adapter's message conversion ([_providers/google.py])

    [as_chat_messages] (lines 279-295) with [content_dict], [content_part],
    [prepend_system_messages] and [consective_tool_message_reducer]. A
    part is a bare string, a [Part] with a text, a function call or a
    function response, or what [chat_content_to_part] makes of an image,
    audio or video content; tool call arguments are already rendered as
    text, as in [ToolCall]. *)
Module Google.

Inductive PartType :=
| PartStr (s : string)
| PartText (text : string)
| PartFunctionCall (name : string) (args : string)
| PartFunctionResponse (name : string) (response_content : string)
| PartBlob (mime_type : string) (data : string)
| PartFile (uri : string).

Record ContentDict := mkContentDict {
  role : string;
  parts : list PartType
}.

Section Conversion.

(** [NO_CONTENT] of [_util/constants.py], the [text] property of the
    message classes, and the file upload of [chat_content_to_part]. *)
Variable NO_CONTENT : string.
Variable text : ChatMessage -> string.
Variable chat_content_to_part : Content -> PartType.

(** [s or NO_CONTENT]. *)
Definition or_NO_CONTENT (s : string) : string :=
  if PyStr.truthy s then s else NO_CONTENT.

Definition content_part (content : Content) : PartType :=
  match content with
  | ContentText text => PartStr (or_NO_CONTENT text)
  | _ => chat_content_to_part content
  end.

(** [content_dict]; a system message matches none of its branches, so the
    function falls off its end and returns [None]. The [name] of a
    [FunctionResponse] is a protobuf string field: built with
    [name=None], for a tool message without [tool_call_id], it holds the
    empty string. *)
Definition content_dict (message : ChatMessage) : option ContentDict :=
  match message with
  | ChatMessageUser content _ =>
      Some (mkContentDict "user"
              match content with
              | Str s => [PartStr (or_NO_CONTENT s)]
              | Items l => map content_part l
              end)
  | ChatMessageAssistant content tool_calls _ =>
      Some (mkContentDict "model"
              (match tool_calls with
               | Some tool_calls =>
                   map (fun tool_call =>
                          PartFunctionCall (tc_function tool_call) (tc_arguments tool_call))
                       tool_calls
               | None => []
               end
               ++ match content with
                  | Str s => [PartText (or_NO_CONTENT s)]
                  | Items l => map content_part l
                  end))
  | ChatMessageTool _ tool_call_id _ error =>
      Some (mkContentDict "function"
              [PartFunctionResponse (default "" tool_call_id)
                 match error with
                 | Some error => tce_message error
                 | None => text message
                 end])
  | ChatMessageSystem _ => None
  end.

Definition system_parts (system_messages : list ChatMessage) : list PartType :=
  map (fun message => PartText (text message)) system_messages.

(** [prepend_system_messages] changes the list it is given; here it
    returns the changed list. *)
Definition prepend_system_messages (messages : list ContentDict)
    (system_messages : list ChatMessage) : list ContentDict :=
  match messages with
  | first :: rest =>
      if String.eqb (role first) "user"
      then mkContentDict (role first) (system_parts system_messages ++ parts first) :: rest
      else mkContentDict "user" (system_parts system_messages) :: messages
  | [] => [mkContentDict "user" (system_parts system_messages)]
  end.

Definition consective_tool_message_reducer (messages : list ContentDict)
    (message : ContentDict) : list ContentDict :=
  match last messages with
  | Some prev =>
      if String.eqb (role message) "function" && String.eqb (role prev) "function"
      then <[pred (length messages) :=
               mkContentDict "function" (parts prev ++ parts message)]> messages
      else messages ++ [message]
  | None => messages ++ [message]
  end.

Definition supported_messages (messages : list ChatMessage) : list ChatMessage :=
  List.filter (fun message => negb (isinstance message TSystem)) messages.

(** [as_chat_messages]. [content_dict] is only called on the messages that
    are no system messages, where it always returns a [ContentDict]. *)
Definition as_chat_messages (messages : list ChatMessage) : list ContentDict :=
  let system_messages :=
    List.filter (fun message => isinstance message TSystem) messages in
  let chat_messages := omap content_dict (supported_messages messages) in
  foldl consective_tool_message_reducer []
        (prepend_system_messages chat_messages system_messages).

End Conversion.

(** Both entries are function responses. *)
Definition both_function (a b : ContentDict) : bool :=
  String.eqb (role a) "function" && String.eqb (role b) "function".

(** All parts of a converted conversation, in order. *)
Definition all_parts (messages : list ContentDict) : list PartType :=
  concat (map parts messages).

(** A conversation with a system message, a user turn, an assistant turn
    with a tool call and two tool results. *)
Definition example_conversation : list ChatMessage :=
  [ChatMessageSystem (Str "be brief");
   ChatMessageUser (Str "weather?") None;
   ChatMessageAssistant (Str "") (Some [mkToolCall "1" "weather" "{}"]) None;
   ChatMessageTool (Str "sunny") (Some "1") (Some "weather") None;
   ChatMessageTool (Str "") (Some "2") (Some "weather")
                   (Some (mkToolCallError "timeout" "timed out"))].

Definition example_text (message : ChatMessage) : string :=
  match content message with
  | Str s => s
  | Items _ => ""
  end.

Definition example_chat_content_to_part (content : Content) : PartType :=
  match content with
  | ContentText text => PartStr text
  | ContentImage image => PartBlob "image/png" image
  | ContentAudio audio => PartFile audio
  | ContentVideo video => PartFile video
  end.

End Google.

(** * Properties *)

Example parse_model_example :
  ModelName._parse_model "openai/gpt-4o" = (Some "openai", "gpt-4o")
  /\ ModelName._parse_model "gpt-4o" = (None, "gpt-4o")
  /\ ModelName._parse_model "a/b/c" = (Some "a", "b/c").
Proof. repeat split; reflexivity. Qed.

(** ** Strings and [ModelName] *)

Lemma append_String c s t : String c s +:+ t = String c (s +:+ t).
Proof. reflexivity. Qed.

Lemma append_Empty t : "" +:+ t = t.
Proof. reflexivity. Qed.

Lemma prefix_iff_append needle hay :
  String.prefix needle hay = true <-> exists suf, hay = needle +:+ suf.
Proof.
  revert hay; induction needle as [|c needle IH]; intros hay.
  - split; [intros _; exists hay; reflexivity | intros _; destruct hay; reflexivity].
  - destruct hay as [|d hay]; simpl.
    + split; [discriminate | intros [suf H]; discriminate].
    + destruct (Ascii.ascii_dec c d) as [->|Hne].
      * rewrite IH. split; intros [suf H]; exists suf.
        -- rewrite append_String. congruence.
        -- rewrite append_String in H. congruence.
      * split; [discriminate | intros [suf H]; rewrite append_String in H; congruence].
Qed.

Lemma contains_Empty needle :
  PyStr.contains needle "" = String.prefix needle "" || false.
Proof. reflexivity. Qed.

Lemma contains_String needle d hay :
  PyStr.contains needle (String d hay)
  = String.prefix needle (String d hay) || PyStr.contains needle hay.
Proof. reflexivity. Qed.

(** [contains] is Python's substring test. *)
Lemma contains_iff_substring needle hay :
  PyStr.contains needle hay = true
  <-> exists pre suf, hay = pre +:+ needle +:+ suf.
Proof.
  induction hay as [|d hay IH].
  - rewrite contains_Empty, orb_false_r, prefix_iff_append. split.
    + intros [suf H]. exists "", suf. exact H.
    + intros [pre [suf H]]. destruct pre; [eauto | discriminate].
  - rewrite contains_String, orb_true_iff, prefix_iff_append, IH. split.
    + intros [[suf H] | [pre [suf H]]].
      * exists "", suf. exact H.
      * exists (String d pre), suf. rewrite append_String. congruence.
    + intros [pre [suf H]]. destruct pre as [|e pre].
      * left. eauto.
      * right. exists pre, suf. rewrite append_String in H. congruence.
Qed.

(** The family of the candidate never changes the answer of [__eq__]: the
    [else] branch returns the name test on its own. *)
Lemma ModelName_eq_is_name_test self pattern :
  ModelName.__eq__ self (ModelName.PyString pattern)
  = PyStr.contains (snd (ModelName._parse_model pattern)) (ModelName.name self).
Proof.
  unfold ModelName.__eq__.
  destruct (ModelName._parse_model pattern) as [api name]; simpl.
  destruct (PyStr.contains name (ModelName.name self)).
  - destruct (match api with Some a => _ | None => _ end); reflexivity.
  - rewrite andb_false_r. reflexivity.
Qed.

(** C1: [ModelName("openai/gpt-4o")] compared with ["gpt-4o"] and with
    ["openai/gpt"] gives true, and compared with ["anthropic/gpt-4o"] it
    gives true as well (the claim expects false there): the candidate's
    family does not match, and [__eq__] falls through to the name test. *)
Theorem ModelName_eq_openai_gpt_4o :
  exists self,
    ModelName.init "openai/gpt-4o" = inr self
    /\ ModelName.__eq__ self (ModelName.PyString "gpt-4o") = true
    /\ ModelName.__eq__ self (ModelName.PyString "anthropic/gpt-4o") = true
    /\ ModelName.__eq__ self (ModelName.PyString "openai/gpt") = true.
Proof.
  exists (ModelName.mk "openai" "gpt-4o").
  repeat split; vm_compute; reflexivity.
Qed.

(** ** Reasoning history *)

Lemma inline_reasoning_no_reasoning m :
  has_reasoning m = false -> inline_reasoning m = m.
Proof. destruct m as [| | c tcs [r|] |]; simpl; congruence. Qed.

Lemma map_inline_reasoning_id messages :
  existsb has_reasoning messages = false ->
  map inline_reasoning messages = messages.
Proof.
  induction messages as [|m messages IH]; simpl; [reflexivity|].
  rewrite orb_false_iff. intros [Hm Hrest].
  rewrite inline_reasoning_no_reasoning, IH; auto.
Qed.

(** Without native support and with reasoning history on (or unset), the
    transform is the [<think>] loop body applied to every message. *)
Lemma resolve_reasoning_history_inline messages config :
  reasoning_history config <> Some false ->
  resolve_reasoning_history messages config false = map inline_reasoning messages.
Proof.
  intros Hcfg. unfold resolve_reasoning_history.
  destruct (existsb has_reasoning messages) eqn:Hany; simpl.
  - destruct (reasoning_history config) as [[|]|]; congruence.
  - symmetry. apply map_inline_reasoning_id, Hany.
Qed.

(** C7: for an adapter without native reasoning, when the config does not
    exclude reasoning history every assistant message with reasoning text
    gets that text prepended to its content as a [<think>] block (in front
    of a string, or as a first text item in front of an item list) and its
    reasoning field cleared, every other message stays as it is and the
    length of the sequence is kept; when the config excludes reasoning
    history the sequence is returned unchanged. *)
Theorem resolve_reasoning_history_without_native_support
    (messages : list ChatMessage) (config : GenerateConfig) :
  (reasoning_history config <> Some false ->
   let resolved := resolve_reasoning_history messages config false in
   length resolved = length messages
   /\ (forall i s tcs r,
         messages !! i = Some (ChatMessageAssistant (Str s) tcs (Some r)) ->
         resolved !! i
         = Some (ChatMessageAssistant
                   (Str ("<think>" +:+ nl +:+ r +:+ nl +:+ "</think>" +:+ nl +:+ nl +:+ s))
                   tcs None))
   /\ (forall i l tcs r,
         messages !! i = Some (ChatMessageAssistant (Items l) tcs (Some r)) ->
         resolved !! i
         = Some (ChatMessageAssistant
                   (Items (ContentText ("<think>" +:+ nl +:+ r +:+ nl +:+ "</think>" +:+ nl) :: l))
                   tcs None))
   /\ (forall i m,
         messages !! i = Some m -> has_reasoning m = false ->
         resolved !! i = Some m))
  /\ (reasoning_history config = Some false ->
      resolve_reasoning_history messages config false = messages).
Proof.
  split.
  - intros Hcfg resolved. subst resolved.
    rewrite resolve_reasoning_history_inline by exact Hcfg.
    split; [apply length_map|].
    repeat split; intros; rewrite list_lookup_fmap.
    + rewrite H. reflexivity.
    + rewrite H. reflexivity.
    + rewrite H. simpl. rewrite inline_reasoning_no_reasoning; auto.
  - intros Hcfg. unfold resolve_reasoning_history. rewrite Hcfg.
    destruct (existsb has_reasoning messages); reflexivity.
Qed.

Lemma resolve_reasoning_history_without_native_support_witness :
  (resolve_reasoning_history reasoning_example GenerateConfig_default false !! 1%nat
   = Some (ChatMessageAssistant
             (Str ("<think>" +:+ nl +:+ "Add two and two." +:+ nl +:+ "</think>"
                   +:+ nl +:+ nl +:+ "4")) None None))
  /\ resolve_reasoning_history reasoning_example
       (mkConfig None None None None None (Some false) None) false
     = reasoning_example.
Proof.
  split.
  - destruct (proj1 (resolve_reasoning_history_without_native_support
                       reasoning_example GenerateConfig_default))
      as (_ & Hstr & _); [simpl; discriminate|].
    apply Hstr. reflexivity.
  - apply (proj2 (resolve_reasoning_history_without_native_support
                    reasoning_example (mkConfig None None None None None (Some false) None))).
    reflexivity.
Defined.

(** ** Tool-result image extraction *)

Lemma image_content_fold l : forall user_content tool_content,
  foldl tool_result_image_content_reducer (user_content, tool_content) l
  = (user_content ++ List.filter is_image l, tool_content ++ map without_image l).
Proof.
  induction l as [|c l IH]; intros user_content tool_content; simpl.
  - rewrite !app_nil_r. reflexivity.
  - unfold without_image at 1. destruct (is_image c); simpl; rewrite IH.
    + rewrite <- !app_assoc. reflexivity.
    + rewrite <- !app_assoc. reflexivity.
Qed.

Lemma existsb_is_image_filter l :
  existsb is_image l = true <-> List.filter is_image l <> [].
Proof.
  induction l as [|c l IH]; simpl.
  - split; [discriminate | congruence].
  - destruct (is_image c); simpl; [split; [discriminate | reflexivity] | exact IH].
Qed.

(** The reducer on a tool message that carries images. *)
Lemma images_reducer_tool_with_images messages pending ids l tool_call_id function error :
  existsb is_image l = true ->
  tool_result_images_reducer (messages, pending, ids)
    (ChatMessageTool (Items l) tool_call_id function error)
  = (messages ++ [ChatMessageTool (Items (map without_image l)) tool_call_id function None],
     pending ++ List.filter is_image l,
     ids ++ (if truthy_str tool_call_id
             then match tool_call_id with Some i => [i] | None => [] end
             else [])).
Proof.
  intros Himg. unfold tool_result_images_reducer. rewrite Himg.
  rewrite image_content_fold. reflexivity.
Qed.

(** The reducer on a message that is not a tool message. *)
Lemma images_reducer_other messages pending ids message :
  isinstance message TTool = false ->
  tool_result_images_reducer (messages, pending, ids) message
  = (maybe_adding_user_message messages pending ids ++ [message], [], []).
Proof. destruct message; simpl; [reflexivity .. | discriminate]. Qed.

Lemma maybe_adding_user_message_pending messages pending ids :
  pending <> [] ->
  maybe_adding_user_message messages pending ids
  = messages ++ [ChatMessageUser (Items pending) (Some ids)].
Proof. destruct pending; [congruence | reflexivity]. Qed.

Lemma truthy_str_Some id : id <> "" -> truthy_str (Some id) = true.
Proof. destruct id; [congruence | reflexivity]. Qed.

Lemma placeholder_count l :
  length (List.filter (fun c => bool_decide (c = image_placeholder))
                      (map without_image l))
  = (length (List.filter is_image l)
     + length (List.filter (fun c => bool_decide (c = image_placeholder)) l))%nat.
Proof.
  induction l as [|c l IH]; [reflexivity|].
  cbn [map List.filter]. unfold without_image at 1.
  destruct c as [t|i|a|v]; cbn [is_image].
  2:{ rewrite bool_decide_eq_true_2 by reflexivity.
      rewrite (bool_decide_eq_false_2 (ContentImage i = image_placeholder))
        by discriminate.
      cbn [length]. rewrite IH. lia. }
  all: match goal with
       | |- context [bool_decide ?P] => destruct (bool_decide P)
       end; cbn [length]; rewrite IH; lia.
Qed.

(** C6: a tool message with three image items and a correlation id,
    followed by a message that is not a tool message, is rewritten to the
    tool message with each image replaced by the placeholder text item,
    then one synthesized user message with the three images and that one
    correlation id, then the following message. *)
Theorem tool_result_images_three_images
    (l : list Content) (id : string) (function : option string)
    (error : option ToolCallError) (next : ChatMessage) :
  length (List.filter is_image l) = 3%nat ->
  id <> "" ->
  isinstance next TTool = false ->
  tool_result_images_as_user_message
    [ChatMessageTool (Items l) (Some id) function error; next]
  = [ ChatMessageTool (Items (map without_image l)) (Some id) function None;
      ChatMessageUser (Items (List.filter is_image l)) (Some [id]);
      next ]
  /\ length (List.filter (fun c => bool_decide (c = image_placeholder))
                         (map without_image l))
     = (3 + length (List.filter (fun c => bool_decide (c = image_placeholder)) l))%nat.
Proof.
  intros Hthree Hid Hnext.
  assert (Hne : List.filter is_image l <> []).
  { intros E. rewrite E in Hthree. discriminate. }
  split.
  - unfold tool_result_images_as_user_message. cbn [foldl].
    rewrite images_reducer_tool_with_images by (apply existsb_is_image_filter, Hne).
    rewrite truthy_str_Some by exact Hid. rewrite !app_nil_l.
    rewrite images_reducer_other by exact Hnext.
    rewrite (maybe_adding_user_message_pending _ (List.filter is_image l))
      by exact Hne.
    reflexivity.
  - rewrite <- Hthree. apply placeholder_count.
Qed.

Lemma tool_result_images_three_images_witness :
  tool_result_images_as_user_message
    [ChatMessageTool (Items three_images_example) (Some "call_1") (Some "shot") None;
     ChatMessageAssistant (Str "ok") None None]
  = [ ChatMessageTool
        (Items [image_placeholder; ContentText "see"; image_placeholder; image_placeholder])
        (Some "call_1") (Some "shot") None;
      ChatMessageUser
        (Items [ContentImage "a.png"; ContentImage "b.png"; ContentImage "c.png"])
        (Some ["call_1"]);
      ChatMessageAssistant (Str "ok") None None ].
Proof.
  apply (proj1 (tool_result_images_three_images three_images_example "call_1"
                  (Some "shot") None (ChatMessageAssistant (Str "ok") None None)
                  eq_refl ltac:(discriminate) eq_refl)).
Defined.

(** C10: a tool message with images and no correlation id has its images
    moved to the pending user content and adds nothing to the pending ids;
    so after a tool message with an id and one without, both with images,
    the synthesized user message holds the images of both tool messages
    and a single id. *)
Theorem tool_result_images_absent_tool_call_id
    (messages : list ChatMessage) (pending : list Content) (ids : list string)
    (l l1 l2 : list Content) (id : string) (fn fn1 fn2 : option string)
    (err err1 err2 : option ToolCallError) (next : ChatMessage) :
  existsb is_image l = true ->
  existsb is_image l1 = true ->
  existsb is_image l2 = true ->
  id <> "" ->
  isinstance next TTool = false ->
  tool_result_images_reducer (messages, pending, ids)
    (ChatMessageTool (Items l) None fn err)
  = (messages ++ [ChatMessageTool (Items (map without_image l)) None fn None],
     pending ++ List.filter is_image l,
     ids)
  /\ tool_result_images_as_user_message
       [ChatMessageTool (Items l1) (Some id) fn1 err1;
        ChatMessageTool (Items l2) None fn2 err2;
        next]
     = [ ChatMessageTool (Items (map without_image l1)) (Some id) fn1 None;
         ChatMessageTool (Items (map without_image l2)) None fn2 None;
         ChatMessageUser (Items (List.filter is_image l1 ++ List.filter is_image l2))
                         (Some [id]);
         next ].
Proof.
  intros Hl Hl1 Hl2 Hid Hnext. split.
  - rewrite images_reducer_tool_with_images by exact Hl.
    cbn [truthy_str]. rewrite app_nil_r. reflexivity.
  - unfold tool_result_images_as_user_message. cbn [foldl].
    rewrite images_reducer_tool_with_images by exact Hl1.
    rewrite truthy_str_Some by exact Hid. rewrite !app_nil_l.
    rewrite images_reducer_tool_with_images by exact Hl2.
    cbn [truthy_str]. rewrite app_nil_r.
    rewrite images_reducer_other by exact Hnext.
    rewrite (maybe_adding_user_message_pending _
               (List.filter is_image l1 ++ List.filter is_image l2)).
    + reflexivity.
    + apply existsb_is_image_filter in Hl1.
      destruct (List.filter is_image l1); [congruence | discriminate].
Qed.

Lemma tool_result_images_absent_tool_call_id_witness :
  tool_result_images_as_user_message
    [ChatMessageTool (Items [ContentImage "a.png"]) (Some "call_1") (Some "shot") None;
     ChatMessageTool (Items [ContentText "second"; ContentImage "b.png"]) None
                     (Some "shot") None;
     ChatMessageUser (Str "go on") None]
  = [ ChatMessageTool (Items [image_placeholder]) (Some "call_1") (Some "shot") None;
      ChatMessageTool (Items [ContentText "second"; image_placeholder]) None
                      (Some "shot") None;
      ChatMessageUser (Items [ContentImage "a.png"; ContentImage "b.png"])
                      (Some ["call_1"]);
      ChatMessageUser (Str "go on") None ].
Proof.
  apply (proj2 (tool_result_images_absent_tool_call_id
                  [] [] [] [ContentImage "a.png"] [ContentImage "a.png"]
                  [ContentText "second"; ContentImage "b.png"] "call_1"
                  None (Some "shot") (Some "shot") None None None
                  (ChatMessageUser (Str "go on") None)
                  eq_refl eq_refl eq_refl ltac:(discriminate) eq_refl)).
Defined.

(** ** Collapsing consecutive messages *)

Section Collapse.

Variable message_type : MessageType.

(** The reducer on an accumulator that ends in [prev]. *)
Lemma consecutive_message_reducer_snoc l prev message :
  consecutive_message_reducer (l ++ [prev]) message message_type
  = if isinstance message message_type && isinstance prev message_type
    then l ++ [combine_messages prev message message_type]
    else l ++ [prev; message].
Proof.
  unfold consecutive_message_reducer. rewrite last_snoc.
  destruct (isinstance message message_type && isinstance prev message_type).
  - rewrite length_app. cbn [length].
    replace (pred (length l + 1)) with (length l + 0)%nat by lia.
    rewrite insert_app_r. reflexivity.
  - rewrite <- app_assoc. reflexivity.
Qed.

Lemma consecutive_message_reducer_rev acc message :
  consecutive_message_reducer (rev acc) message message_type
  = rev (step_reversed message_type acc message).
Proof.
  destruct acc as [|prev rest]; [reflexivity|].
  cbn [rev step_reversed]. rewrite consecutive_message_reducer_snoc.
  destruct (isinstance message message_type && isinstance prev message_type).
  - reflexivity.
  - cbn [rev]. rewrite <- app_assoc. reflexivity.
Qed.

Lemma foldl_reducer_rev messages : forall acc,
  foldl (fun acc m => consecutive_message_reducer acc m message_type)
        (rev acc) messages
  = rev (foldl (step_reversed message_type) acc messages).
Proof.
  induction messages as [|m messages IH]; intros acc; cbn [foldl].
  - reflexivity.
  - rewrite consecutive_message_reducer_rev. apply IH.
Qed.

Lemma isinstance_construct c :
  isinstance (construct message_type c) message_type = true.
Proof. destruct message_type; reflexivity. Qed.

Lemma isinstance_combine_messages a b :
  isinstance (combine_messages a b message_type) message_type = true.
Proof.
  unfold combine_messages.
  destruct (content a), (content b); apply isinstance_construct.
Qed.

Lemma separated_step acc message :
  separated message_type acc = true ->
  separated message_type (step_reversed message_type acc message) = true.
Proof.
  destruct acc as [|prev rest]; [reflexivity|]. intros Hsep.
  cbn [step_reversed].
  destruct (isinstance message message_type && isinstance prev message_type) eqn:Hboth.
  - apply andb_true_iff in Hboth as [_ Hprev].
    cbn [separated] in *. rewrite isinstance_combine_messages.
    rewrite Hprev in Hsep. exact Hsep.
  - cbn [separated] in *. rewrite Hboth. exact Hsep.
Qed.

Lemma separated_foldl messages : forall acc,
  separated message_type acc = true ->
  separated message_type (foldl (step_reversed message_type) acc messages) = true.
Proof.
  induction messages as [|m messages IH]; intros acc Hsep; cbn [foldl]; auto.
  apply IH, separated_step, Hsep.
Qed.

Lemma separated_app_r l1 l2 :
  separated message_type (l1 ++ l2) = true -> separated message_type l2 = true.
Proof.
  induction l1 as [|a l1 IH]; [auto|]. cbn [app separated].
  intros H. apply andb_true_iff in H as [_ H]. auto.
Qed.

(** On a separated sequence the fold only pushes. *)
Lemma foldl_step_reversed_separated messages : forall acc,
  separated message_type (rev messages ++ acc) = true ->
  foldl (step_reversed message_type) acc messages = rev messages ++ acc.
Proof.
  induction messages as [|m messages IH]; intros acc Hsep; cbn [foldl rev].
  - reflexivity.
  - cbn [rev] in Hsep. rewrite <- app_assoc in Hsep. cbn [app] in Hsep.
    rewrite <- app_assoc. cbn [app].
    assert (Hstep : step_reversed message_type acc m = m :: acc).
    { apply separated_app_r in Hsep. destruct acc as [|prev rest]; [reflexivity|].
      cbn [separated] in Hsep. apply andb_true_iff in Hsep as [Hhead _].
      apply negb_true_iff in Hhead.
      cbn [step_reversed]. rewrite Hhead. reflexivity. }
    rewrite Hstep. apply IH, Hsep.
Qed.

Lemma collapse_reversed messages :
  collapse message_type messages = rev (foldl (step_reversed message_type) [] messages).
Proof. exact (foldl_reducer_rev messages []). Qed.

Lemma collapse_separated messages :
  separated message_type (rev (collapse message_type messages)) = true.
Proof.
  rewrite collapse_reversed, rev_involutive.
  apply separated_foldl. reflexivity.
Qed.

Lemma collapse_idempotent messages :
  collapse message_type (collapse message_type messages) = collapse message_type messages.
Proof.
  rewrite (collapse_reversed (collapse message_type messages)).
  rewrite foldl_step_reversed_separated.
  - rewrite app_nil_r. apply rev_involutive.
  - rewrite app_nil_r. apply collapse_separated.
Qed.

End Collapse.

Example collapse_user_run :
  collapse_consecutive_user_messages
    [ChatMessageUser (Str "a") None; ChatMessageUser (Str "b") (Some ["id"]);
     ChatMessageUser (Str "c") None; ChatMessageAssistant (Str "d") None None;
     ChatMessageUser (Str "e") None]
  = [ChatMessageUser (Str ("a" +:+ nl +:+ "b" +:+ nl +:+ "c")) None;
     ChatMessageAssistant (Str "d") None None;
     ChatMessageUser (Str "e") None].
Proof. reflexivity. Qed.

(** C8: collapsing consecutive messages twice gives what collapsing once
    gives, for user messages and for assistant messages, on every message
    sequence (so in particular on a sequence of same-role text messages). *)
Theorem collapse_consecutive_messages_idempotent (messages : list ChatMessage) :
  collapse_consecutive_user_messages (collapse_consecutive_user_messages messages)
  = collapse_consecutive_user_messages messages
  /\ collapse_consecutive_assistant_messages
       (collapse_consecutive_assistant_messages messages)
     = collapse_consecutive_assistant_messages messages.
Proof.
  split.
  - exact (collapse_idempotent TUser messages).
  - exact (collapse_idempotent TAssistant messages).
Qed.

(** C9: when the accumulator ends in an assistant message and the next
    message is an assistant message too, the two are replaced by one
    assistant message that has the concatenated content and neither tool
    calls nor reasoning, whatever tool calls and reasoning the two carried;
    in particular this is the result of collapsing a pair of assistant
    messages. *)
Theorem collapse_assistant_messages_keeps_content_only
    (acc : list ChatMessage) (content_a content_b : MessageContent)
    (tool_calls_a tool_calls_b : option (list ToolCall))
    (reasoning_a reasoning_b : option string) :
  assistant_message_reducer
    (acc ++ [ChatMessageAssistant content_a tool_calls_a reasoning_a])
    (ChatMessageAssistant content_b tool_calls_b reasoning_b)
  = acc ++ [ChatMessageAssistant (concatenated_content content_a content_b) None None]
  /\ collapse_consecutive_assistant_messages
       [ChatMessageAssistant content_a tool_calls_a reasoning_a;
        ChatMessageAssistant content_b tool_calls_b reasoning_b]
     = [ChatMessageAssistant (concatenated_content content_a content_b) None None].
Proof.
  assert (Hcombine :
    combine_messages (ChatMessageAssistant content_a tool_calls_a reasoning_a)
                     (ChatMessageAssistant content_b tool_calls_b reasoning_b)
                     TAssistant
    = ChatMessageAssistant (concatenated_content content_a content_b) None None).
  { destruct content_a, content_b; reflexivity. }
  assert (Hstep : forall acc,
    assistant_message_reducer
      (acc ++ [ChatMessageAssistant content_a tool_calls_a reasoning_a])
      (ChatMessageAssistant content_b tool_calls_b reasoning_b)
    = acc ++ [ChatMessageAssistant (concatenated_content content_a content_b) None None]).
  { intros acc'. unfold assistant_message_reducer.
    rewrite consecutive_message_reducer_snoc. cbn [isinstance andb].
    rewrite Hcombine. reflexivity. }
  split.
  - apply Hstep.
  - exact (Hstep []).
Qed.

(** ** Usage ledger and sample limits *)

Lemma map_fold_total_tokens_insert (d : gmap string ModelUsage) model usage' :
  map_fold (fun _ usage acc => total_tokens usage + acc) 0 (<[model := usage']> d)
  = map_fold (fun _ usage acc => total_tokens usage + acc) 0 d
    - total_tokens (default ModelUsage_default (d !! model))
    + total_tokens usage'.
Proof.
  destruct (d !! model) as [old|] eqn:Hold.
  - rewrite <- (insert_delete_eq d model usage').
    rewrite <- (insert_delete_id d model old Hold) at 2.
    rewrite (map_fold_insert_L _ _ model usage')
      by (intros; lia || apply lookup_delete_eq).
    rewrite (map_fold_insert_L _ _ model old)
      by (intros; lia || apply lookup_delete_eq).
    cbn. lia.
  - rewrite map_fold_insert_L by (intros; lia || exact Hold). cbn. lia.
Qed.

(** [record_model_usage] always ends in the state [recorded]: the usage is
    in the ledgers whether or not the limit error is raised. *)
Lemma record_model_usage_recorded model usage w :
  record_model_usage model usage w
  = Some (match active_sample_token_limit w with
          | Some token_limit =>
              if sample_total_tokens (ledgers_updated model usage w) >? token_limit
              then inl (SampleLimitExceededError "token"
                          (sample_total_tokens (ledgers_updated model usage w))
                          token_limit)
              else inr tt
          | None => inr tt
          end,
          recorded model usage w).
Proof.
  unfold record_model_usage. run_monad. fold (ledgers_updated model usage w).
  fold (recorded model usage w).
  change (active_sample_token_limit (recorded model usage w))
    with (active_sample_token_limit w).
  destruct (active_sample_token_limit w) as [limit|]; [|reflexivity].
  destruct (sample_total_tokens (ledgers_updated model usage w) >? limit); reflexivity.
Qed.

(** Recording a usage raises the sample total by its total tokens. *)
Lemma sample_total_tokens_ledgers_updated model usage w d :
  sample_model_usage_context_var w = Some d ->
  sample_total_tokens (ledgers_updated model usage w)
  = sample_total_tokens w + total_tokens usage.
Proof.
  intros Hd. unfold sample_total_tokens, sample_model_usage, ledgers_updated.
  rewrite Hd.
  cbn [with_usage set_model_usage sample_model_usage_context_var default
       from_option id].
  rewrite map_fold_total_tokens_insert. cbn [total_tokens]. lia.
Qed.

Lemma sample_total_tokens_recorded model usage w d :
  sample_model_usage_context_var w = Some d ->
  sample_total_tokens (recorded model usage w)
  = sample_total_tokens w + total_tokens usage.
Proof. intros Hd. exact (sample_total_tokens_ledgers_updated model usage w d Hd). Qed.

Lemma recorded_initialised model usage w d :
  sample_model_usage_context_var w = Some d ->
  exists d', sample_model_usage_context_var (recorded model usage w) = Some d'.
Proof.
  intros Hd. unfold recorded, ledgers_updated. rewrite Hd.
  cbn [set_model_usage set_active_sample_total_tokens with_usage
       sample_model_usage_context_var]. eauto.
Qed.

(** ** The generate unit *)

(** With no cache hit and the model API enabled, an attempt calls the
    adapter, counts the call, and goes on by what the adapter did. *)
Lemma generate_unit_calls_adapter self input tools tool_choice config cache w :
  cache_unused cache w ->
  INSPECT_DISABLE_MODEL_API w = false ->
  generate_unit self input tools tool_choice config cache w
  = match api_generate (Model_api self) (api_calls w) input tools tool_choice config with
    | Raises ex => Some (inl ex, count_api_call w)
    | Returns (inr ex) call =>
        Some (inl (RuntimeError ex (match call with Some c => request c | None => "" end)),
              count_api_call w)
    | Returns (inl output) _ =>
        after_call self input tools tool_choice config cache output (count_api_call w)
    end.
Proof.
  intros Hcache Hapi.
  assert (Hmiss : forall e, (if cache_truthy cache then cache_fetch e w else None) = None).
  { intros e. destruct Hcache as [-> | Hempty]; [reflexivity|].
    unfold cache_fetch. rewrite Hempty. destruct (cache_truthy cache); reflexivity. }
  unfold generate_unit, verify_model_apis, after_call. run_monad.
  rewrite Hmiss. cbv beta. rewrite Hapi. cbn [andb]. cbv beta iota.
  destruct (api_generate (Model_api self) (api_calls w) input tools tool_choice config)
    as [ex | [output | ex] call]; reflexivity.
Qed.

(** A cache hit returns the stored output and leaves the adapter alone. *)
Lemma generate_unit_cache_hit self input tools tool_choice config cache w existing :
  cache_truthy cache = true ->
  cache_fetch
    (mkCacheEntry (base_url (Model_api self)) config input (Model_str self)
       (match cache with CacheWith p => p | CacheBool _ => CachePolicy_default end)
       tool_choice tools) w = Some existing ->
  generate_unit self input tools tool_choice config cache w = Some (inr existing, w).
Proof.
  intros Hcache Hhit. unfold generate_unit. run_monad.
  rewrite Hcache, Hhit. reflexivity.
Qed.

(** C4: with a token limit of 100 and a sample ledger that holds no tokens
    yet, recording a first usage of 60 total tokens succeeds and recording
    a second one raises the limit error with value 120 and limit 100, the
    second usage being in the ledger by then; and two attempts whose
    adapter calls return outputs of 60 total tokens each behave the same
    way: the first returns its output, the second raises only after the
    adapter has been called a second time. *)
Theorem token_limit_detected_after_second_call
    (w : World) (d : gmap string ModelUsage) (model1 model2 : string)
    (usage1 usage2 : ModelUsage)
    (self : Model) (input : list ChatMessage) (tools : list ToolInfo)
    (tool_choice : ToolChoice) (config : GenerateConfig)
    (output1 output2 : ModelOutput) (call1 call2 : option ModelCall) :
  sample_model_usage_context_var w = Some d ->
  sample_total_tokens w = 0 ->
  active_sample_token_limit w = Some 100 ->
  total_tokens usage1 = 60 ->
  total_tokens usage2 = 60 ->
  INSPECT_DISABLE_MODEL_API w = false ->
  api_generate (Model_api self) (api_calls w) input tools tool_choice config
  = Returns (inl output1) call1 ->
  api_generate (Model_api self) (S (api_calls w)) input tools tool_choice config
  = Returns (inl output2) call2 ->
  usage output1 = Some usage1 ->
  usage output2 = Some usage2 ->
  (exists w1 w2,
     record_model_usage model1 usage1 w = Some (inr tt, w1)
     /\ record_model_usage model2 usage2 w1
        = Some (inl (SampleLimitExceededError "token" 120 100), w2)
     /\ sample_total_tokens w2 = 120
     /\ active_sample_total_tokens w2 = 120)
  /\ (exists w1 w2,
        generate_unit self input tools tool_choice config (CacheBool false) w
        = Some (inr output1, w1)
        /\ api_calls w1 = S (api_calls w)
        /\ generate_unit self input tools tool_choice config (CacheBool false) w1
           = Some (inl (SampleLimitExceededError "token" 120 100), w2)
        /\ api_calls w2 = S (S (api_calls w))
        /\ sample_total_tokens w2 = 120).
Proof.
  intros Hledger Hzero Hlimit Hu1 Hu2 Hapi Hcall1 Hcall2 Hout1 Hout2.
  assert (Hrecord : forall m1 m2 w0 d0,
    sample_model_usage_context_var w0 = Some d0 ->
    sample_total_tokens w0 = 0 ->
    active_sample_token_limit w0 = Some 100 ->
    record_model_usage m1 usage1 w0 = Some (inr tt, recorded m1 usage1 w0)
    /\ record_model_usage m2 usage2 (recorded m1 usage1 w0)
       = Some (inl (SampleLimitExceededError "token" 120 100),
               recorded m2 usage2 (recorded m1 usage1 w0))
    /\ sample_total_tokens (recorded m2 usage2 (recorded m1 usage1 w0)) = 120).
  { intros m1 m2 w0 d0 Hd0 Hz0 Hlim0.
    destruct (recorded_initialised m1 usage1 w0 d0 Hd0) as [d1 Hd1].
    assert (Ht1 : sample_total_tokens (recorded m1 usage1 w0) = 60).
    { rewrite (sample_total_tokens_recorded m1 usage1 w0 d0 Hd0). lia. }
    assert (Ht2 : sample_total_tokens (recorded m2 usage2 (recorded m1 usage1 w0)) = 120).
    { rewrite (sample_total_tokens_recorded m2 usage2 _ d1 Hd1). lia. }
    repeat split.
    - rewrite record_model_usage_recorded, Hlim0.
      rewrite (sample_total_tokens_ledgers_updated m1 usage1 w0 d0 Hd0), Hz0, Hu1.
      reflexivity.
    - rewrite record_model_usage_recorded.
      change (active_sample_token_limit (recorded m1 usage1 w0))
        with (active_sample_token_limit w0).
      rewrite Hlim0.
      rewrite (sample_total_tokens_ledgers_updated m2 usage2 _ d1 Hd1), Ht1, Hu2.
      reflexivity.
    - exact Ht2. }
  split.
  - destruct (Hrecord model1 model2 w d Hledger Hzero Hlimit) as (H1 & H2 & H3).
    exists (recorded model1 usage1 w), (recorded model2 usage2 (recorded model1 usage1 w)).
    repeat split; assumption.
  - destruct (Hrecord (Model_str self) (Model_str self) (count_api_call w) d
                Hledger Hzero Hlimit) as (H1 & H2 & H3).
    set (w1 := recorded (Model_str self) usage1 (count_api_call w)) in *.
    set (w2 := recorded (Model_str self) usage2 (count_api_call w1)).
    assert (Hunused : forall w', cache_unused (CacheBool false) w').
    { intros w'. left. reflexivity. }
    exists w1, w2. split; [|split; [reflexivity|]].
    + rewrite (generate_unit_calls_adapter _ _ _ _ _ _ w (Hunused w) Hapi), Hcall1.
      unfold after_call. run_monad. rewrite Hout1, H1. reflexivity.
    + assert (Hd1 : exists d1, sample_model_usage_context_var (count_api_call w1) = Some d1).
      { exact (recorded_initialised (Model_str self) usage1 (count_api_call w) d Hledger). }
      destruct Hd1 as [d1 Hd1].
      assert (Ht1 : sample_total_tokens (count_api_call w1) = 60).
      { change (sample_total_tokens w1 = 60). unfold w1.
        rewrite (sample_total_tokens_recorded _ usage1 (count_api_call w) d Hledger).
        change (sample_total_tokens (count_api_call w)) with (sample_total_tokens w).
        lia. }
      assert (Ht2 : sample_total_tokens w2 = 120).
      { unfold w2. rewrite (sample_total_tokens_recorded _ usage2 _ d1 Hd1). lia. }
      split; [|split; [reflexivity | exact Ht2]].
      rewrite (generate_unit_calls_adapter _ _ _ _ _ _ w1 (Hunused w1) Hapi).
      change (api_calls w1) with (S (api_calls w)). rewrite Hcall2.
      unfold after_call. run_monad. rewrite Hout2.
      rewrite record_model_usage_recorded.
      change (active_sample_token_limit (count_api_call w1))
        with (active_sample_token_limit w).
      rewrite Hlimit.
      rewrite (sample_total_tokens_ledgers_updated _ usage2 _ d1 Hd1), Ht1, Hu2.
      reflexivity.
Qed.

Lemma token_limit_detected_after_second_call_witness :
  (exists w1 w2,
     record_model_usage "mockllm/model" example_usage example_world = Some (inr tt, w1)
     /\ record_model_usage "mockllm/model" example_usage w1
        = Some (inl (SampleLimitExceededError "token" 120 100), w2)
     /\ sample_total_tokens w2 = 120
     /\ active_sample_total_tokens w2 = 120)
  /\ (exists w1 w2,
        generate_unit example_model [] [] choice_none GenerateConfig_default
          (CacheBool false) example_world
        = Some (inr example_output, w1)
        /\ api_calls w1 = S (api_calls example_world)
        /\ generate_unit example_model [] [] choice_none GenerateConfig_default
             (CacheBool false) w1
           = Some (inl (SampleLimitExceededError "token" 120 100), w2)
        /\ api_calls w2 = S (S (api_calls example_world))
        /\ sample_total_tokens w2 = 120).
Proof.
  apply (token_limit_detected_after_second_call example_world ∅
           "mockllm/model" "mockllm/model" example_usage example_usage
           example_model [] [] choice_none GenerateConfig_default
           example_output example_output None None);
    reflexivity.
Defined.

(** ** The retry loop *)

Lemma after_call_no_token_limit self input tools tool_choice config cache output w :
  active_sample_token_limit w = None ->
  exists w',
    after_call self input tools tool_choice config cache output w = Some (inr output, w')
    /\ api_calls w' = api_calls w
    /\ active_sample_total_messages w' = active_sample_total_messages w.
Proof.
  intros Hlimit. unfold after_call. run_monad.
  destruct (usage output) as [u|].
  - rewrite record_model_usage_recorded, Hlimit.
    destruct (cache_truthy cache); eexists; repeat split; reflexivity.
  - destruct (cache_truthy cache); eexists; repeat split; reflexivity.
Qed.

Section RetryLoop.

Variable seconds_since_start : nat -> Q.

Section Loop.

Context {A : Type}.
Variable stop : StopCondition.
Variable retry : PyException -> bool.
Variable fn : M A.

(** After [k] retried attempts the loop is at attempt [n + k]. *)
Lemma retrying_retried k n w w' :
  retried seconds_since_start stop retry fn k n w w' ->
  forall fuel,
    retrying seconds_since_start stop retry fn (k + fuel) n w
    = retrying seconds_since_start stop retry fn fuel (n + k) w'.
Proof.
  induction 1 as [n w | k n w ex w' w'' Hfn Hretry Hstop Hrest IH]; intros fuel.
  - rewrite Nat.add_0_r. reflexivity.
  - cbn [Nat.add retrying]. rewrite Hfn, Hretry, Hstop, IH.
    f_equal. lia.
Qed.

(** An attempt that returns ends the loop with its value. *)
Lemma retrying_returns fuel n w a w' :
  fn w = Some (inr a, w') ->
  retrying seconds_since_start stop retry fn (S fuel) n w = Some (inr a, w').
Proof. intros Hfn. cbn [retrying]. rewrite Hfn. reflexivity. Qed.

(** An exception the retry predicate rejects ends the loop as it is. *)
Lemma retrying_not_retryable fuel n w ex w' :
  fn w = Some (inl ex, w') ->
  retry ex = false ->
  retrying seconds_since_start stop retry fn (S fuel) n w = Some (inl ex, w').
Proof. intros Hfn Hretry. cbn [retrying]. rewrite Hfn, Hretry. reflexivity. Qed.

(** A retryable exception met when the stop condition fires ends the loop
    with the [RetryError] around it. *)
Lemma retrying_stopped fuel n w ex w' :
  fn w = Some (inl ex, w') ->
  retry ex = true ->
  stop_fires seconds_since_start stop n = true ->
  retrying seconds_since_start stop retry fn (S fuel) n w
  = Some (inl (RetryError ex), w').
Proof.
  intros Hfn Hretry Hstop. cbn [retrying]. rewrite Hfn, Hretry, Hstop. reflexivity.
Qed.

(** Whatever exception leaves the loop is either one the retry predicate
    rejects, as the attempt raised it, or the [RetryError] around one the
    predicate accepts. *)
Lemma retrying_raises_classified fuel : forall n w e w',
  retrying seconds_since_start stop retry fn fuel n w = Some (inl e, w') ->
  retry e = false
  \/ exists last_attempt, e = RetryError last_attempt /\ retry last_attempt = true.
Proof.
  induction fuel as [|fuel IH]; intros n w e w' Hloop; [discriminate|].
  cbn [retrying] in Hloop.
  destruct (fn w) as [[[ex | a] w1]|]; try discriminate.
  destruct (retry ex) eqn:Hretry.
  - destruct (stop_fires seconds_since_start stop n).
    + injection Hloop as <- <-. right. exists ex. split; [reflexivity | exact Hretry].
    + exact (IH _ _ _ _ Hloop).
  - injection Hloop as <- <-. left. exact Hretry.
Qed.

End Loop.

(** After [k] retried attempts of the generate unit, an exception that the
    retry predicate rejects ends the loop as it is. *)
Lemma retrying_rejected_after_retried
    (self : Model) (input : list ChatMessage) (tools : list ToolInfo)
    (tool_choice : ToolChoice) (config : GenerateConfig) (cache : CacheArg)
    (k fuel : nat) (w w' w'' : World) (ex : PyException) :
  retried seconds_since_start (retry_stop config) (is_rate_limit (Model_api self))
          (generate_unit self input tools tool_choice config cache) k 1 w w' ->
  generate_unit self input tools tool_choice config cache w' = Some (inl ex, w'') ->
  is_rate_limit (Model_api self) ex = false ->
  (k < fuel)%nat ->
  retrying seconds_since_start (retry_stop config) (is_rate_limit (Model_api self))
           (generate_unit self input tools tool_choice config cache) fuel 1 w
  = Some (inl ex, w'').
Proof.
  intros Hretried Hfn Hreject Hfuel.
  replace fuel with (k + S (fuel - S k))%nat by lia.
  rewrite (retrying_retried _ _ _ _ _ _ _ Hretried).
  apply retrying_not_retryable; assumption.
Qed.

End RetryLoop.

Lemma api_calls_after_calls k : forall w,
  api_calls (after_calls k w) = (api_calls w + k)%nat.
Proof.
  induction k as [|k IH]; intros w; cbn [after_calls].
  - lia.
  - rewrite IH. cbn [count_api_call api_calls]. lia.
Qed.

Lemma after_calls_frame k : forall w,
  cache_store_contents (after_calls k w) = cache_store_contents w
  /\ INSPECT_DISABLE_MODEL_API (after_calls k w) = INSPECT_DISABLE_MODEL_API w
  /\ active_sample_token_limit (after_calls k w) = active_sample_token_limit w.
Proof.
  induction k as [|k IH]; intros w; cbn [after_calls]; [auto|].
  destruct (IH (count_api_call w)) as (H1 & H2 & H3). auto.
Qed.

Lemma cache_unused_after_calls cache k w :
  cache_unused cache w -> cache_unused cache (after_calls k w).
Proof.
  intros [H | H]; [left; exact H | right].
  destruct (after_calls_frame k w) as (-> & _). exact H.
Qed.

(** The stop condition when only [max_retries] is set. *)
Lemma retry_stop_max_retries config n :
  truthy_int (timeout config) = false ->
  max_retries config = Some n ->
  n <> 0 ->
  retry_stop config = stop_after_attempt n.
Proof.
  intros Htimeout Hretries Hn. unfold retry_stop.
  rewrite Htimeout, Hretries. cbn [andb truthy_int default from_option id].
  destruct (Z.eqb_spec n 0); [contradiction | reflexivity].
Qed.

(** The stop condition when neither bound is set (or set to 0). *)
Lemma retry_stop_unbounded config :
  truthy_int (timeout config) = false ->
  truthy_int (max_retries config) = false ->
  retry_stop config = stop_never.
Proof. intros Ht Hr. unfold retry_stop. rewrite Ht, Hr. reflexivity. Qed.

Section RetryBound.

Variable seconds_since_start : nat -> Q.

Variable self : Model.
Variable input : list ChatMessage.
Variable tools : list ToolInfo.
Variable tool_choice : ToolChoice.
Variable config : GenerateConfig.
Variable cache : CacheArg.

(** [errors c] is what the adapter raises at its call number [c]. *)
Variable errors : nat -> PyException.

Lemma retried_while_rate_limited k : forall n w,
  cache_unused cache w ->
  INSPECT_DISABLE_MODEL_API w = false ->
  (forall j, (j < k)%nat ->
     api_generate (Model_api self) (api_calls w + j) input tools tool_choice config
     = Raises (errors (api_calls w + j))) ->
  (forall j, (j < k)%nat ->
     is_rate_limit (Model_api self) (errors (api_calls w + j)) = true) ->
  (forall j, (j < k)%nat ->
     stop_fires seconds_since_start (retry_stop config) (n + j) = false) ->
  retried seconds_since_start (retry_stop config) (is_rate_limit (Model_api self))
          (generate_unit self input tools tool_choice config cache)
          k n w (after_calls k w).
Proof.
  induction k as [|k IH]; intros n w Hcache Hapi Hraise Hlimit Hstop.
  - apply retried_O.
  - cbn [after_calls].
    apply (retried_S _ _ _ _ _ _ _ (errors (api_calls w)) (count_api_call w)).
    + rewrite (generate_unit_calls_adapter _ _ _ _ _ _ w Hcache Hapi).
      specialize (Hraise 0%nat ltac:(lia)). rewrite Nat.add_0_r in Hraise.
      rewrite Hraise. reflexivity.
    + specialize (Hlimit 0%nat ltac:(lia)). rewrite Nat.add_0_r in Hlimit. exact Hlimit.
    + specialize (Hstop 0%nat ltac:(lia)). rewrite Nat.add_0_r in Hstop. exact Hstop.
    + apply IH.
      * destruct Hcache as [H | H]; [left | right]; assumption.
      * exact Hapi.
      * intros j Hj. cbn [count_api_call api_calls].
        replace (S (api_calls w) + j)%nat with (api_calls w + S j)%nat by lia.
        apply Hraise. lia.
      * intros j Hj. cbn [count_api_call api_calls].
        replace (S (api_calls w) + j)%nat with (api_calls w + S j)%nat by lia.
        apply Hlimit. lia.
      * intros j Hj. replace (S n + j)%nat with (n + S j)%nat by lia.
        apply Hstop. lia.
Qed.

End RetryBound.

Section RetryPredicate.

Variable seconds_since_start : nat -> Q.

(** C3: [_generate] retries an error only if the adapter's [is_rate_limit]
    accepts it. When the adapter raises at its next [k] calls errors that
    [is_rate_limit] accepts (the stop condition not firing) and raises at
    the call after them an error [ex] that [is_rate_limit] rejects (no
    cache hit, the model API enabled), [_generate] ends at that first
    occurrence: [ex] reaches the caller as it was raised, after exactly
    [k + 1] adapter calls, with enough fuel for [k + 1] attempts. And
    whatever raises inside the unit, for every input, tools, cache and
    state: an error that leaves [_generate] is either one that
    [is_rate_limit] rejects, or the [RetryError] with which the stop
    condition ends the retries of one that [is_rate_limit] accepts. *)
Theorem retry_only_rate_limit_errors
    (k fuel : nat) (self : Model) (input : list ChatMessage) (tools : list ToolArg)
    (tool_choice : option ToolChoice) (config : GenerateConfig) (cache : CacheArg)
    (w : World) (errors : nat -> PyException) (ex : PyException) :
  cache_unused cache w ->
  INSPECT_DISABLE_MODEL_API w = false ->
  (forall j inp tls tc, (j < k)%nat ->
     api_generate (Model_api self) (api_calls w + j) inp tls tc config
     = Raises (errors j)) ->
  (forall j, (j < k)%nat -> is_rate_limit (Model_api self) (errors j) = true) ->
  (forall j, (j < k)%nat ->
     stop_fires seconds_since_start (retry_stop config) (1 + j) = false) ->
  (forall inp tls tc,
     api_generate (Model_api self) (api_calls w + k) inp tls tc config = Raises ex) ->
  is_rate_limit (Model_api self) ex = false ->
  (k < fuel)%nat ->
  _generate seconds_since_start fuel self input tools tool_choice config cache w
  = Some (inl ex, count_api_call (after_calls k w))
  /\ forall fuel' input' tools' tool_choice' config' cache' w0 e w1,
       _generate seconds_since_start fuel' self input' tools' tool_choice' config'
                 cache' w0
       = Some (inl e, w1) ->
       is_rate_limit (Model_api self) e = false
       \/ exists last_attempt,
            e = RetryError last_attempt
            /\ is_rate_limit (Model_api self) last_attempt = true.
Proof.
  intros Hcache Hapi Hraise Hrate Hstop Hfinal Hreject Hfuel. split.
  - unfold _generate. cbv zeta.
    set (errors' := fun c => errors (c - api_calls w)%nat).
    assert (Herr : forall j, errors' (api_calls w + j)%nat = errors j).
    { intros j. unfold errors'. f_equal. lia. }
    destruct (after_calls_frame k w) as (_ & Hapi' & _).
    apply retrying_rejected_after_retried
      with (k := k) (w' := after_calls k w); [| |exact Hreject|exact Hfuel].
    + apply (retried_while_rate_limited seconds_since_start self _ _ _ config cache
               errors'); try assumption.
      * intros j Hj. rewrite Herr. apply Hraise, Hj.
      * intros j Hj. rewrite Herr. apply Hrate, Hj.
    + rewrite (generate_unit_calls_adapter _ _ _ _ _ _ _
                 (cache_unused_after_calls cache k w Hcache))
        by (rewrite Hapi'; exact Hapi).
      rewrite api_calls_after_calls, Hfinal. reflexivity.
  - intros fuel' input' tools' tool_choice' config' cache' w0 e w1.
    unfold _generate. cbv zeta. apply retrying_raises_classified.
Qed.

End RetryPredicate.

Section RetryBoundUnit.

Variable seconds_since_start : nat -> Q.

(** The two retry bounds on the generate unit itself, for an adapter that
    raises rate-limit errors at its next [R] calls and then returns. *)
Lemma retry_bound_unit (R fuel : nat) (self : Model) (input : list ChatMessage)
    (tools : list ToolInfo) (tool_choice : ToolChoice) (config : GenerateConfig)
    (cache : CacheArg) (w : World) (errors : nat -> PyException)
    (output : ModelOutput) (call : option ModelCall) :
  cache_unused cache w ->
  INSPECT_DISABLE_MODEL_API w = false ->
  active_sample_token_limit w = None ->
  truthy_int (timeout config) = false ->
  (forall j, (j < R)%nat ->
     api_generate (Model_api self) (api_calls w + j) input tools tool_choice config
     = Raises (errors j)) ->
  (forall j, (j < R)%nat -> is_rate_limit (Model_api self) (errors j) = true) ->
  api_generate (Model_api self) (api_calls w + R) input tools tool_choice config
  = Returns (inl output) call ->
  (max_retries config = Some (Z.of_nat R + 1) -> (R < fuel)%nat ->
   exists w',
     retrying seconds_since_start (retry_stop config) (is_rate_limit (Model_api self))
       (generate_unit self input tools tool_choice config cache) fuel 1 w
     = Some (inr output, w')
     /\ api_calls w' = (api_calls w + R + 1)%nat)
  /\ (max_retries config = Some (Z.of_nat R) -> (1 <= R)%nat -> (R <= fuel)%nat ->
      exists w',
        retrying seconds_since_start (retry_stop config) (is_rate_limit (Model_api self))
          (generate_unit self input tools tool_choice config cache) fuel 1 w
        = Some (inl (RetryError (errors (R - 1)%nat)), w')
        /\ api_calls w' = (api_calls w + R)%nat).
Proof.
  intros Hcache Hapi Hlimit Htimeout Hraise Hrate Hreturn.
  set (errors' := fun c => errors (c - api_calls w)%nat).
  assert (Herr : forall j, errors' (api_calls w + j)%nat = errors j).
  { intros j. unfold errors'. f_equal. lia. }
  split.
  - intros Hmax Hfuel.
    rewrite (retry_stop_max_retries config _ Htimeout Hmax) by lia.
    assert (Hretried :
      retried seconds_since_start (stop_after_attempt (Z.of_nat R + 1))
        (is_rate_limit (Model_api self))
        (generate_unit self input tools tool_choice config cache)
        R 1 w (after_calls R w)).
    { rewrite <- (retry_stop_max_retries config _ Htimeout Hmax) by lia.
      apply (retried_while_rate_limited seconds_since_start self input tools
               tool_choice config cache errors'); try assumption.
      - intros j Hj. rewrite Herr. auto.
      - intros j Hj. rewrite Herr. auto.
      - intros j Hj. rewrite (retry_stop_max_retries config _ Htimeout Hmax) by lia.
        cbn [stop_fires]. apply Z.leb_gt. lia. }
    replace fuel with (R + S (fuel - S R))%nat by lia.
    rewrite (retrying_retried _ _ _ _ _ _ _ _ Hretried).
    destruct (after_calls_frame R w) as (_ & Hapi' & Hlimit').
    destruct (after_call_no_token_limit self input tools tool_choice config cache
                output (count_api_call (after_calls R w)))
      as (w' & Hafter & Hcalls & _).
    { change (active_sample_token_limit (count_api_call (after_calls R w)))
        with (active_sample_token_limit (after_calls R w)).
      rewrite Hlimit'. exact Hlimit. }
    exists w'. split.
    + apply retrying_returns.
      rewrite (generate_unit_calls_adapter _ _ _ _ _ _ _
                 (cache_unused_after_calls cache R w Hcache))
        by (rewrite Hapi'; exact Hapi).
      rewrite api_calls_after_calls, Hreturn. exact Hafter.
    + rewrite Hcalls. cbn [count_api_call api_calls].
      rewrite api_calls_after_calls. lia.
  - intros Hmax HR Hfuel.
    rewrite (retry_stop_max_retries config _ Htimeout Hmax) by lia.
    assert (Hretried :
      retried seconds_since_start (stop_after_attempt (Z.of_nat R))
        (is_rate_limit (Model_api self))
        (generate_unit self input tools tool_choice config cache)
        (R - 1) 1 w (after_calls (R - 1) w)).
    { rewrite <- (retry_stop_max_retries config _ Htimeout Hmax) by lia.
      apply (retried_while_rate_limited seconds_since_start self input tools
               tool_choice config cache errors'); try assumption.
      - intros j Hj. rewrite Herr. apply Hraise. lia.
      - intros j Hj. rewrite Herr. apply Hrate. lia.
      - intros j Hj. rewrite (retry_stop_max_retries config _ Htimeout Hmax) by lia.
        cbn [stop_fires]. apply Z.leb_gt. lia. }
    replace fuel with ((R - 1) + S (fuel - R))%nat by lia.
    rewrite (retrying_retried _ _ _ _ _ _ _ _ Hretried).
    destruct (after_calls_frame (R - 1) w) as (_ & Hapi' & _).
    exists (count_api_call (after_calls (R - 1) w)). split.
    + apply retrying_stopped.
      * rewrite (generate_unit_calls_adapter _ _ _ _ _ _ _
                   (cache_unused_after_calls cache (R - 1) w Hcache))
          by (rewrite Hapi'; exact Hapi).
        rewrite api_calls_after_calls, Hraise by lia. reflexivity.
      * apply Hrate. lia.
      * cbn [stop_fires]. apply Z.leb_le. lia.
    + cbn [count_api_call api_calls]. rewrite api_calls_after_calls. lia.
Qed.

(** C2 (amended): [max_retries] bounds the number of attempts. For an
    adapter that raises a rate-limit error at each of its next [R] calls
    and then returns an output, with no timeout, no cache hit, the model
    API enabled and no token limit: with [max_retries = R + 1] the loop
    returns that output, from attempt [R + 1], its last allowed one; with
    [max_retries = R], for [R >= 1], the loop ends after [R] attempts and
    raises the [RetryError] that holds the last rate-limit error. *)
Theorem retry_bound_counts_attempts
    (R fuel : nat) (self : Model) (input : list ChatMessage) (tools : list ToolArg)
    (tool_choice : option ToolChoice) (config : GenerateConfig) (cache : CacheArg)
    (w : World) (errors : nat -> PyException)
    (output : ModelOutput) (call : option ModelCall) :
  cache_unused cache w ->
  INSPECT_DISABLE_MODEL_API w = false ->
  active_sample_token_limit w = None ->
  truthy_int (timeout config) = false ->
  (forall j inp tls tc, (j < R)%nat ->
     api_generate (Model_api self) (api_calls w + j) inp tls tc config
     = Raises (errors j)) ->
  (forall j, (j < R)%nat -> is_rate_limit (Model_api self) (errors j) = true) ->
  (forall inp tls tc,
     api_generate (Model_api self) (api_calls w + R) inp tls tc config
     = Returns (inl output) call) ->
  (max_retries config = Some (Z.of_nat R + 1) -> (R < fuel)%nat ->
   exists w',
     _generate seconds_since_start fuel self input tools tool_choice config cache w
     = Some (inr output, w')
     /\ api_calls w' = (api_calls w + R + 1)%nat)
  /\ (max_retries config = Some (Z.of_nat R) -> (1 <= R)%nat -> (R <= fuel)%nat ->
      exists w',
        _generate seconds_since_start fuel self input tools tool_choice config cache w
        = Some (inl (RetryError (errors (R - 1)%nat)), w')
        /\ api_calls w' = (api_calls w + R)%nat).
Proof.
  intros Hcache Hapi Hlimit Htimeout Hraise Hrate Hreturn.
  unfold _generate. cbv zeta.
  apply retry_bound_unit with (call := call); auto.
Qed.

End RetryBoundUnit.

(** ** The message limit *)

Section MessageLimit.

Variable seconds_since_start : nat -> Q.

(** C5: on the active model with a message limit of 5, [generate] with an
    input of 5 messages raises the limit error at once, in the state it
    started from, so the adapter has not been called, whatever the adapter,
    tools, config and cache; with an input of 4 messages the check passes
    and records the 4 messages, and [generate] goes on to call the adapter:
    when the adapter answers that call with an output (no cache hit, the
    model API enabled, no token limit), that output is returned after one
    adapter call. *)
Theorem message_limit_checked_before_call
    (fuel : nat) (self : Model) (five four : list ChatMessage)
    (tools : list ToolArg) (tool_choice : option ToolChoice)
    (config : GenerateConfig) (cache : CacheArg) (w : World)
    (output : ModelOutput) (call : option ModelCall) :
  active_model_context_var w = Some (model_id self) ->
  active_sample_message_limit w = Some 5 ->
  length five = 5%nat ->
  length four = 4%nat ->
  generate seconds_since_start fuel self (InputMessages five) tools tool_choice
           config cache w
  = Some (inl (SampleLimitExceededError "message" 5 5), w)
  /\ handle_sample_message_limit (InputMessages four) w
     = Some (inr tt, set_active_sample_total_messages 4 w)
  /\ (cache_unused cache w ->
      INSPECT_DISABLE_MODEL_API w = false ->
      active_sample_token_limit w = None ->
      (forall inp tls tc cfg,
         api_generate (Model_api self) (api_calls w) inp tls tc cfg
         = Returns (inl output) call) ->
      exists w',
        generate seconds_since_start (S fuel) self (InputMessages four) tools
                 tool_choice config cache w
        = Some (inr output, w')
        /\ api_calls w' = S (api_calls w)
        /\ active_sample_total_messages w' = 4).
Proof.
  intros Hactive Hlimit Hfive Hfour.
  assert (Hcheck4 : handle_sample_message_limit (InputMessages four) w
                    = Some (inr tt, set_active_sample_total_messages 4 w)).
  { unfold handle_sample_message_limit. run_monad. rewrite Hlimit, Hfour. reflexivity. }
  split; [|split; [exact Hcheck4|]].
  - unfold generate. run_monad. rewrite Hactive.
    rewrite bool_decide_eq_true_2 by reflexivity.
    unfold handle_sample_message_limit. run_monad. rewrite Hlimit, Hfive. reflexivity.
  - intros Hcache Hapi Htokens Hanswer.
    unfold generate. run_monad. rewrite Hactive.
    rewrite bool_decide_eq_true_2 by reflexivity.
    rewrite Hcheck4. cbv beta iota.
    unfold _generate. cbv zeta.
    match goal with
    | |- context [retrying _ ?stop ?retry
                    (generate_unit ?s ?i ?t ?tc ?c ?ca) (S fuel) 1 ?w1] =>
        destruct (after_call_no_token_limit s i t tc c ca output (count_api_call w1))
          as (w' & Hafter & Hcalls & Hmessages); [exact Htokens|];
        exists w'; split; [|split]
    end.
    + apply retrying_returns.
      rewrite generate_unit_calls_adapter; [| exact Hcache | exact Hapi].
      change (api_calls (set_active_sample_total_messages _ w)) with (api_calls w).
      rewrite Hanswer. exact Hafter.
    + rewrite Hcalls. reflexivity.
    + rewrite Hmessages. reflexivity.
Qed.

End MessageLimit.

(** ** Worked examples of the retry loop and of the message limit *)

Lemma retry_bound_counts_attempts_witness :
  (exists w',
     _generate no_clock 5 (flaky_model 2 (Returns (inl plain_output) None)) [] [] None
       (with_max_retries 3) (CacheBool false) quiet_world
     = Some (inr plain_output, w')
     /\ api_calls w' = 3%nat)
  /\ (exists w',
        _generate no_clock 5 (flaky_model 2 (Returns (inl plain_output) None)) [] [] None
          (with_max_retries 2) (CacheBool false) quiet_world
        = Some (inl (RetryError rate_limit_error), w')
        /\ api_calls w' = 2%nat).
Proof.
  split.
  - apply (proj1 (retry_bound_counts_attempts no_clock 2 5
                    (flaky_model 2 (Returns (inl plain_output) None)) [] [] None
                    (with_max_retries 3) (CacheBool false) quiet_world
                    (fun _ => rate_limit_error) plain_output None
                    ltac:(left; reflexivity) eq_refl eq_refl eq_refl
                    ltac:(intros [|[|j]] ? ? ? ?; [reflexivity | reflexivity | lia])
                    ltac:(intros; reflexivity)
                    ltac:(intros; reflexivity)));
      [reflexivity | lia].
  - apply (proj2 (retry_bound_counts_attempts no_clock 2 5
                    (flaky_model 2 (Returns (inl plain_output) None)) [] [] None
                    (with_max_retries 2) (CacheBool false) quiet_world
                    (fun _ => rate_limit_error) plain_output None
                    ltac:(left; reflexivity) eq_refl eq_refl eq_refl
                    ltac:(intros [|[|j]] ? ? ? ?; [reflexivity | reflexivity | lia])
                    ltac:(intros; reflexivity)
                    ltac:(intros; reflexivity)));
      [reflexivity | lia | lia].
Defined.

(** C2 as stated fails for [R = 1]: the adapter raises one rate-limit
    error and then succeeds; with [max_retries = 1] the loop stops after
    the first attempt and raises the [RetryError] instead of returning the
    output, and with [max_retries = 0] the bound counts as unset, the loop
    retries and returns the output instead of raising. *)
Lemma retry_bound_as_stated_counterexample :
  (exists w',
     _generate no_clock 10 once_flaky_model [] [] None (with_max_retries 1) (CacheBool false)
       quiet_world
     = Some (inl (RetryError rate_limit_error), w') /\ api_calls w' = 1%nat)
  /\ (exists w',
        _generate no_clock 10 once_flaky_model [] [] None (with_max_retries 0) (CacheBool false)
          quiet_world
        = Some (inr plain_output, w') /\ api_calls w' = 2%nat)
  /\ ~ ((exists w',
           _generate no_clock 10 once_flaky_model [] [] None (with_max_retries 1) (CacheBool false)
             quiet_world
           = Some (inr plain_output, w'))
        /\ (exists ex w',
              _generate no_clock 10 once_flaky_model [] [] None (with_max_retries 0)
                (CacheBool false) quiet_world
              = Some (inl ex, w'))).
Proof.
  assert (H1 : exists w',
     _generate no_clock 10 once_flaky_model [] [] None (with_max_retries 1) (CacheBool false)
       quiet_world
     = Some (inl (RetryError rate_limit_error), w') /\ api_calls w' = 1%nat).
  { eexists. split; vm_compute; reflexivity. }
  split; [exact H1|]. split.
  - eexists. split; vm_compute; reflexivity.
  - intros [[w' Hsuccess] _]. destruct H1 as (w1 & Hstop & _).
    rewrite Hstop in Hsuccess. discriminate.
Qed.

Lemma retry_only_rate_limit_errors_witness :
  _generate no_clock 2 (flaky_model 1 (Raises invalid_argument)) [hello] [] None
            GenerateConfig_default (CacheBool false) quiet_world
  = Some (inl invalid_argument, count_api_call (count_api_call quiet_world)).
Proof.
  apply (proj1 (retry_only_rate_limit_errors no_clock 1 2
                  (flaky_model 1 (Raises invalid_argument)) [hello] [] None
                  GenerateConfig_default (CacheBool false) quiet_world
                  (fun _ => rate_limit_error) invalid_argument
                  ltac:(left; reflexivity) eq_refl
                  ltac:(intros [|j] ? ? ? ?; [reflexivity | lia])
                  ltac:(intros; reflexivity)
                  ltac:(intros; reflexivity)
                  ltac:(intros; reflexivity)
                  eq_refl ltac:(lia))).
Defined.

Lemma message_limit_checked_before_call_witness :
  generate no_clock 3 (flaky_model 0 (Returns (inl plain_output) None))
    (InputMessages [hello; hello; hello; hello; hello]) [] None
    GenerateConfig_default (CacheBool false) limited_world
  = Some (inl (SampleLimitExceededError "message" 5 5), limited_world)
  /\ exists w',
       generate no_clock 3 (flaky_model 0 (Returns (inl plain_output) None))
         (InputMessages [hello; hello; hello; hello]) [] None
         GenerateConfig_default (CacheBool false) limited_world
       = Some (inr plain_output, w')
       /\ api_calls w' = 1%nat
       /\ active_sample_total_messages w' = 4.
Proof.
  destruct (message_limit_checked_before_call no_clock 2
              (flaky_model 0 (Returns (inl plain_output) None))
              [hello; hello; hello; hello; hello] [hello; hello; hello; hello]
              [] None GenerateConfig_default (CacheBool false) limited_world
              plain_output None eq_refl eq_refl eq_refl eq_refl)
    as (_ & _ & Hfour).
  split.
  - apply (message_limit_checked_before_call no_clock 3
              (flaky_model 0 (Returns (inl plain_output) None))
              [hello; hello; hello; hello; hello] [hello; hello; hello; hello]
              [] None GenerateConfig_default (CacheBool false) limited_world
              plain_output None eq_refl eq_refl eq_refl eq_refl).
  - apply Hfour; [left; reflexivity | reflexivity | reflexivity |].
    intros; reflexivity.
Defined.

(** * Further properties of [_model.py] *)

(** ** [ModelName] parsing and printing *)

Lemma split_not_nil sep s : PyStr.split sep s <> [].
Proof.
  destruct s as [|c s]; cbn [PyStr.split]; [discriminate|].
  destruct (Ascii.eqb c sep); [discriminate|].
  destruct (PyStr.split sep s); discriminate.
Qed.

Lemma join_cons sep p q ps :
  PyStr.join sep (p :: q :: ps) = p +:+ sep +:+ PyStr.join sep (q :: ps).
Proof. reflexivity. Qed.

(** Joining the parts of a split with the separator gives the string back. *)
Lemma join_split sep s :
  PyStr.join (String sep "") (PyStr.split sep s) = s.
Proof.
  induction s as [|c s IH]; [reflexivity|].
  cbn [PyStr.split]. destruct (Ascii.eqb_spec c sep) as [->|Hne].
  - destruct (PyStr.split sep s) as [|p ps] eqn:Hs; [now apply split_not_nil in Hs|].
    rewrite join_cons, IH. reflexivity.
  - destruct (PyStr.split sep s) as [|p ps] eqn:Hs; [now apply split_not_nil in Hs|].
    destruct ps as [|q ps].
    + cbn [PyStr.join] in *. congruence.
    + rewrite join_cons in *. rewrite append_String. congruence.
Qed.

(** A string has more than one part exactly when it holds the separator. *)
Lemma split_several sep s :
  (1 <? length (PyStr.split sep s))%nat = PyStr.contains (String sep "") s.
Proof.
  induction s as [|c s IH]; [reflexivity|].
  rewrite contains_String. cbn [PyStr.split String.prefix].
  destruct (Ascii.eqb_spec c sep) as [->|Hne].
  - destruct (Ascii.ascii_dec sep sep); [|contradiction].
    pose proof (split_not_nil sep s).
    destruct (PyStr.split sep s); [contradiction|].
    destruct s; reflexivity.
  - destruct (Ascii.ascii_dec sep c) as [->|_]; [contradiction|].
    rewrite <- IH. cbn [orb].
    destruct (PyStr.split sep s) as [|p ps]; reflexivity.
Qed.

(** Splitting [a/b] where [a] holds no separator. *)
Lemma split_append sep a b :
  PyStr.contains (String sep "") a = false ->
  PyStr.split sep (a +:+ String sep b) = a :: PyStr.split sep b.
Proof.
  induction a as [|c a IH]; intros Hno.
  - rewrite append_Empty. cbn [PyStr.split]. rewrite Ascii.eqb_refl. reflexivity.
  - rewrite contains_String in Hno. apply orb_false_iff in Hno as [Hc Hno].
    rewrite append_String. cbn [PyStr.split].
    destruct (Ascii.eqb_spec c sep) as [->|Hne].
    + cbn [String.prefix] in Hc.
      destruct (Ascii.ascii_dec sep sep); [|contradiction].
      destruct a; discriminate.
    + rewrite (IH Hno). reflexivity.
Qed.

Lemma parse_model_str model :
  match ModelName._parse_model model with
  | (Some api, name) => api +:+ "/" +:+ name = model
  | (None, name) => name = model
  end.
Proof.
  unfold ModelName._parse_model.
  pose proof (join_split "/" model) as Hjoin.
  destruct (PyStr.split "/" model) as [|p [|q ps]].
  - reflexivity.
  - reflexivity.
  - cbn [length Nat.ltb Nat.leb hd tail]. rewrite join_cons in Hjoin. exact Hjoin.
Qed.

(** X1: printing a parsed model name gives the spec string back, and
    parsing [api/name], for an [api] without a slash, gives exactly that
    pair, whatever slashes [name] holds. *)
Theorem ModelName_init_str_round_trip (model api name : string) (n : ModelName.t) :
  (ModelName.init model = inr n -> ModelName_str n = model)
  /\ (PyStr.contains "/" api = false ->
      ModelName.init (api +:+ "/" +:+ name) = inr (ModelName.mk api name)).
Proof.
  split.
  - unfold ModelName.init. pose proof (parse_model_str model) as Hstr.
    destruct (ModelName._parse_model model) as [[a|] nm]; [|discriminate].
    intros [= <-]. exact Hstr.
  - intros Hno. unfold ModelName.init, ModelName._parse_model.
    change ("/" +:+ name) with (String "/" name).
    rewrite (split_append "/" api name Hno).
    pose proof (split_not_nil "/" name) as Hne.
    destruct (PyStr.split "/" name) as [|p ps] eqn:Hs; [contradiction|].
    cbn [length Nat.ltb Nat.leb hd tail]. rewrite <- Hs, join_split. reflexivity.
Qed.

Lemma ModelName_init_str_round_trip_witness :
  ModelName_str (ModelName.mk "hf" "meta/llama") = "hf/meta/llama"
  /\ ModelName.init ("hf" +:+ "/" +:+ "meta/llama") = inr (ModelName.mk "hf" "meta/llama").
Proof.
  split.
  - apply (proj1 (ModelName_init_str_round_trip "hf/meta/llama" "" ""
                    (ModelName.mk "hf" "meta/llama"))). reflexivity.
  - apply (proj2 (ModelName_init_str_round_trip "" "hf" "meta/llama"
                    (ModelName.mk "" ""))). reflexivity.
Defined.

(** X2: [ModelName(model)] raises the [ValueError] exactly when [model]
    holds no slash. *)
Theorem ModelName_init_error_iff_no_slash (model : string) :
  ModelName.init model = inl ModelName.API_not_specified
  <-> PyStr.contains "/" model = false.
Proof.
  unfold ModelName.init, ModelName._parse_model.
  rewrite (split_several "/" model).
  destruct (PyStr.contains "/" model); split; intros H;
    try discriminate; reflexivity.
Qed.

Lemma append_Empty_r s : s +:+ "" = s.
Proof.
  induction s as [|c s IH]; [reflexivity|]. rewrite append_String, IH. reflexivity.
Qed.

Lemma append_assoc' (a b c : string) : (a +:+ b) +:+ c = a +:+ (b +:+ c).
Proof.
  induction a as [|x a IH]; [reflexivity|]. rewrite !append_String, IH. reflexivity.
Qed.

Lemma contains_refl s : PyStr.contains s s = true.
Proof.
  apply contains_iff_substring. exists "", "".
  rewrite append_Empty, append_Empty_r. reflexivity.
Qed.

Lemma contains_trans a b c :
  PyStr.contains a b = true -> PyStr.contains b c = true -> PyStr.contains a c = true.
Proof.
  rewrite !contains_iff_substring.
  intros (p1 & s1 & ->) (p2 & s2 & ->).
  exists (p2 +:+ p1), (s1 +:+ s2). rewrite !append_assoc'. reflexivity.
Qed.

(** The name part of a pattern is a piece of the pattern. *)
Lemma parse_model_name_in_pattern pattern :
  PyStr.contains (snd (ModelName._parse_model pattern)) pattern = true.
Proof.
  pose proof (parse_model_str pattern) as Hstr.
  destruct (ModelName._parse_model pattern) as [[api|] name]; cbn [snd].
  - apply contains_iff_substring. exists (api +:+ "/"), "".
    rewrite append_Empty_r, append_assoc'. symmetry. exact Hstr.
  - rewrite Hstr. apply contains_refl.
Qed.

(** X3: compared with a string, a model name answers whether the name part
    of the pattern (what follows its first slash, or all of it) occurs in
    the model's name; the family part of the pattern never changes the
    answer. Compared with anything else it answers false. *)
Theorem ModelName_eq_characterised (self : ModelName.t) (pattern : string) :
  (ModelName.__eq__ self (ModelName.PyString pattern) = true
   <-> exists before after,
         ModelName.name self
         = before +:+ snd (ModelName._parse_model pattern) +:+ after)
  /\ ModelName.__eq__ self ModelName.PyOther = false.
Proof.
  split; [|reflexivity].
  rewrite ModelName_eq_is_name_test. apply contains_iff_substring.
Qed.

(** X4: a model name matches every fragment of its own name, its name
    alone, and the spec string it was parsed from. *)
Theorem ModelName_eq_matches_own_name (model fragment : string) (self : ModelName.t) :
  (PyStr.contains fragment (ModelName.name self) = true ->
   ModelName.__eq__ self (ModelName.PyString fragment) = true)
  /\ ModelName.__eq__ self (ModelName.PyString (ModelName.name self)) = true
  /\ (ModelName.init model = inr self ->
      ModelName.__eq__ self (ModelName.PyString model) = true).
Proof.
  assert (Hfrag : forall f, PyStr.contains f (ModelName.name self) = true ->
                            ModelName.__eq__ self (ModelName.PyString f) = true).
  { intros f Hf. rewrite ModelName_eq_is_name_test.
    exact (contains_trans _ _ _ (parse_model_name_in_pattern f) Hf). }
  split; [apply Hfrag|]. split; [apply Hfrag, contains_refl|].
  intros Hinit. rewrite ModelName_eq_is_name_test.
  unfold ModelName.init in Hinit.
  destruct (ModelName._parse_model model) as [[api|] name]; [|discriminate].
  injection Hinit as <-. apply contains_refl.
Qed.

Lemma ModelName_eq_matches_own_name_witness :
  ModelName.__eq__ (ModelName.mk "openai" "gpt-4o") (ModelName.PyString "4o") = true
  /\ ModelName.__eq__ (ModelName.mk "openai" "gpt-4o")
       (ModelName.PyString "openai/gpt-4o") = true.
Proof.
  split.
  - apply (proj1 (ModelName_eq_matches_own_name "" "4o" (ModelName.mk "openai" "gpt-4o"))).
    reflexivity.
  - apply (proj2 (proj2 (ModelName_eq_matches_own_name "openai/gpt-4o" ""
                           (ModelName.mk "openai" "gpt-4o")))).
    reflexivity.
Defined.

(** ** Reasoning history: shape, stripping and idempotence *)

Lemma has_reasoning_strip m : has_reasoning (strip_reasoning m) = false.
Proof. destruct m; reflexivity. Qed.

Lemma has_reasoning_inline m : has_reasoning (inline_reasoning m) = false.
Proof. destruct m as [| | c tcs [r|] |]; try reflexivity. destruct c; reflexivity. Qed.

Lemma existsb_map_false {A} (p : A -> bool) (f : A -> A) l :
  (forall x, p (f x) = false) -> existsb p (map f l) = false.
Proof.
  intros Hf. induction l as [|x l IH]; [reflexivity|].
  cbn [map existsb]. rewrite Hf, IH. reflexivity.
Qed.

(** Whatever the config and the adapter, the result is the list itself or
    one of the two loop bodies mapped over it. *)
Lemma resolve_reasoning_history_cases messages config native :
  let resolved := resolve_reasoning_history messages config native in
  resolved = messages
  \/ (resolved = map strip_reasoning messages
      /\ native = true /\ reasoning_history config = Some false)
  \/ (resolved = map inline_reasoning messages
      /\ native = false /\ reasoning_history config <> Some false).
Proof.
  unfold resolve_reasoning_history.
  destruct (existsb has_reasoning messages); cbn [negb]; [|auto].
  destruct native, (reasoning_history config) as [[|]|]; cbn [negb]; auto;
    right; right; repeat split; congruence.
Qed.

(** X5: resolving the reasoning history twice gives what resolving it once
    gives, for every config and for both kinds of adapter. *)
Theorem resolve_reasoning_history_idempotent
    (messages : list ChatMessage) (config : GenerateConfig) (native : bool) :
  resolve_reasoning_history (resolve_reasoning_history messages config native)
                            config native
  = resolve_reasoning_history messages config native.
Proof.
  destruct (resolve_reasoning_history_cases messages config native)
    as [Hsame | [(Hstrip & _) | (Hinline & _)]].
  - rewrite Hsame. exact Hsame.
  - rewrite Hstrip. unfold resolve_reasoning_history at 1.
    rewrite (existsb_map_false _ _ _ has_reasoning_strip). reflexivity.
  - rewrite Hinline. unfold resolve_reasoning_history at 1.
    rewrite (existsb_map_false _ _ _ has_reasoning_inline). reflexivity.
Qed.

(** X6: resolving the reasoning history keeps the number and the order of
    the messages and the class of each; a message that is not an assistant
    message comes out as it went in, and an assistant message keeps its
    tool calls. *)
Theorem resolve_reasoning_history_keeps_shape
    (messages : list ChatMessage) (config : GenerateConfig) (native : bool) :
  let resolved := resolve_reasoning_history messages config native in
  length resolved = length messages
  /\ forall i m,
       messages !! i = Some m ->
       exists m',
         resolved !! i = Some m'
         /\ (forall ty, isinstance m' ty = isinstance m ty)
         /\ (isinstance m TAssistant = false -> m' = m)
         /\ (forall c tcs r,
               m = ChatMessageAssistant c tcs r ->
               exists c' r', m' = ChatMessageAssistant c' tcs r').
Proof.
  intros resolved. subst resolved.
  destruct (resolve_reasoning_history_cases messages config native)
    as [Hsame | [(Hmap & _) | (Hmap & _)]]; cbv zeta in *.
  - rewrite Hsame. split; [reflexivity|]. intros i m Hm. exists m.
    repeat split; auto. intros c tcs r ->. exists c, r. reflexivity.
  - rewrite Hmap. split; [apply length_map|]. intros i m Hm.
    exists (strip_reasoning m). rewrite list_lookup_fmap, Hm.
    repeat split.
    + intros ty. destruct m, ty; reflexivity.
    + destruct m; try reflexivity. discriminate.
    + intros c tcs r ->. exists c, None. reflexivity.
  - rewrite Hmap. split; [apply length_map|]. intros i m Hm.
    exists (inline_reasoning m). rewrite list_lookup_fmap, Hm.
    repeat split.
    + intros ty. destruct m as [| | c tcs [r|] |]; try reflexivity.
      destruct c, ty; reflexivity.
    + destruct m; try reflexivity. discriminate.
    + intros c tcs r ->. destruct r as [r|].
      * destruct c; eexists; eexists; reflexivity.
      * exists c, None. reflexivity.
Qed.

Lemma resolve_reasoning_history_keeps_shape_witness :
  exists m',
    resolve_reasoning_history reasoning_example GenerateConfig_default false !! 0%nat
    = Some m'
    /\ m' = ChatMessageUser (Str "What is 2+2?") None.
Proof.
  destruct (proj2 (resolve_reasoning_history_keeps_shape reasoning_example
                     GenerateConfig_default false) 0%nat
              (ChatMessageUser (Str "What is 2+2?") None) eq_refl)
    as (m' & Hm' & _ & Hsame & _).
  exists m'. split; [exact Hm' | exact (Hsame eq_refl)].
Defined.

(** For an adapter with native reasoning, a config that excludes the
    reasoning history removes the reasoning of every message and leaves
    every content as it is, and a config that does not exclude it returns
    the messages unchanged. *)
Theorem resolve_reasoning_history_native
    (messages : list ChatMessage) (config : GenerateConfig) :
  (reasoning_history config = Some false ->
   existsb has_reasoning (resolve_reasoning_history messages config true) = false
   /\ map content (resolve_reasoning_history messages config true)
      = map content messages)
  /\ (reasoning_history config <> Some false ->
      resolve_reasoning_history messages config true = messages).
Proof.
  split.
  - intros Hcfg. unfold resolve_reasoning_history. rewrite Hcfg. cbn [negb].
    destruct (existsb has_reasoning messages) eqn:Hany; cbn [negb].
    + split; [apply existsb_map_false, has_reasoning_strip|].
      rewrite map_map. apply map_ext. intros []; reflexivity.
    + split; [exact Hany | reflexivity].
  - intros Hcfg. unfold resolve_reasoning_history.
    destruct (existsb has_reasoning messages); cbn [negb]; [|reflexivity].
    destruct (reasoning_history config) as [[|]|]; cbn [negb];
      solve [reflexivity | contradiction].
Qed.

Lemma resolve_reasoning_history_native_witness :
  existsb has_reasoning
    (resolve_reasoning_history reasoning_example
       (mkConfig None None None None None (Some false) None) true) = false
  /\ resolve_reasoning_history reasoning_example GenerateConfig_default true
     = reasoning_example.
Proof.
  split.
  - apply (proj1 (resolve_reasoning_history_native reasoning_example
                    (mkConfig None None None None None (Some false) None))).
    reflexivity.
  - apply (proj2 (resolve_reasoning_history_native reasoning_example
                    GenerateConfig_default)).
    discriminate.
Defined.

(** ** Tool model input *)

Lemma apply_model_input_lookup name handler total messages : forall index i m,
  messages !! i = Some m ->
  apply_model_input name handler total index messages !! i
  = Some (if calls_tool name m
          then with_content
                 (handler (index + length (List.filter (calls_tool name) (take i messages)))%nat
                          total (content m)) m
          else m).
Proof.
  induction messages as [|m0 messages IH]; intros index i m Hm; [discriminate|].
  destruct i as [|i].
  - injection Hm as ->. cbn [take List.filter length]. rewrite Nat.add_0_r.
    destruct m as [| | |c id [fn|] err]; try reflexivity.
    cbn [apply_model_input calls_tool]. destruct (String.eqb fn name); reflexivity.
  - cbn [lookup] in Hm. change ((m0 :: messages) !! S i) with (messages !! i) in Hm.
    cbn [take List.filter].
    assert (Hstep : forall idx,
      apply_model_input name handler total idx messages !! i
      = Some (if calls_tool name m
              then with_content
                     (handler (idx + length (List.filter (calls_tool name) (take i messages)))%nat
                              total (content m)) m
              else m)) by (intros; apply IH; exact Hm).
    destruct m0 as [| | |c0 id0 [fn0|] err0]; cbn [apply_model_input calls_tool];
      try (change ((?x :: ?l) !! S i) with (l !! i); exact (Hstep index)).
    destruct (String.eqb fn0 name); cbn [length].
    + change ((?x :: ?l) !! S i) with (l !! i). rewrite (Hstep (S index)).
      replace (S index + length (List.filter (calls_tool name) (take i messages)))%nat
        with (index + S (length (List.filter (calls_tool name) (take i messages))))%nat
        by lia.
      reflexivity.
    + exact (Hstep index).
Qed.





Lemma with_content_content m : with_content (content m) m = m.
Proof. destruct m; reflexivity. Qed.

Lemma with_content_twice c c' m : with_content c' (with_content c m) = with_content c' m.
Proof. destruct m; reflexivity. Qed.

Lemma calls_tool_with_content name c m :
  calls_tool name (with_content c m) = calls_tool name m.
Proof. destruct m; reflexivity. Qed.

Lemma apply_model_input_length name handler total messages : forall index,
  length (apply_model_input name handler total index messages) = length messages.
Proof.
  induction messages as [|m messages IH]; intros index; [reflexivity|].
  destruct m as [| | |c id [fn|] err]; cbn [apply_model_input length];
    try (rewrite IH; reflexivity).
  destruct (String.eqb fn name); cbn [length]; rewrite IH; reflexivity.
Qed.

(** The handlers of [handlers] only ever change contents, and only of the
    tool messages they are registered for. *)
Lemma fold_model_input_frame total (handlers : list ToolDef) : forall messages,
  let result :=
    foldl (fun messages tdef =>
             match td_model_input tdef with
             | Some handler => apply_model_input (td_name tdef) handler total 0 messages
             | None => messages
             end) messages handlers in
  length result = length messages
  /\ forall i m,
       messages !! i = Some m ->
       exists c',
         result !! i = Some (with_content c' m)
         /\ ((forall tdef, In tdef handlers -> is_Some (td_model_input tdef) ->
                calls_tool (td_name tdef) m = false) ->
             c' = content m).
Proof.
  induction handlers as [|tdef handlers IH]; intros messages; cbn [foldl].
  - split; [reflexivity|]. intros i m Hm. exists (content m).
    rewrite with_content_content. auto.
  - destruct (td_model_input tdef) as [handler|] eqn:Hh.
    + destruct (IH (apply_model_input (td_name tdef) handler total 0 messages))
        as [Hlen Hpoint].
      split; [rewrite Hlen; apply apply_model_input_length|].
      intros i m Hm.
      pose proof (apply_model_input_lookup (td_name tdef) handler total
                    messages 0%nat i m Hm) as Hone.
      destruct (Hpoint i _ Hone) as (c' & Hres & Hsame).
      destruct (calls_tool (td_name tdef) m) eqn:Hcalls.
      * exists c'. rewrite with_content_twice in Hres. split; [exact Hres|].
        intros Hnone. rewrite (Hnone tdef) in Hcalls;
          [discriminate | left; reflexivity | rewrite Hh; eauto].
      * exists c'. split; [exact Hres|]. intros Hnone. apply Hsame.
        intros t Ht. apply Hnone. right. exact Ht.
    + destruct (IH messages) as [Hlen Hpoint]. split; [exact Hlen|].
      intros i m Hm. destruct (Hpoint i m Hm) as (c' & Hres & Hsame).
      exists c'. split; [exact Hres|]. intros Hnone. apply Hsame.
      intros t Ht. apply Hnone. right. exact Ht.
Qed.

(** X8: whatever the tool definitions, the tool model input rewrite keeps
    the number and order of the messages and changes nothing but contents:
    a message that is not a tool message of a tool with a handler comes out
    as it went in, and when no definition has a handler the list is
    returned unchanged. *)
Theorem resolve_tool_model_input_frame
    (tdefs : list ToolDef) (messages : list ChatMessage) :
  length (resolve_tool_model_input tdefs messages) = length messages
  /\ (forall i m,
        messages !! i = Some m ->
        exists c',
          resolve_tool_model_input tdefs messages !! i = Some (with_content c' m)
          /\ ((forall tdef, In tdef tdefs -> is_Some (td_model_input tdef) ->
                 calls_tool (td_name tdef) m = false) ->
              c' = content m))
  /\ ((forall tdef, In tdef tdefs -> td_model_input tdef = None) ->
      resolve_tool_model_input tdefs messages = messages).
Proof.
  assert (Hin : forall tdef,
            In tdef (filter (fun tdef => is_Some (td_model_input tdef)) tdefs)
            -> In tdef tdefs).
  { intros tdef Ht. apply list_elem_of_In in Ht. apply list_elem_of_In.
    apply list_elem_of_filter in Ht. tauto. }
  unfold resolve_tool_model_input.
  destruct (length (filter (fun tdef => is_Some (td_model_input tdef)) tdefs) =? 0)%nat
    eqn:Hnone.
  - split; [reflexivity|]. split; [|reflexivity].
    intros i m Hm. exists (content m). rewrite with_content_content. auto.
  - destruct (fold_model_input_frame
                (length (filter (fun m => isinstance m TTool = true) messages))
                (filter (fun tdef => is_Some (td_model_input tdef)) tdefs) messages)
      as [Hlen Hpoint].
    split; [exact Hlen|]. split.
    + intros i m Hm. destruct (Hpoint i m Hm) as (c' & Hres & Hsame).
      exists c'. split; [exact Hres|]. intros Hno. apply Hsame.
      intros t Ht. apply Hno. apply Hin, Ht.
    + intros Hno. apply Nat.eqb_neq in Hnone. exfalso. apply Hnone.
      destruct (filter (fun tdef => is_Some (td_model_input tdef)) tdefs)
        as [|t ts] eqn:Hf; [reflexivity|].
      assert (Ht : t ∈ filter (fun tdef => is_Some (td_model_input tdef)) tdefs)
        by (rewrite Hf; left).
      apply list_elem_of_filter in Ht as [[h Hh] Ht].
      apply list_elem_of_In in Ht. rewrite (Hno t Ht) in Hh. discriminate.
Qed.

Lemma resolve_tool_model_input_frame_witness :
  resolve_tool_model_input [mkToolDef "bash" None]
    [tool_output "a" "bash"; tool_output "b" "python"]
  = [tool_output "a" "bash"; tool_output "b" "python"].
Proof.
  apply (proj2 (proj2 (resolve_tool_model_input_frame [mkToolDef "bash" None]
                         [tool_output "a" "bash"; tool_output "b" "python"]))).
  intros tdef [<- | []]. reflexivity.
Defined.

(** ** Tool-result images: nothing lost, nothing left behind *)

Lemma all_images_app l1 l2 : all_images (l1 ++ l2) = all_images l1 ++ all_images l2.
Proof. unfold all_images. apply flat_map_app. Qed.

Lemma filter_is_image_without_image l :
  List.filter is_image (map without_image l) = [].
Proof.
  induction l as [|c l IH]; [reflexivity|].
  cbn [map List.filter]. destruct c; cbn; exact IH.
Qed.

Lemma filter_is_image_all l :
  forallb is_image l = true -> List.filter is_image l = l.
Proof.
  induction l as [|c l IH]; [reflexivity|]. cbn [forallb List.filter].
  intros H. apply andb_true_iff in H as [Hc Hl]. rewrite Hc, IH; auto.
Qed.

Lemma forallb_is_image_filter l : forallb is_image (List.filter is_image l) = true.
Proof.
  induction l as [|c l IH]; [reflexivity|]. cbn [List.filter].
  destruct (is_image c) eqn:Hc; [cbn [forallb]; rewrite Hc|]; exact IH.
Qed.

Lemma all_images_maybe_adding messages pending ids :
  forallb is_image pending = true ->
  all_images (maybe_adding_user_message messages pending ids)
  = all_images messages ++ pending.
Proof.
  intros Hall. destruct pending as [|c pending]; cbn [maybe_adding_user_message].
  - rewrite app_nil_r. reflexivity.
  - rewrite all_images_app. unfold all_images at 2. cbn [flat_map images_of content].
    rewrite (filter_is_image_all _ Hall), app_nil_r. reflexivity.
Qed.

(** What the reducer keeps true: the images of the messages read so far
    are those already put out followed by the pending ones, the pending
    content holds images only, and no tool message put out holds one. *)
Lemma images_reducer_invariant messages : forall out pending ids seen,
  all_images out ++ pending = all_images seen ->
  forallb is_image pending = true ->
  forallb no_tool_image out = true ->
  let '(out', pending', ids') :=
    foldl tool_result_images_reducer (out, pending, ids) messages in
  all_images out' ++ pending' = all_images (seen ++ messages)
  /\ forallb is_image pending' = true
  /\ forallb no_tool_image out' = true.
Proof.
  induction messages as [|m messages IH]; intros out pending ids seen Himg Hpend Hout.
  - cbn [foldl]. rewrite app_nil_r. auto.
  - cbn [foldl].
    assert (Hother :
      isinstance m TTool = false \/ images_of m = [] ->
      tool_result_images_reducer (out, pending, ids) m
      = (maybe_adding_user_message out pending ids ++ [m], [], [])).
    { intros [Hm | Hm]; [apply images_reducer_other, Hm|].
      destruct m as [| | |[s|l] id fn err]; try reflexivity.
      unfold images_of in Hm. cbn [content] in Hm.
      unfold tool_result_images_reducer.
      destruct (existsb is_image l) eqn:Hex; [|reflexivity].
      apply existsb_is_image_filter in Hex. contradiction. }
    destruct (isinstance m TTool) eqn:Htool;
      [destruct (images_of m) as [|c cs] eqn:Himages|].
    + rewrite Hother by auto.
      replace (seen ++ m :: messages) with ((seen ++ [m]) ++ messages)
        by (rewrite <- app_assoc; reflexivity).
      apply IH.
      * rewrite app_nil_r, !all_images_app, all_images_maybe_adding by exact Hpend.
        rewrite Himg. reflexivity.
      * reflexivity.
      * rewrite forallb_app. cbn [forallb]. unfold no_tool_image at 2.
        rewrite Himages, orb_true_r. cbn [andb]. rewrite andb_true_r.
        destruct pending; cbn [maybe_adding_user_message]; [exact Hout|].
        rewrite forallb_app, Hout. reflexivity.
    + destruct m as [| | |[s|l] id fn err]; try discriminate.
      unfold images_of in Himages. cbn [content] in Himages.
      rewrite images_reducer_tool_with_images
        by (apply existsb_is_image_filter; rewrite Himages; discriminate).
      replace (seen ++ ChatMessageTool (Items l) id fn err :: messages)
        with ((seen ++ [ChatMessageTool (Items l) id fn err]) ++ messages)
        by (rewrite <- app_assoc; reflexivity).
      apply IH.
      * rewrite !all_images_app. unfold all_images at 2 4.
        cbn [flat_map images_of content].
        rewrite filter_is_image_without_image. cbn [app]. rewrite !app_nil_r.
        rewrite <- Himg, <- app_assoc. reflexivity.
      * rewrite forallb_app, Hpend, forallb_is_image_filter. reflexivity.
      * rewrite forallb_app, Hout. cbn [forallb]. unfold no_tool_image, images_of.
        cbn [content]. rewrite filter_is_image_without_image. reflexivity.
    + rewrite Hother by auto.
      replace (seen ++ m :: messages) with ((seen ++ [m]) ++ messages)
        by (rewrite <- app_assoc; reflexivity).
      apply IH.
      * rewrite app_nil_r, !all_images_app, all_images_maybe_adding by exact Hpend.
        rewrite Himg. reflexivity.
      * reflexivity.
      * rewrite forallb_app. cbn [forallb]. unfold no_tool_image at 2.
        rewrite Htool. cbn [negb orb andb]. rewrite andb_true_r.
        destruct pending; cbn [maybe_adding_user_message]; [exact Hout|].
        rewrite forallb_app, Hout. reflexivity.
Qed.

Lemma images_reducer_nothing_to_move messages : forall out,
  forallb no_tool_image messages = true ->
  foldl tool_result_images_reducer (out, [], []) messages = (out ++ messages, [], []).
Proof.
  induction messages as [|m messages IH]; intros out Hfree; cbn [foldl].
  - rewrite app_nil_r. reflexivity.
  - cbn [forallb] in Hfree. apply andb_true_iff in Hfree as [Hm Hrest].
    assert (Hstep : tool_result_images_reducer (out, [], []) m = (out ++ [m], [], [])).
    { unfold no_tool_image in Hm. apply orb_true_iff in Hm as [Hm | Hm].
      - apply negb_true_iff in Hm. rewrite images_reducer_other by exact Hm. reflexivity.
      - destruct m as [| | |[s|l] id fn err]; try reflexivity.
        unfold images_of in Hm. cbn [content] in Hm.
        unfold tool_result_images_reducer.
        destruct (existsb is_image l) eqn:Hex; [|reflexivity].
        apply existsb_is_image_filter in Hex.
        destruct (List.filter is_image l); [contradiction | discriminate]. }
    rewrite Hstep, IH by exact Hrest. rewrite <- app_assoc. reflexivity.
Qed.

(** X9: the image extraction loses no image and keeps the images in
    order: the image items of the output, read message by message, are
    those of the input. *)
Theorem tool_result_images_keeps_all_images (messages : list ChatMessage) :
  all_images (tool_result_images_as_user_message messages) = all_images messages.
Proof.
  unfold tool_result_images_as_user_message.
  pose proof (images_reducer_invariant messages [] [] [] [] eq_refl eq_refl eq_refl)
    as Hinv.
  destruct (foldl tool_result_images_reducer ([], [], []) messages)
    as [[out pending] ids].
  destruct Hinv as (Himg & Hpend & _).
  rewrite all_images_maybe_adding by exact Hpend. exact Himg.
Qed.

(** X10: after the image extraction no tool message holds an image, and
    extracting a second time changes nothing. *)
Theorem tool_result_images_leaves_no_tool_image (messages : list ChatMessage) :
  forallb no_tool_image (tool_result_images_as_user_message messages) = true
  /\ tool_result_images_as_user_message (tool_result_images_as_user_message messages)
     = tool_result_images_as_user_message messages.
Proof.
  assert (Hfree : forallb no_tool_image (tool_result_images_as_user_message messages)
                  = true).
  { unfold tool_result_images_as_user_message.
    pose proof (images_reducer_invariant messages [] [] [] [] eq_refl eq_refl eq_refl)
      as Hinv.
    destruct (foldl tool_result_images_reducer ([], [], []) messages)
      as [[out pending] ids].
    destruct Hinv as (_ & _ & Hout).
    destruct pending; cbn [maybe_adding_user_message]; [exact Hout|].
    rewrite forallb_app, Hout. reflexivity. }
  split; [exact Hfree|].
  unfold tool_result_images_as_user_message at 1.
  rewrite (images_reducer_nothing_to_move _ [] Hfree). reflexivity.
Qed.

(** A message list in which no tool message holds an image goes
    through the image extraction unchanged. *)
Theorem tool_result_images_nothing_to_move (messages : list ChatMessage) :
  forallb no_tool_image messages = true ->
  tool_result_images_as_user_message messages = messages.
Proof.
  intros Hfree. unfold tool_result_images_as_user_message.
  rewrite (images_reducer_nothing_to_move _ [] Hfree). reflexivity.
Qed.

Lemma tool_result_images_nothing_to_move_witness :
  tool_result_images_as_user_message
    [ChatMessageUser (Items [ContentImage "a.png"]) None;
     tool_output "done" "bash";
     ChatMessageTool (Items [ContentText "ok"]) (Some "id") (Some "bash") None]
  = [ChatMessageUser (Items [ContentImage "a.png"]) None;
     tool_output "done" "bash";
     ChatMessageTool (Items [ContentText "ok"]) (Some "id") (Some "bash") None].
Proof.
  apply (tool_result_images_nothing_to_move
           [ChatMessageUser (Items [ContentImage "a.png"]) None;
            tool_output "done" "bash";
            ChatMessageTool (Items [ContentText "ok"]) (Some "id") (Some "bash") None]).
  reflexivity.
Defined.

(** ** Collapsing: what the result looks like *)

Section CollapseShape.

Variable message_type : MessageType.

Lemma separated_snoc l a :
  separated message_type (l ++ [a])
  = separated message_type l
    && match last l with
       | Some b => negb (isinstance b message_type && isinstance a message_type)
       | None => true
       end.
Proof.
  induction l as [|b l IH]; [reflexivity|].
  destruct l as [|c l].
  - cbn. rewrite !andb_true_r. reflexivity.
  - change ((b :: c :: l) ++ [a]) with (b :: (c :: l) ++ [a]).
    change (last (b :: c :: l)) with (last (c :: l)).
    cbn [separated app] in *. rewrite IH. rewrite !andb_assoc. reflexivity.
Qed.

Lemma last_rev (l : list ChatMessage) : last (rev l) = head l.
Proof. destruct l as [|a l]; [reflexivity|]. cbn [rev]. apply last_snoc. Qed.

Lemma separated_rev l :
  separated message_type (rev l) = separated message_type l.
Proof.
  induction l as [|a l IH]; [reflexivity|].
  cbn [rev]. rewrite separated_snoc, IH, last_rev.
  destruct l as [|b l]; cbn [head separated].
  - reflexivity.
  - rewrite (andb_comm (isinstance b message_type)). apply andb_comm.
Qed.

Lemma separated_neighbours l :
  separated message_type l = true
  <-> forall i a b,
        l !! i = Some a -> l !! S i = Some b ->
        isinstance a message_type && isinstance b message_type = false.
Proof.
  induction l as [|x l IH].
  - split; [intros _ i a b H; discriminate | reflexivity].
  - cbn [separated]. rewrite andb_true_iff, IH. split.
    + intros [Hhead Hrest] [|i] a b Ha Hb.
      * injection Ha as <-. destruct l as [|y l]; [discriminate|].
        injection Hb as <-. apply negb_true_iff, Hhead.
      * exact (Hrest i a b Ha Hb).
    + intros Hall. split.
      * destruct l as [|y l]; [reflexivity|].
        apply negb_true_iff. exact (Hall 0%nat x y eq_refl eq_refl).
      * intros i a b Ha Hb. exact (Hall (S i) a b Ha Hb).
Qed.

(** X11: in a collapsed list no two neighbours are both of the collapsed
    class. *)
Theorem collapse_leaves_no_neighbours (messages : list ChatMessage) (i : nat)
    (a b : ChatMessage) :
  collapse message_type messages !! i = Some a ->
  collapse message_type messages !! S i = Some b ->
  isinstance a message_type && isinstance b message_type = false.
Proof.
  apply separated_neighbours. rewrite <- separated_rev. apply collapse_separated.
Qed.

(** X12: a list in which no two neighbours are both of the collapsed class
    (so any list without messages of that class, and any strictly
    alternating conversation) is returned as it is. *)
Theorem collapse_unchanged_without_neighbours (messages : list ChatMessage) :
  (forall i a b,
     messages !! i = Some a -> messages !! S i = Some b ->
     isinstance a message_type && isinstance b message_type = false) ->
  collapse message_type messages = messages.
Proof.
  intros Hsep. apply separated_neighbours in Hsep.
  rewrite collapse_reversed, foldl_step_reversed_separated.
  - rewrite app_nil_r. apply rev_involutive.
  - rewrite app_nil_r, separated_rev. exact Hsep.
Qed.

End CollapseShape.

Lemma collapse_leaves_no_neighbours_witness :
  isinstance (ChatMessageUser (Str ("a" +:+ nl +:+ "b")) None) TUser
  && isinstance (ChatMessageAssistant (Str "c") None None) TUser = false.
Proof.
  apply (collapse_leaves_no_neighbours TUser
           [ChatMessageUser (Str "a") None; ChatMessageUser (Str "b") None;
            ChatMessageAssistant (Str "c") None None] 0%nat);
    reflexivity.
Defined.

Lemma collapse_unchanged_without_neighbours_witness :
  collapse_consecutive_user_messages
    [ChatMessageUser (Str "a") None; ChatMessageAssistant (Str "b") None None;
     ChatMessageAssistant (Str "c") None None; ChatMessageUser (Str "d") None]
  = [ChatMessageUser (Str "a") None; ChatMessageAssistant (Str "b") None None;
     ChatMessageAssistant (Str "c") None None; ChatMessageUser (Str "d") None].
Proof.
  apply (collapse_unchanged_without_neighbours TUser
           [ChatMessageUser (Str "a") None; ChatMessageAssistant (Str "b") None None;
            ChatMessageAssistant (Str "c") None None; ChatMessageUser (Str "d") None]).
  intros [|[|[|[|i]]]] a b Ha Hb; try discriminate;
    injection Ha as <-; injection Hb as <-; reflexivity.
Defined.

Lemma user_run_fold (rest : list (string * option (list string))) :
  forall (text : string) (ids : option (list string)),
    rest <> [] ->
    foldl user_message_reducer [ChatMessageUser (Str text) ids]
          (map (fun p => ChatMessageUser (Str (fst p)) (snd p)) rest)
    = [ChatMessageUser (Str (PyStr.join nl (text :: map fst rest))) None].
Proof.
  induction rest as [|[s i] rest IH]; intros text ids Hne; [contradiction|].
  cbn [map foldl fst snd].
  assert (Hstep : user_message_reducer [ChatMessageUser (Str text) ids]
                    (ChatMessageUser (Str s) i)
                  = [ChatMessageUser (Str (text +:+ nl +:+ s)) None]) by reflexivity.
  rewrite Hstep. destruct rest as [|p rest].
  - reflexivity.
  - rewrite IH by discriminate. cbn [map]. rewrite !join_cons.
    rewrite !append_assoc'. reflexivity.
Qed.

(** X13: a run of two or more user messages with string contents
    collapses to a single user message whose content is the contents
    joined by newlines and whose [tool_call_id] is unset, whatever ids the
    messages of the run carried. *)
Theorem collapse_user_text_run
    (first second : string * option (list string))
    (rest : list (string * option (list string))) :
  collapse_consecutive_user_messages
    (map (fun p => ChatMessageUser (Str (fst p)) (snd p)) (first :: second :: rest))
  = [ChatMessageUser
       (Str (PyStr.join nl (map fst (first :: second :: rest)))) None].
Proof.
  unfold collapse_consecutive_user_messages.
  rewrite (map_cons (fun p => ChatMessageUser (Str (fst p)) (snd p)) first).
  cbn [foldl].
  change (user_message_reducer [] (ChatMessageUser (Str (fst first)) (snd first)))
    with [ChatMessageUser (Str (fst first)) (snd first)].
  apply user_run_fold. discriminate.
Qed.

(** ** The usage ledger in general *)

(** X14: with the sample ledger initialised, recording a usage always adds
    it to the ledgers and writes the new sample total to the active
    sample; it raises the token limit error, carrying that total and the
    limit, exactly when a limit is set and the new total is above it. The
    usage that trips the limit is in the ledger all the same. *)
Theorem record_model_usage_threshold
    (model : string) (usage : ModelUsage) (w : World) (d : gmap string ModelUsage) :
  sample_model_usage_context_var w = Some d ->
  let total := sample_total_tokens w + total_tokens usage in
  sample_total_tokens (recorded model usage w) = total
  /\ active_sample_total_tokens (recorded model usage w) = total
  /\ (forall limit,
        active_sample_token_limit w = Some limit -> total > limit ->
        record_model_usage model usage w
        = Some (inl (SampleLimitExceededError "token" total limit),
                recorded model usage w))
  /\ (forall limit,
        active_sample_token_limit w = Some limit -> total <= limit ->
        record_model_usage model usage w = Some (inr tt, recorded model usage w))
  /\ (active_sample_token_limit w = None ->
      record_model_usage model usage w = Some (inr tt, recorded model usage w)).
Proof.
  intros Hd total.
  pose proof (sample_total_tokens_ledgers_updated model usage w d Hd) as Hsum.
  split; [exact (sample_total_tokens_recorded model usage w d Hd)|].
  split; [exact Hsum|].
  repeat split.
  - intros limit Hlimit Hover. rewrite record_model_usage_recorded, Hlimit, Hsum.
    fold total. destruct (Z.gtb_spec total limit); [reflexivity | lia].
  - intros limit Hlimit Hunder. rewrite record_model_usage_recorded, Hlimit, Hsum.
    fold total. destruct (Z.gtb_spec total limit); [lia | reflexivity].
  - intros Hlimit. rewrite record_model_usage_recorded, Hlimit. reflexivity.
Qed.

Lemma record_model_usage_threshold_witness :
  record_model_usage "mockllm/model" example_usage example_world
  = Some (inr tt, recorded "mockllm/model" example_usage example_world).
Proof.
  destruct (record_model_usage_threshold "mockllm/model" example_usage
              example_world ∅ eq_refl) as (_ & _ & _ & Hunder & _).
  apply (Hunder 100); [reflexivity | vm_compute; discriminate].
Defined.

(** X15: while [init_sample_model_usage] has not run in the context, the
    sample ledger takes nothing: it stays unset, the sample total stays 0,
    and so no usage trips a token limit that is not negative. *)
Theorem record_model_usage_uninitialised
    (model : string) (usage : ModelUsage) (w : World) (limit : Z) :
  sample_model_usage_context_var w = None ->
  active_sample_token_limit w = Some limit ->
  0 <= limit ->
  exists w',
    record_model_usage model usage w = Some (inr tt, w')
    /\ sample_model_usage_context_var w' = None
    /\ sample_total_tokens w' = 0
    /\ active_sample_total_tokens w' = 0.
Proof.
  intros Hnone Hlimit Hpos. exists (recorded model usage w).
  assert (Hzero : sample_total_tokens (ledgers_updated model usage w) = 0).
  { unfold sample_total_tokens, sample_model_usage, ledgers_updated.
    rewrite Hnone. reflexivity. }
  rewrite record_model_usage_recorded, Hlimit, Hzero.
  destruct (Z.gtb_spec 0 limit); [lia|].
  split; [reflexivity|]. split.
  - unfold recorded, ledgers_updated. rewrite Hnone. reflexivity.
  - split; [exact Hzero | exact Hzero].
Qed.

Lemma record_model_usage_uninitialised_witness :
  exists w',
    record_model_usage "mockllm/model" example_usage
      (mkWorld None None (mkActiveSample None (Some 10) 0 0) None
               GenerateConfig_default [] false 0)
    = Some (inr tt, w')
    /\ sample_model_usage_context_var w' = None
    /\ sample_total_tokens w' = 0
    /\ active_sample_total_tokens w' = 0.
Proof.
  apply (record_model_usage_uninitialised "mockllm/model" example_usage
           (mkWorld None None (mkActiveSample None (Some 10) 0 0) None
                    GenerateConfig_default [] false 0) 10);
    [reflexivity | reflexivity | lia].
Defined.

(** X16: [set_model_usage] touches the entry of its model only: every
    other entry of the ledger stays as it was, and the entry of the model
    holds the old counts (zeros when there was no entry) plus the usage.
    A cache counter that the usage carries is added to the old counter,
    an unset old counter counting as 0; a cache counter that the usage
    does not carry leaves the old counter as it was, so a counter is unset
    afterwards exactly when it was unset before and the usage has none.
    An unset ledger stays unset. *)
Theorem set_model_usage_entry
    (model other : string) (usage : ModelUsage) (d : gmap string ModelUsage) :
  set_model_usage model usage None = None
  /\ exists d',
       set_model_usage model usage (Some d) = Some d'
       /\ (other <> model -> d' !! other = d !! other)
       /\ exists entry,
            d' !! model = Some entry
            /\ let old := default ModelUsage_default (d !! model) in
               input_tokens entry = input_tokens old + input_tokens usage
               /\ output_tokens entry = output_tokens old + output_tokens usage
               /\ total_tokens entry = total_tokens old + total_tokens usage
               /\ (forall n,
                     input_tokens_cache_write usage = Some n ->
                     input_tokens_cache_write entry
                     = Some (default 0 (input_tokens_cache_write old) + n))
               /\ (input_tokens_cache_write usage = None ->
                   input_tokens_cache_write entry = input_tokens_cache_write old)
               /\ (forall n,
                     input_tokens_cache_read usage = Some n ->
                     input_tokens_cache_read entry
                     = Some (default 0 (input_tokens_cache_read old) + n))
               /\ (input_tokens_cache_read usage = None ->
                   input_tokens_cache_read entry = input_tokens_cache_read old)
               /\ (input_tokens_cache_write entry = None
                   <-> input_tokens_cache_write old = None
                       /\ input_tokens_cache_write usage = None)
               /\ (input_tokens_cache_read entry = None
                   <-> input_tokens_cache_read old = None
                       /\ input_tokens_cache_read usage = None).
Proof.
  split; [reflexivity|]. eexists. split; [reflexivity|]. split.
  - intros Hne. apply lookup_insert_ne. congruence.
  - eexists. split; [apply lookup_insert_eq|]. cbv zeta.
    cbn [input_tokens output_tokens total_tokens input_tokens_cache_write
         input_tokens_cache_read].
    split; [reflexivity|]. split; [reflexivity|]. split; [reflexivity|].
    unfold add_optional.
    split; [intros n ->; reflexivity|]. split; [intros ->; reflexivity|].
    split; [intros n ->; reflexivity|]. split; [intros ->; reflexivity|].
    split.
    + destruct (input_tokens_cache_write usage),
        (input_tokens_cache_write (default ModelUsage_default (d !! model)));
        split; try intros [? ?]; try split; congruence.
    + destruct (input_tokens_cache_read usage),
        (input_tokens_cache_read (default ModelUsage_default (d !! model)));
        split; try intros [? ?]; try split; congruence.
Qed.

(** X17: the message limit check raises, with the number of messages and
    the limit, exactly when a limit is set and the input has at least that
    many messages, a string input counting as one; when it raises the
    state is left as it was, and otherwise the number of messages is
    written to the active sample. *)
Theorem handle_sample_message_limit_threshold (input : GenerateInput) (w : World) :
  let total :=
    match input with
    | InputStr _ => 1
    | InputMessages l => Z.of_nat (length l)
    end in
  (forall limit,
     active_sample_message_limit w = Some limit -> total >= limit ->
     handle_sample_message_limit input w
     = Some (inl (SampleLimitExceededError "message" total limit), w))
  /\ (forall limit,
        active_sample_message_limit w = Some limit -> total < limit ->
        handle_sample_message_limit input w
        = Some (inr tt, set_active_sample_total_messages total w))
  /\ (active_sample_message_limit w = None ->
      handle_sample_message_limit input w
      = Some (inr tt, set_active_sample_total_messages total w)).
Proof.
  intros total. unfold handle_sample_message_limit. fold total. run_monad.
  repeat split.
  - intros limit -> Hover. destruct (Z.geb_spec total limit); [reflexivity | lia].
  - intros limit -> Hunder. destruct (Z.geb_spec total limit); [lia | reflexivity].
  - intros ->. reflexivity.
Qed.

Lemma handle_sample_message_limit_threshold_witness :
  handle_sample_message_limit (InputStr "hello")
    (mkWorld None None (mkActiveSample (Some 1) None 0 0) None
             GenerateConfig_default [] false 0)
  = Some (inl (SampleLimitExceededError "message" 1 1),
          mkWorld None None (mkActiveSample (Some 1) None 0 0) None
                  GenerateConfig_default [] false 0).
Proof.
  apply (proj1 (handle_sample_message_limit_threshold (InputStr "hello")
                  (mkWorld None None (mkActiveSample (Some 1) None 0 0) None
                           GenerateConfig_default [] false 0)) 1);
    [reflexivity | lia].
Defined.

(** ** The generate unit: cache, kill switch, returned exceptions *)

Lemma cache_lookup_stored entry output store :
  cache_lookup entry ((entry, output) :: store) = Some output.
Proof. cbn [cache_lookup]. rewrite decide_True by reflexivity. reflexivity. Qed.

(** X18: with caching on, a cache hit returns the stored output and leaves
    the state as it is: the adapter is not called, no usage is recorded
    and the [INSPECT_DISABLE_MODEL_API] switch is not looked at; and once
    an attempt has returned an output, the same attempt run again returns
    that output from the cache, again without any change of state. *)
Theorem generate_unit_cache_round_trip
    (self : Model) (input : list ChatMessage) (tools : list ToolInfo)
    (tool_choice : ToolChoice) (config : GenerateConfig) (cache : CacheArg)
    (w w1 : World) (output : ModelOutput) :
  cache_truthy cache = true ->
  (cache_fetch
     (mkCacheEntry (base_url (Model_api self)) config input (Model_str self)
        (match cache with CacheWith p => p | CacheBool _ => CachePolicy_default end)
        tool_choice tools) w = Some output ->
   generate_unit self input tools tool_choice config cache w = Some (inr output, w))
  /\ (generate_unit self input tools tool_choice config cache w = Some (inr output, w1) ->
      generate_unit self input tools tool_choice config cache w1 = Some (inr output, w1)).
Proof.
  intros Hcache. split; [apply generate_unit_cache_hit, Hcache|].
  set (entry := mkCacheEntry (base_url (Model_api self)) config input (Model_str self)
                  (match cache with CacheWith p => p | CacheBool _ => CachePolicy_default end)
                  tool_choice tools).
  intros Hfirst.
  apply (generate_unit_cache_hit _ _ _ _ _ _ _ _ Hcache). fold entry.
  revert Hfirst. unfold generate_unit, verify_model_apis. run_monad. fold entry.
  rewrite Hcache.
  destruct (cache_fetch entry w) as [existing|] eqn:Hfetch.
  - intros [= <- <-]. exact Hfetch.
  - cbv beta.
    destruct (INSPECT_DISABLE_MODEL_API w
              && negb (ModelName.api (ModelName_of_model self) =? "mockllm")%string);
      [discriminate|].
    cbv beta iota.
    destruct (api_generate (Model_api self) (api_calls w) input tools tool_choice config)
      as [ex | [out | ex] call]; try discriminate.
    cbv beta iota.
    destruct (usage out) as [u|].
    + rewrite record_model_usage_recorded.
      destruct (active_sample_token_limit (count_api_call w)) as [limit|].
      * destruct (sample_total_tokens _ >? limit); [discriminate|].
        intros [= <- <-]. apply cache_lookup_stored.
      * intros [= <- <-]. apply cache_lookup_stored.
    + intros [= <- <-]. apply cache_lookup_stored.
Qed.

Lemma generate_unit_cache_round_trip_witness :
  exists w1,
    generate_unit example_model [] [] choice_none GenerateConfig_default
      (CacheBool true) example_world = Some (inr example_output, w1)
    /\ api_calls w1 = 1%nat
    /\ generate_unit example_model [] [] choice_none GenerateConfig_default
         (CacheBool true) w1 = Some (inr example_output, w1).
Proof.
  exists (cache_store
            (mkCacheEntry None GenerateConfig_default [] (Model_str example_model)
                          CachePolicy_default choice_none [])
            example_output
            (recorded (Model_str example_model) example_usage
                      (count_api_call example_world))).
  split; [vm_compute; reflexivity|]. split; [reflexivity|].
  apply (proj2 (generate_unit_cache_round_trip example_model [] [] choice_none
                  GenerateConfig_default (CacheBool true) example_world _
                  example_output eq_refl)).
  vm_compute. reflexivity.
Defined.

(** X19: with [INSPECT_DISABLE_MODEL_API] set and nothing served from the
    cache, an attempt on a model whose family is not [mockllm] raises
    before the adapter is called, in the state it started from. An attempt
    on a [mockllm] model calls the adapter as if the switch were not set,
    whatever the adapter does: an error it raises is raised, an exception
    it returns is raised inside a [RuntimeError], and an output it returns
    goes on to the usage ledger and the cache; with no token limit that
    output is returned after this one adapter call. *)
Theorem generate_unit_model_api_disabled
    (self : Model) (input : list ChatMessage) (tools : list ToolInfo)
    (tool_choice : ToolChoice) (config : GenerateConfig) (cache : CacheArg)
    (w : World) :
  INSPECT_DISABLE_MODEL_API w = true ->
  cache_unused cache w ->
  (ModelName.api (ModelName_of_model self) <> "mockllm" ->
   generate_unit self input tools tool_choice config cache w
   = Some (inl ModelAPIDisabled, w))
  /\ (ModelName.api (ModelName_of_model self) = "mockllm" ->
      generate_unit self input tools tool_choice config cache w
      = match api_generate (Model_api self) (api_calls w) input tools tool_choice
                           config with
        | Raises ex => Some (inl ex, count_api_call w)
        | Returns (inr ex) call =>
            Some (inl (RuntimeError ex
                         (match call with Some c => request c | None => "" end)),
                  count_api_call w)
        | Returns (inl output) _ =>
            after_call self input tools tool_choice config cache output
                       (count_api_call w)
        end)
  /\ (ModelName.api (ModelName_of_model self) = "mockllm" ->
      forall output call,
        api_generate (Model_api self) (api_calls w) input tools tool_choice config
        = Returns (inl output) call ->
        active_sample_token_limit w = None ->
        exists w',
          generate_unit self input tools tool_choice config cache w
          = Some (inr output, w')
          /\ api_calls w' = S (api_calls w)).
Proof.
  intros Hset Hcache.
  assert (Hmiss : forall e, (if cache_truthy cache then cache_fetch e w else None) = None).
  { intros e. destruct Hcache as [-> | Hempty]; [reflexivity|].
    unfold cache_fetch. rewrite Hempty. destruct (cache_truthy cache); reflexivity. }
  assert (Hmock : ModelName.api (ModelName_of_model self) = "mockllm" ->
            generate_unit self input tools tool_choice config cache w
            = match api_generate (Model_api self) (api_calls w) input tools tool_choice
                                 config with
              | Raises ex => Some (inl ex, count_api_call w)
              | Returns (inr ex) call =>
                  Some (inl (RuntimeError ex
                               (match call with Some c => request c | None => "" end)),
                        count_api_call w)
              | Returns (inl output) _ =>
                  after_call self input tools tool_choice config cache output
                             (count_api_call w)
              end).
  { intros Hfamily. unfold generate_unit, verify_model_apis, after_call. run_monad.
    rewrite Hmiss. cbv beta. rewrite Hset, Hfamily.
    cbn [String.eqb Ascii.eqb Bool.eqb negb andb]. cbv beta iota.
    destruct (api_generate (Model_api self) (api_calls w) input tools tool_choice config)
      as [ex | [output | ex] call]; reflexivity. }
  split; [|split].
  - intros Hfamily. unfold generate_unit, verify_model_apis. run_monad.
    rewrite Hmiss. cbv beta. rewrite Hset.
    destruct (String.eqb_spec (ModelName.api (ModelName_of_model self)) "mockllm");
      [contradiction | reflexivity].
  - exact Hmock.
  - intros Hfamily output call Hreturn Hlimit.
    rewrite (Hmock Hfamily), Hreturn.
    destruct (after_call_no_token_limit self input tools tool_choice config cache
                output (count_api_call w) Hlimit) as (w' & Hafter & Hcalls & _).
    exists w'. split; [exact Hafter | exact Hcalls].
Qed.

Lemma generate_unit_model_api_disabled_witness :
  generate_unit (flaky_model 0 (Returns (inl plain_output) None)) [] [] choice_none
    GenerateConfig_default (CacheBool false) disabled_world
  = Some (inl ModelAPIDisabled, disabled_world)
  /\ exists w',
       generate_unit example_model [hello] [] choice_none GenerateConfig_default
         (CacheBool false) disabled_world
       = Some (inr example_output, w')
       /\ api_calls w' = 1%nat.
Proof.
  split.
  - apply (proj1 (generate_unit_model_api_disabled
                    (flaky_model 0 (Returns (inl plain_output) None)) [] []
                    choice_none GenerateConfig_default (CacheBool false)
                    disabled_world eq_refl ltac:(left; reflexivity))).
    vm_compute. discriminate.
  - apply (proj2 (proj2 (generate_unit_model_api_disabled
                           example_model [hello] [] choice_none GenerateConfig_default
                           (CacheBool false) disabled_world eq_refl
                           ltac:(left; reflexivity)))
             eq_refl example_output None eq_refl eq_refl).
Defined.

(** ** The retry loop in general *)

Lemma google_is_rate_limit_RuntimeError ex request :
  google_is_rate_limit (RuntimeError ex request) = false.
Proof. reflexivity. Qed.

(** Every attempt ends, and calls the adapter at most once. *)
Lemma generate_unit_total self input tools tool_choice config cache w :
  exists r w',
    generate_unit self input tools tool_choice config cache w = Some (r, w')
    /\ (api_calls w <= api_calls w' <= S (api_calls w))%nat.
Proof.
  unfold generate_unit, verify_model_apis. run_monad.
  destruct (if cache_truthy cache then _ else None) as [existing|].
  { eexists. eexists. split; [reflexivity | lia]. }
  cbv beta.
  destruct (INSPECT_DISABLE_MODEL_API w && _).
  { eexists. eexists. split; [reflexivity | lia]. }
  cbv beta iota.
  destruct (api_generate (Model_api self) (api_calls w) input tools tool_choice config)
    as [ex | [out | ex] call]; cbv beta iota;
    try (eexists; eexists; split; [reflexivity | cbn [count_api_call api_calls]; lia]).
  destruct (usage out) as [u|].
  - rewrite record_model_usage_recorded.
    destruct (match active_sample_token_limit (count_api_call w) with
              | Some _ => _ | None => _ end) as [ex|[]];
      [eexists; eexists; split; [reflexivity | cbn; lia]|].
    destruct (cache_truthy cache);
      eexists; eexists; (split; [reflexivity | cbn; lia]).
  - destruct (cache_truthy cache);
      eexists; eexists; (split; [reflexivity | cbn; lia]).
Qed.

Section RetryInGeneral.

Variable seconds_since_start : nat -> Q.

Lemma stop_fires_from_max_retries config n attempt :
  max_retries config = Some n ->
  n <> 0 ->
  n <= Z.of_nat attempt ->
  stop_fires seconds_since_start (retry_stop config) attempt = true.
Proof.
  intros Hmax Hn Hle. unfold retry_stop. rewrite Hmax.
  cbn [truthy_int default from_option id].
  destruct (Z.eqb_spec n 0); [contradiction|]. cbn [negb].
  assert (Hfire : (n <=? Z.of_nat attempt) = true) by (apply Z.leb_le; exact Hle).
  destruct (truthy_int (timeout config)); cbn [andb stop_fires]; rewrite Hfire;
    [apply orb_true_r | reflexivity].
Qed.

Lemma retrying_bounded self input tools tool_choice config cache n :
  max_retries config = Some n ->
  n <> 0 ->
  forall remaining attempt fuel w,
    n <= Z.of_nat (attempt + remaining) ->
    (remaining < fuel)%nat ->
    exists r w',
      retrying seconds_since_start (retry_stop config) (is_rate_limit (Model_api self))
        (generate_unit self input tools tool_choice config cache) fuel attempt w
      = Some (r, w')
      /\ (api_calls w' <= api_calls w + S remaining)%nat.
Proof.
  intros Hmax Hn remaining.
  induction remaining as [|remaining IH]; intros attempt fuel w Hle Hfuel;
    (destruct fuel as [|fuel]; [lia|]); cbn [retrying];
    destruct (generate_unit_total self input tools tool_choice config cache w)
      as (r & w1 & Hunit & Hcalls); rewrite Hunit;
    destruct r as [ex | out];
    try (eexists; eexists; split; [reflexivity | lia]);
    (destruct (is_rate_limit (Model_api self) ex);
     [|eexists; eexists; split; [reflexivity | lia]]).
  - rewrite (stop_fires_from_max_retries config n attempt Hmax Hn) by lia.
    eexists. eexists. split; [reflexivity | lia].
  - destruct (stop_fires seconds_since_start (retry_stop config) attempt).
    + eexists. eexists. split; [reflexivity | lia].
    + destruct (IH (S attempt) fuel w1) as (r & w' & Hrest & Hbound); [lia | lia |].
      exists r, w'. split; [exact Hrest | lia].
Qed.

(** X20: with [max_retries = n >= 1] the retry loop always ends, whatever
    the adapter does and whether or not a timeout is set as well: [n]
    attempts of fuel are enough for a result, and the adapter has then been
    called at most [n] times. *)
Theorem retry_loop_bounded_by_max_retries
    (self : Model) (input : list ChatMessage) (tools : list ToolInfo)
    (tool_choice : ToolChoice) (config : GenerateConfig) (cache : CacheArg)
    (n fuel : nat) (w : World) :
  max_retries config = Some (Z.of_nat n) ->
  (1 <= n <= fuel)%nat ->
  exists r w',
    retrying seconds_since_start (retry_stop config) (is_rate_limit (Model_api self))
      (generate_unit self input tools tool_choice config cache) fuel 1 w
    = Some (r, w')
    /\ (api_calls w' <= api_calls w + n)%nat.
Proof.
  intros Hmax Hn.
  destruct (retrying_bounded self input tools tool_choice config cache (Z.of_nat n)
              Hmax ltac:(lia) (n - 1)%nat 1%nat fuel w ltac:(lia) ltac:(lia))
    as (r & w' & Hres & Hbound).
  exists r, w'. split; [exact Hres | lia].
Qed.

(** X21: with neither a timeout nor [max_retries] set (or set to 0), the
    loop has no bound of its own: against an adapter that raises a
    rate-limit error at every call, no number of attempts gives a result. *)
Theorem retry_loop_unbounded
    (self : Model) (input : list ChatMessage) (tools : list ToolInfo)
    (tool_choice : ToolChoice) (config : GenerateConfig) (cache : CacheArg)
    (errors : nat -> PyException) (fuel : nat) (w : World) :
  truthy_int (timeout config) = false ->
  truthy_int (max_retries config) = false ->
  cache_unused cache w ->
  INSPECT_DISABLE_MODEL_API w = false ->
  (forall call,
     api_generate (Model_api self) call input tools tool_choice config
     = Raises (errors call)) ->
  (forall call, is_rate_limit (Model_api self) (errors call) = true) ->
  retrying seconds_since_start (retry_stop config) (is_rate_limit (Model_api self))
    (generate_unit self input tools tool_choice config cache) fuel 1 w
  = None.
Proof.
  intros Htimeout Hmax Hcache Hapi Hraise Hrate.
  rewrite (retry_stop_unbounded config Htimeout Hmax).
  generalize 1%nat as attempt. revert w Hcache Hapi.
  induction fuel as [|fuel IH]; intros w Hcache Hapi attempt; [reflexivity|].
  cbn [retrying].
  rewrite (generate_unit_calls_adapter _ _ _ _ _ _ w Hcache Hapi), Hraise, Hrate.
  cbn [stop_fires]. apply IH.
  - destruct Hcache as [H | H]; [left | right]; exact H.
  - exact Hapi.
Qed.

(** X22: with a timeout set, a rate-limit error of an attempt that ends
    when the timeout has passed is not retried, whatever [max_retries]
    says: the loop raises the [RetryError] around it. *)
Theorem retry_loop_stops_after_timeout
    (self : Model) (input : list ChatMessage) (tools : list ToolInfo)
    (tool_choice : ToolChoice) (config : GenerateConfig) (cache : CacheArg)
    (limit : Z) (fuel attempt : nat) (w w' : World) (ex : PyException) :
  timeout config = Some limit ->
  limit <> 0 ->
  (inject_Z limit <= seconds_since_start attempt)%Q ->
  generate_unit self input tools tool_choice config cache w = Some (inl ex, w') ->
  is_rate_limit (Model_api self) ex = true ->
  retrying seconds_since_start (retry_stop config) (is_rate_limit (Model_api self))
    (generate_unit self input tools tool_choice config cache) (S fuel) attempt w
  = Some (inl (RetryError ex), w').
Proof.
  intros Htimeout Hlimit Hpassed Hunit Hrate.
  apply retrying_stopped; [exact Hunit | exact Hrate |].
  unfold retry_stop. rewrite Htimeout. cbn [truthy_int default from_option id].
  destruct (Z.eqb_spec limit 0); [contradiction|]. cbn [negb andb].
  assert (Hfire : Qle_bool (inject_Z limit) (seconds_since_start attempt) = true)
    by (apply Qle_bool_iff; exact Hpassed).
  destruct (truthy_int (max_retries config)); cbn [stop_fires]; rewrite Hfire;
    reflexivity.
Qed.

(** X23: an exception that the adapter returns instead of raising reaches
    the retry predicate wrapped in the [RuntimeError] of line 459; when the
    predicate rejects that wrapper, as [GoogleAPI.is_rate_limit] does for
    every exception and request, the loop ends after this one call even
    if the predicate accepts the exception itself. *)
Theorem returned_exception_is_not_retried
    (self : Model) (input : list ChatMessage) (tools : list ToolInfo)
    (tool_choice : ToolChoice) (config : GenerateConfig) (cache : CacheArg)
    (fuel attempt : nat) (w : World) (ex : PyException) (call : option ModelCall) :
  cache_unused cache w ->
  INSPECT_DISABLE_MODEL_API w = false ->
  api_generate (Model_api self) (api_calls w) input tools tool_choice config
  = Returns (inr ex) call ->
  let wrapped :=
    RuntimeError ex (match call with Some c => request c | None => "" end) in
  google_is_rate_limit wrapped = false
  /\ (is_rate_limit (Model_api self) wrapped = false ->
      retrying seconds_since_start (retry_stop config) (is_rate_limit (Model_api self))
        (generate_unit self input tools tool_choice config cache) (S fuel) attempt w
      = Some (inl wrapped, count_api_call w)).
Proof.
  intros Hcache Hapi Hreturn wrapped. split; [reflexivity|].
  intros Hreject. apply retrying_not_retryable; [|exact Hreject].
  rewrite (generate_unit_calls_adapter _ _ _ _ _ _ w Hcache Hapi), Hreturn.
  reflexivity.
Qed.

(** With an empty tool list the tool choice makes no difference:
    every choice runs as the choice ["none"] does. *)
Theorem generate_without_tools_ignores_tool_choice
    (fuel : nat) (self : Model) (input : list ChatMessage)
    (tool_choice : option ToolChoice) (config : GenerateConfig) (cache : CacheArg) :
  _generate seconds_since_start fuel self input [] tool_choice config cache
  = _generate seconds_since_start fuel self input [] (Some choice_none) config cache.
Proof.
  unfold _generate. cbv zeta.
  destruct tool_choice as [[| | |name]|]; cbn [default from_option id tools_info map];
    rewrite ?filter_nil; cbn [length Nat.eqb orb];
    rewrite ?orb_true_r; destruct (tools_required (Model_api self)); reflexivity.
Qed.

End RetryInGeneral.

Lemma retry_loop_bounded_by_max_retries_witness :
  exists r w',
    retrying no_clock (retry_stop (with_max_retries 3)) google_is_rate_limit
      (generate_unit always_limited_model [] [] choice_none (with_max_retries 3)
         (CacheBool false)) 3 1 quiet_world
    = Some (r, w')
    /\ (api_calls w' <= api_calls quiet_world + 3)%nat.
Proof.
  apply (retry_loop_bounded_by_max_retries no_clock always_limited_model [] []
           choice_none (with_max_retries 3) (CacheBool false) 3 3 quiet_world);
    [reflexivity | lia].
Defined.

Lemma retry_loop_unbounded_witness :
  retrying no_clock (retry_stop (with_max_retries 0)) google_is_rate_limit
    (generate_unit always_limited_model [] [] choice_none (with_max_retries 0)
       (CacheBool false)) 40 1 quiet_world
  = None.
Proof.
  apply (retry_loop_unbounded no_clock always_limited_model [] [] choice_none
           (with_max_retries 0) (CacheBool false) (fun _ => rate_limit_error) 40
           quiet_world);
    first [reflexivity | left; reflexivity | intros; reflexivity].
Defined.

Lemma retry_loop_stops_after_timeout_witness :
  retrying ten_seconds (retry_stop (with_timeout 5 (Some 100))) google_is_rate_limit
    (generate_unit always_limited_model [] [] choice_none (with_timeout 5 (Some 100))
       (CacheBool false)) 1 1 quiet_world
  = Some (inl (RetryError rate_limit_error), count_api_call quiet_world).
Proof.
  apply (retry_loop_stops_after_timeout ten_seconds always_limited_model [] []
           choice_none (with_timeout 5 (Some 100)) (CacheBool false) 5 0 1
           quiet_world (count_api_call quiet_world) rate_limit_error);
    [reflexivity | lia | unfold ten_seconds, Qle; cbn; lia | reflexivity | reflexivity].
Defined.

Lemma returned_exception_is_not_retried_witness :
  retrying no_clock (retry_stop GenerateConfig_default) google_is_rate_limit
    (generate_unit (flaky_model 0 (Returns (inr rate_limit_error) None)) [] []
       choice_none GenerateConfig_default (CacheBool false)) 1 1 quiet_world
  = Some (inl (RuntimeError rate_limit_error ""), count_api_call quiet_world).
Proof.
  apply (proj2 (returned_exception_is_not_retried no_clock
                  (flaky_model 0 (Returns (inr rate_limit_error) None)) [] []
                  choice_none GenerateConfig_default (CacheBool false) 0 1
                  quiet_world rate_limit_error None
                  ltac:(left; reflexivity) eq_refl eq_refl)).
  reflexivity.
Defined.

(** ** Models that are not the active model *)

(** X24: on a model that is not the active model the message limit is not
    looked at and the number of messages is not recorded: with one output
    coming from the adapter (no cache hit, the model API enabled, no token
    limit), [generate] returns it however many messages the input has and
    whatever the limit is. *)
Theorem generate_on_other_model_skips_message_limit
    (seconds_since_start : nat -> Q)
    (fuel : nat) (self : Model) (input : GenerateInput)
    (tools : list ToolArg) (tool_choice : option ToolChoice)
    (config : GenerateConfig) (cache : CacheArg) (w : World)
    (output : ModelOutput) (call : option ModelCall) :
  active_model_context_var w <> Some (model_id self) ->
  cache_unused cache w ->
  INSPECT_DISABLE_MODEL_API w = false ->
  active_sample_token_limit w = None ->
  (forall inp tls tc cfg,
     api_generate (Model_api self) (api_calls w) inp tls tc cfg
     = Returns (inl output) call) ->
  exists w',
    generate seconds_since_start (S fuel) self input tools tool_choice config cache w
    = Some (inr output, w')
    /\ api_calls w' = S (api_calls w)
    /\ active_sample_total_messages w' = active_sample_total_messages w.
Proof.
  intros Hother Hcache Hapi Htokens Hanswer.
  unfold generate. run_monad.
  rewrite bool_decide_eq_false_2 by exact Hother. cbv beta iota.
  unfold _generate. cbv zeta.
  match goal with
  | |- context [retrying _ ?stop ?retry
                  (generate_unit ?s ?i ?t ?tc ?c ?ca) (S fuel) 1 ?w1] =>
      destruct (after_call_no_token_limit s i t tc c ca output (count_api_call w1))
        as (w' & Hafter & Hcalls & Hmessages); [exact Htokens|];
      exists w'; split; [|split]
  end.
  - apply retrying_returns.
    rewrite generate_unit_calls_adapter; [| exact Hcache | exact Hapi].
    rewrite Hanswer. exact Hafter.
  - rewrite Hcalls. reflexivity.
  - rewrite Hmessages. reflexivity.
Qed.

Lemma generate_on_other_model_skips_message_limit_witness :
  exists w',
    generate no_clock 1 example_model
      (InputMessages [hello; hello; hello; hello; hello; hello]) [] None
      GenerateConfig_default (CacheBool false) limited_world
    = Some (inr example_output, w')
    /\ api_calls w' = 1%nat
    /\ active_sample_total_messages w' = 0.
Proof.
  apply (generate_on_other_model_skips_message_limit no_clock 0 example_model
           (InputMessages [hello; hello; hello; hello; hello; hello]) [] None
           GenerateConfig_default (CacheBool false) limited_world
           example_output None);
    [discriminate | left; reflexivity | reflexivity | reflexivity
    | intros; reflexivity].
Defined.

(** ** Model resolution and its memo table *)

Lemma map_filter_all {A} (P : string * A -> Prop) `{!forall x, Decision (P x)}
    (m : gmap string A) :
  (forall i x, m !! i = Some x -> P (i, x)) -> filter P m = m.
Proof.
  intros Hall. apply map_eq. intros i. apply option_eq. intros x.
  rewrite map_lookup_filter_Some. split; [intros [Hx _]; exact Hx|].
  intros Hx. split; [exact Hx | apply Hall, Hx].
Qed.

(** What [cached_model] leaves in the table: the entries of models that
    are not context bound, all of them and nothing else. *)
Lemma cached_model_table key r k ref :
  _models (snd (cached_model key r)) !! k = Some ref
  <-> _models r !! k = Some ref /\ context_bound r ref = false.
Proof. unfold cached_model. cbn [snd with_models _models]. apply map_lookup_filter_Some. Qed.

Lemma cached_model_again key r :
  cached_model key (snd (cached_model key r)) = cached_model key r.
Proof.
  unfold cached_model. cbn [snd with_models _models].
  assert (Hsame :
    filter (fun entry => context_bound
                           (with_models (filter (fun entry => context_bound r (snd entry) = false)
                                                (_models r)) r) (snd entry) = false)
           (filter (fun entry => context_bound r (snd entry) = false) (_models r))
    = filter (fun entry => context_bound r (snd entry) = false) (_models r)).
  { apply map_filter_all. intros i x Hx. apply map_lookup_filter_Some in Hx.
    exact (proj2 Hx). }
  rewrite Hsame. reflexivity.
Qed.

Section GetModelProperties.

Variable registry : list (string * ModelAPIType).
Variable config_json : GenerateConfig -> string.
Variable args_str : ModelArgs -> string.

(** X25: a memoized [get_model] is stable: when a call for a model string
    outside the [mockllm] family has returned a model, the same call made
    again returns the same [Model] object and changes nothing, so no
    second adapter is constructed. *)
Theorem get_model_memoized_again
    (model : string) (config : GenerateConfig) (base_url api_key : option string)
    (model_args : ModelArgs) (r r1 : Resolution) (ref : nat) :
  String.prefix "mockllm/" model = false ->
  get_model registry config_json args_str (SpecStr model) config base_url api_key
            true model_args r = (inr ref, r1) ->
  get_model registry config_json args_str (SpecStr model) config base_url api_key
            true model_args r1 = (inr ref, r1).
Proof.
  intros Hmock. cbn [get_model]. unfold get_model_str. rewrite Hmock.
  set (key := model_cache_key config_json args_str model config base_url api_key
                              model_args).
  pose proof (cached_model_again key r) as Hagain.
  destruct (cached_model key r) as [cached r0] eqn:Hcached. cbn [snd] in Hagain.
  destruct cached as [hit|].
  - intros [= <- <-]. rewrite Hagain. reflexivity.
  - destruct (if (1 <? length (PyStr.split "/" model))%nat then _ else _)
      as [api_name name].
    destruct (modelapi_types registry api_name) as [|modelapi_type rest];
      [discriminate|].
    intros [= <- <-].
    set (m := mkModelObject _ false false).
    set (r2 := mkResolution _ _ _ _ _).
    assert (Hhit : cached_model key r2 = (Some (next_object r0), r2)).
    { unfold cached_model.
      assert (Hall : filter (fun entry => context_bound r2 (snd entry) = false)
                            (_models r2) = _models r2).
      { apply map_filter_all. intros k x Hk. cbn [snd].
        unfold context_bound, r2. unfold r2 in Hk. cbn [objects _models] in *.
        destruct (decide (x = next_object r0)) as [->|Hne].
        - rewrite lookup_insert_eq. reflexivity.
        - rewrite lookup_insert_ne by congruence.
          destruct (decide (k = key)) as [->|Hk'].
          + rewrite lookup_insert_eq in Hk. congruence.
          + rewrite lookup_insert_ne in Hk by congruence.
            assert (Hin : _models (snd (cached_model key r)) !! k = Some x)
              by (rewrite Hcached; exact Hk).
            apply cached_model_table in Hin as [_ Hunbound].
            unfold context_bound in Hunbound.
            assert (Hobj : objects r0 = objects r).
            { change r0 with (snd (None : option nat, r0)). rewrite <- Hcached.
              reflexivity. }
            rewrite Hobj. exact Hunbound. }
      rewrite Hall. unfold r2 at 1. cbn [_models]. rewrite lookup_insert_eq.
      reflexivity. }
    rewrite Hhit. reflexivity.
Qed.

End GetModelProperties.

Section GetModelEviction.

Variable registry : list (string * ModelAPIType).
Variable config_json : GenerateConfig -> string.
Variable args_str : ModelArgs -> string.

(** X26: a memoized model that has been entered as a context manager is
    not served again: [__aenter__] marks the object the memo table refers
    to, the next [get_model] with the same arguments sweeps its entries out
    of the table, constructs a new [Model], which is not context bound,
    and memoizes that one under the key. *)
Theorem get_model_after_aenter
    (model : string) (config : GenerateConfig) (base_url api_key : option string)
    (model_args : ModelArgs) (r1 : Resolution) (ref : nat) (object : ModelObject) :
  String.prefix "mockllm/" model = false ->
  modelapi_types registry (fst (ModelName._parse_model model)) <> [] ->
  _models r1 !! model_cache_key config_json args_str model config base_url api_key
                                model_args = Some ref ->
  objects r1 !! ref = Some object ->
  (ref < next_object r1)%nat ->
  exists r3,
    get_model registry config_json args_str (SpecStr model) config base_url api_key
              true model_args (__aenter__ ref r1)
    = (inr (next_object r1), r3)
    /\ next_object r1 <> ref
    /\ _models r3 !! model_cache_key config_json args_str model config base_url
                                     api_key model_args
       = Some (next_object r1)
    /\ context_bound r3 (next_object r1) = false
    /\ context_bound r3 ref = true
    /\ forall k, _models r3 !! k <> Some ref.
Proof.
  intros Hmock Hregistry Hmemo Hobject Hfresh.
  set (key := model_cache_key config_json args_str model config base_url api_key
                              model_args) in *.
  assert (Hbound : context_bound (__aenter__ ref r1) ref = true).
  { unfold context_bound, __aenter__. cbn [objects].
    rewrite lookup_alter_eq, Hobject. reflexivity. }
  cbn [get_model]. unfold get_model_str. rewrite Hmock. fold key.
  change (if (1 <? length (PyStr.split "/" model))%nat
          then (Some (hd "" (PyStr.split "/" model)),
                PyStr.join "/" (tail (PyStr.split "/" model)))
          else (None, model))
    with (ModelName._parse_model model).
  destruct (ModelName._parse_model model) as [api_name name]. cbn [fst] in Hregistry.
  unfold cached_model.
  set (kept := filter (fun entry => context_bound (__aenter__ ref r1) (snd entry) = false)
                      (_models (__aenter__ ref r1))).
  assert (Hswept : forall k, kept !! k <> Some ref).
  { intros k Hk. apply map_lookup_filter_Some in Hk as [_ Hk]. cbn [snd] in Hk.
    congruence. }
  destruct (kept !! key) as [hit|] eqn:Hkey.
  { apply map_lookup_filter_Some in Hkey as [Hin Hunbound].
    cbn [__aenter__ _models] in Hin. cbn [snd] in Hunbound.
    rewrite Hmemo in Hin. injection Hin as <-. congruence. }
  destruct (modelapi_types registry api_name) as [|modelapi_type rest];
    [contradiction|].
  eexists. split; [reflexivity|].
  cbn [with_models __aenter__ next_object _models objects].
  split; [lia|]. split; [apply lookup_insert_eq|]. split.
  - unfold context_bound. cbn [objects]. rewrite lookup_insert_eq. reflexivity.
  - split.
    + unfold context_bound. cbn [objects].
      rewrite lookup_insert_ne by lia. rewrite lookup_alter_eq, Hobject. reflexivity.
    + intros k Hk. destruct (decide (k = key)) as [->|Hne].
      * rewrite lookup_insert_eq in Hk. injection Hk as Hk. lia.
      * rewrite lookup_insert_ne in Hk by congruence. exact (Hswept k Hk).
Qed.

End GetModelEviction.

Lemma get_model_memoized_again_witness :
  let r1 := snd (get_model example_registry no_json no_args (SpecStr "google/gemini")
                           GenerateConfig_default None None true [] empty_resolution) in
  get_model example_registry no_json no_args (SpecStr "google/gemini")
            GenerateConfig_default None None true [] r1
  = (inr 0%nat, r1).
Proof.
  apply (get_model_memoized_again example_registry no_json no_args "google/gemini"
           GenerateConfig_default None None [] empty_resolution).
  - reflexivity.
  - vm_compute. reflexivity.
Defined.

Lemma get_model_after_aenter_witness :
  let r1 := snd (get_model example_registry no_json no_args (SpecStr "google/gemini")
                           GenerateConfig_default None None true [] empty_resolution) in
  exists r3,
    get_model example_registry no_json no_args (SpecStr "google/gemini")
              GenerateConfig_default None None true [] (__aenter__ 0%nat r1)
    = (inr 1%nat, r3)
    /\ 1%nat <> 0%nat
    /\ _models r3 !! model_cache_key no_json no_args "google/gemini"
                                     GenerateConfig_default None None []
       = Some 1%nat
    /\ context_bound r3 1%nat = false
    /\ context_bound r3 0%nat = true
    /\ forall k, _models r3 !! k <> Some 0%nat.
Proof.
  refine (get_model_after_aenter example_registry no_json no_args "google/gemini"
            GenerateConfig_default None None []
            (snd (get_model example_registry no_json no_args (SpecStr "google/gemini")
                            GenerateConfig_default None None true [] empty_resolution))
            0%nat
            (mkModelObject
               (mkModel 0
                  (mkModelAPI "gemini" None "inspect_ai/google"
                     (fun _ _ _ _ _ => Returns (inl plain_output) None)
                     None 10 "gemini" google_is_rate_limit
                     false false false false false)
                  GenerateConfig_default)
               false false)
            _ _ _ _ _).
  - reflexivity.
  - vm_compute. discriminate.
  - vm_compute. reflexivity.
  - vm_compute. reflexivity.
  - vm_compute. lia.
Defined.

(** ** Further properties of [_providers/google.py] *)

Section GoogleConversion.

Import Google.

Variable NO_CONTENT : string.
Variable text : ChatMessage -> string.
Variable chat_content_to_part : Content -> PartType.

Lemma consective_tool_message_reducer_snoc l prev message :
  consective_tool_message_reducer (l ++ [prev]) message
  = if both_function message prev
    then l ++ [mkContentDict "function" (parts prev ++ parts message)]
    else l ++ [prev; message].
Proof.
  unfold consective_tool_message_reducer, both_function. rewrite last_snoc.
  destruct (String.eqb (role message) "function" && String.eqb (role prev) "function").
  - rewrite length_app. cbn [length].
    replace (pred (length l + 1)) with (length l + 0)%nat by lia.
    rewrite insert_app_r. reflexivity.
  - rewrite <- app_assoc. reflexivity.
Qed.

Lemma reducer_keeps_user_head first : forall messages acc,
  role first = "user" ->
  exists rest,
    foldl consective_tool_message_reducer (first :: acc) messages = first :: rest.
Proof.
  induction messages as [|m messages IH]; intros acc Hrole; cbn [foldl].
  - eexists; reflexivity.
  - destruct acc as [|prev init _] using rev_ind.
    + change [first] with ([] ++ [first]).
      rewrite consective_tool_message_reducer_snoc.
      unfold both_function. rewrite Hrole, andb_false_r. apply IH, Hrole.
    + change (first :: init ++ [prev]) with ((first :: init) ++ [prev]).
      rewrite consective_tool_message_reducer_snoc.
      destruct (both_function m prev); apply IH, Hrole.
Qed.

(** X27: the converted conversation is never empty and always opens with a
    [user] entry, and that entry starts with one text part per system
    message of the input, in the order of the input. *)
Theorem as_chat_messages_opens_with_user (messages : list ChatMessage) :
  exists first rest more,
    as_chat_messages NO_CONTENT text chat_content_to_part messages = first :: rest
    /\ role first = "user"
    /\ parts first
       = system_parts text
           (List.filter (fun message => isinstance message TSystem) messages)
         ++ more.
Proof.
  unfold as_chat_messages.
  set (system_messages := List.filter _ messages).
  set (chat_messages := omap _ _).
  assert (Hhead : exists first rest more,
             prepend_system_messages text chat_messages system_messages = first :: rest
             /\ role first = "user"
             /\ parts first = system_parts text system_messages ++ more).
  { unfold prepend_system_messages. destruct chat_messages as [|first rest].
    - eexists _, _, []. rewrite app_nil_r. repeat split.
    - destruct (String.eqb (role first) "user") eqn:Hrole.
      + apply String.eqb_eq in Hrole. eexists _, _, _. repeat split. exact Hrole.
      + eexists _, _, []. rewrite app_nil_r. repeat split. }
  destruct Hhead as (first & rest & more & -> & Hrole & Hparts).
  change (foldl consective_tool_message_reducer [] (first :: rest))
    with (foldl consective_tool_message_reducer [first] rest).
  destruct (reducer_keeps_user_head first rest [] Hrole) as [rest' ->].
  exists first, rest', more. repeat split; assumption.
Qed.

Lemma reducer_separates (acc : list ContentDict) (message : ContentDict) :
  (forall i a b, acc !! i = Some a -> acc !! S i = Some b -> both_function a b = false) ->
  forall i a b,
    consective_tool_message_reducer acc message !! i = Some a ->
    consective_tool_message_reducer acc message !! S i = Some b ->
    both_function a b = false.
Proof.
  intros Hacc. destruct acc as [|prev init _] using rev_ind.
  - intros [|i] a b Ha Hb; discriminate.
  - rewrite consective_tool_message_reducer_snoc.
    destruct (both_function message prev) eqn:Hboth; intros i a b Ha Hb.
    + assert (Hi : (S i < length (init ++ [prev]))%nat).
      { apply lookup_lt_Some in Hb. rewrite !length_app in *. exact Hb. }
      rewrite length_app in Hi. cbn [length] in Hi.
      rewrite lookup_app_l in Ha by lia.
      destruct (decide (S i = length init)) as [Hlast|Hinner].
      * rewrite lookup_app_r, Hlast, Nat.sub_diag in Hb by lia.
        injection Hb as <-.
        assert (Hprev : both_function a prev = false).
        { apply (Hacc i).
          - rewrite lookup_app_l by lia. exact Ha.
          - rewrite lookup_app_r, Hlast, Nat.sub_diag by lia. reflexivity. }
        unfold both_function in *. apply andb_true_iff in Hboth as [_ Hfunction].
        rewrite Hfunction, andb_true_r in Hprev. rewrite Hprev. reflexivity.
      * rewrite lookup_app_l in Hb by lia.
        apply (Hacc i); rewrite lookup_app_l by lia; assumption.
    + change (init ++ [prev; message]) with (init ++ [prev] ++ [message]) in *.
      rewrite app_assoc in Ha, Hb.
      assert (Hi : (S i < length ((init ++ [prev]) ++ [message]))%nat).
      { apply lookup_lt_Some in Hb. exact Hb. }
      rewrite !length_app in Hi. cbn [length] in Hi.
      assert (Hlen : length (init ++ [prev]) = (length init + 1)%nat).
      { rewrite length_app. reflexivity. }
      rewrite lookup_app_l in Ha by lia.
      destruct (decide (S i = length init + 1)%nat) as [Hlast|Hinner].
      * rewrite lookup_app_r in Hb by lia.
        rewrite Hlen, Hlast, Nat.sub_diag in Hb. injection Hb as <-.
        rewrite lookup_app_r in Ha by lia.
        replace (i - length init)%nat with 0%nat in Ha by lia.
        injection Ha as <-.
        unfold both_function in *. rewrite andb_comm. exact Hboth.
      * rewrite lookup_app_l in Hb by lia. exact (Hacc i a b Ha Hb).
Qed.

Lemma foldl_reducer_separates (messages : list ContentDict) : forall acc,
  (forall i a b, acc !! i = Some a -> acc !! S i = Some b -> both_function a b = false) ->
  forall i a b,
    foldl consective_tool_message_reducer acc messages !! i = Some a ->
    foldl consective_tool_message_reducer acc messages !! S i = Some b ->
    both_function a b = false.
Proof.
  induction messages as [|m messages IH]; intros acc Hacc; cbn [foldl].
  - exact Hacc.
  - apply IH, reducer_separates, Hacc.
Qed.

(** X28: in the converted conversation no two neighbours are both
    [function] entries: the results of consecutive tool messages are
    merged into one entry. *)
Theorem as_chat_messages_merges_tool_results
    (messages : list ChatMessage) (i : nat) (a b : ContentDict) :
  as_chat_messages NO_CONTENT text chat_content_to_part messages !! i = Some a ->
  as_chat_messages NO_CONTENT text chat_content_to_part messages !! S i = Some b ->
  both_function a b = false.
Proof.
  unfold as_chat_messages. apply foldl_reducer_separates.
  intros [|j] x y Hx Hy; discriminate.
Qed.

Lemma all_parts_snoc (l : list ContentDict) (x : ContentDict) :
  all_parts (l ++ [x]) = all_parts l ++ parts x.
Proof.
  unfold all_parts. rewrite map_app, concat_app. cbn [map concat].
  rewrite app_nil_r. reflexivity.
Qed.

Lemma reducer_all_parts (acc : list ContentDict) (message : ContentDict) :
  all_parts (consective_tool_message_reducer acc message)
  = all_parts acc ++ parts message.
Proof.
  destruct acc as [|prev init _] using rev_ind; [apply (all_parts_snoc [])|].
  rewrite consective_tool_message_reducer_snoc.
  destruct (both_function message prev).
  - rewrite !all_parts_snoc. cbn [parts]. rewrite app_assoc. reflexivity.
  - change (init ++ [prev; message]) with (init ++ [prev] ++ [message]).
    rewrite app_assoc, !all_parts_snoc. reflexivity.
Qed.

Lemma foldl_reducer_all_parts (messages : list ContentDict) : forall acc,
  all_parts (foldl consective_tool_message_reducer acc messages)
  = all_parts acc ++ all_parts messages.
Proof.
  induction messages as [|m messages IH]; intros acc; cbn [foldl].
  - unfold all_parts at 3. cbn [map concat]. rewrite app_nil_r. reflexivity.
  - rewrite IH, reducer_all_parts, <- app_assoc. reflexivity.
Qed.

(** X29: the conversion loses no part and reorders none: the parts of the
    converted conversation, read in order, are one text part per system
    message followed by the parts of the other messages. Merging tool
    results only regroups them. *)
Theorem as_chat_messages_keeps_all_parts (messages : list ChatMessage) :
  all_parts (as_chat_messages NO_CONTENT text chat_content_to_part messages)
  = system_parts text
      (List.filter (fun message => isinstance message TSystem) messages)
    ++ all_parts (omap (content_dict NO_CONTENT text chat_content_to_part)
                       (supported_messages messages)).
Proof.
  unfold as_chat_messages. rewrite foldl_reducer_all_parts.
  change (all_parts []) with (@nil PartType). rewrite app_nil_l.
  unfold prepend_system_messages.
  destruct (omap _ _) as [|first rest].
  - unfold all_parts. cbn [map concat parts]. reflexivity.
  - destruct (String.eqb (role first) "user").
    + unfold all_parts. cbn [map concat parts]. rewrite app_assoc. reflexivity.
    + unfold all_parts. cbn [map concat parts]. reflexivity.
Qed.

(** No message that is not a system message is dropped by the conversion to
    entries. *)
Lemma content_dict_supported (messages : list ChatMessage) :
  length (omap (content_dict NO_CONTENT text chat_content_to_part)
               (supported_messages messages))
  = length (supported_messages messages).
Proof.
  unfold supported_messages.
  induction messages as [|m messages IH]; [reflexivity|].
  destruct m; cbn [List.filter isinstance negb omap content_dict length list_omap];
    try (cbn; f_equal; exact IH); exact IH.
Qed.

End GoogleConversion.

(** ** Further properties of [simple_input_messages] *)

Lemma step_reversed_has_user (acc : list ChatMessage) (message : ChatMessage) :
  existsb (fun m => isinstance m TUser) (step_reversed TUser acc message)
  = existsb (fun m => isinstance m TUser) acc || isinstance message TUser.
Proof.
  destruct acc as [|prev rest]; cbn [step_reversed existsb].
  - rewrite orb_false_r. reflexivity.
  - destruct (isinstance message TUser) eqn:Hm, (isinstance prev TUser) eqn:Hp;
      cbn [andb existsb]; rewrite ?isinstance_combine_messages, ?Hm, ?Hp;
      cbn [orb]; rewrite ?orb_true_r, ?orb_false_r; reflexivity.
Qed.

Lemma foldl_step_reversed_has_user (messages : list ChatMessage) : forall acc,
  existsb (fun m => isinstance m TUser) (foldl (step_reversed TUser) acc messages)
  = existsb (fun m => isinstance m TUser) acc
    || existsb (fun m => isinstance m TUser) messages.
Proof.
  induction messages as [|m messages IH]; intros acc; cbn [foldl existsb].
  - rewrite orb_false_r. reflexivity.
  - rewrite IH, step_reversed_has_user, orb_assoc. reflexivity.
Qed.

(** Collapsing neither removes the last user message nor makes one. *)
Lemma collapse_user_has_user (messages : list ChatMessage) :
  (exists m, m ∈ collapse_consecutive_user_messages messages
             /\ isinstance m TUser = true)
  <-> exists m, m ∈ messages /\ isinstance m TUser = true.
Proof.
  change (collapse_consecutive_user_messages messages) with (collapse TUser messages).
  rewrite collapse_reversed.
  assert (Hex : forall l : list ChatMessage,
             (exists m, m ∈ l /\ isinstance m TUser = true)
             <-> existsb (fun m => isinstance m TUser) l = true).
  { intros l. rewrite existsb_exists. split; intros (m & Hin & Hm); exists m;
      (split; [apply list_elem_of_In; exact Hin | exact Hm]). }
  rewrite (Hex messages), <- (orb_false_l (existsb _ messages)).
  change false with (existsb (fun m => isinstance m TUser) []) at 1.
  rewrite <- foldl_step_reversed_has_user, <- Hex.
  split; intros (m & Hin & Hm); exists m; (split; [|exact Hm]).
  - apply list_elem_of_In, (proj2 (in_rev _ _)), list_elem_of_In. exact Hin.
  - apply list_elem_of_In, (proj1 (in_rev _ _)), list_elem_of_In. exact Hin.
Qed.

Section SimpleInputProperties.

Variable text : ChatMessage -> string.
Variable set_text : ChatMessage -> string -> ChatMessage.
Variable strip : string -> string.

(** X30: [simple_input_messages] raises [StopIteration] exactly when the
    input has no user message, whatever the folding function and whether or
    not there is a system message to fold. *)
Theorem simple_input_messages_StopIteration_iff
    (input : list ChatMessage)
    (fold_system_message : option (string -> string -> string)) :
  simple_input_messages text set_text strip input fold_system_message
  = inl StopIteration_raised
  <-> forall m, m ∈ input -> isinstance m TUser = false.
Proof.
  unfold simple_input_messages.
  set (supported := List.filter _ input).
  assert (Hsupported : (exists m, m ∈ supported /\ isinstance m TUser = true)
                       <-> exists m, m ∈ input /\ isinstance m TUser = true).
  { unfold supported. split; intros (m & Hin & Hm); exists m; (split; [|exact Hm]).
    - apply list_elem_of_In, filter_In in Hin as [Hin _].
      apply list_elem_of_In. exact Hin.
    - apply list_elem_of_In, filter_In. split; [apply list_elem_of_In; exact Hin|].
      destruct m; try discriminate; reflexivity. }
  destruct (list_find _ _) as [[i first_user_message]|] eqn:Hfind.
  - split; [discriminate|]. intros Hnone. exfalso.
    apply list_find_Some in Hfind as (Hlookup & Huser & _).
    destruct (proj1 Hsupported) as (m & Hin & Hm).
    { apply collapse_user_has_user. exists first_user_message. split; [|exact Huser].
      apply list_elem_of_lookup. exists i. exact Hlookup. }
    rewrite (Hnone m Hin) in Hm. discriminate.
  - split; [|reflexivity]. intros _ m Hin.
    destruct (isinstance m TUser) eqn:Hm; [|reflexivity]. exfalso.
    apply list_find_None in Hfind.
    destruct (proj2 (collapse_user_has_user supported)) as (m' & Hin' & Hm').
    { apply Hsupported. exists m. split; assumption. }
    rewrite Forall_forall in Hfind. exact (Hfind m' Hin' Hm').
Qed.

End SimpleInputProperties.

Lemma as_chat_messages_merges_tool_results_witness :
  Google.both_function
    (Google.mkContentDict "model"
       [Google.PartFunctionCall "weather" "{}"; Google.PartText "(no content)"])
    (Google.mkContentDict "function"
       [Google.PartFunctionResponse "1" "sunny";
        Google.PartFunctionResponse "2" "timed out"])
  = false.
Proof.
  apply (as_chat_messages_merges_tool_results "(no content)" Google.example_text
           Google.example_chat_content_to_part Google.example_conversation 1%nat).
  - reflexivity.
  - reflexivity.
Defined.
